(** * MXDL server status page: the status resolver of [ServerStatusManager]

    The repository holds two revisions of the same class:
    - [src/script.js]: one upstream (the mcsrvstat API), latency probing,
      and a MOTD renderer that rewrites Minecraft colour codes;
    - the second source file: two upstreams (a new API first, the
      mcsrvstat API as enrichment or fallback) merged by
      [processServerData], and a MOTD renderer that only joins lines.
    [getServerStatus] is the same text in both.

    The embedding is shallow.  Data that the code receives from JSON is a
    tree of JavaScript values; the objects that [getServerStatus] stores
    and hands out live in an object store addressed by references, so
    that the sharing created by the spread copies is visible.

    What the model takes as given:
    - a call of [getServerStatus] is one step: calls come one after the
      other, as on the single-threaded event loop when no two of them
      overlap;
    - the answers of the upstream APIs and of the latency probe are
      inputs, and a function that fetches also returns the requests it
      issued;
    - JSON numbers are rationals, so [Math.round] is exact on them; the
      readings of performance.now() in the latency probe are doubles,
      subtracted and rounded as doubles;
    - the string and number coercions that the code only reaches on data
      of an unexpected type are a parameter ([Runtime]). *)

From Stdlib Require Import ZArith QArith Qround Lqa String Ascii SpecFloat.
From stdpp Require Import base option list strings pretty gmap.

Local Open Scope Z_scope.
Set Warnings "-register-all".

(** ** JavaScript values *)

(** A JavaScript string is a sequence of UTF-16 code units. *)
Abbreviation jsstring := (list N).

(** The code units of an ASCII literal of the source. *)
Definition lit (s : string) : jsstring :=
  (λ a, N_of_ascii a) <$> list_ascii_of_string s.

(** The two non-ASCII literals of the source: '未知' and '生存'. *)
Definition unknown : jsstring := [26410%N; 30693%N].
Definition survival : jsstring := [29983%N; 23384%N].

(** Values as [JSON.parse] builds them, plus the built-in methods that a
    property read on an array can return.  Numbers are the rationals that
    JSON number literals denote (no NaN, no infinities).  Property names
    are spelled as Rocq strings: the code only ever compares them. *)
Inductive value :=
| VUndef
| VNull
| VBool (b : bool)
| VNum (q : Q)
| VStr (s : jsstring)
| VArr (elems : list value)
| VObj (props : list (string * value))
| VBuiltin (name : string).

(** Exceptions that the modelled code throws or lets through. *)
Inductive exn :=
| TypeError                     (* property read on null/undefined, call of a non-function *)
| URIError                      (* encodeURIComponent on a lone surrogate *)
| NetworkFailure                (* fetch() rejected *)
| SyntaxError                   (* response.json() rejected *)
| HttpStatusError (status : Z)  (* new Error(`... ${response.status}`) *)
| NoStatusAvailable.            (* new Error('无法获取服务器状态，请检查网络连接') *)

Inductive result (A : Type) :=
| Ok (a : A)
| Throw (e : exn).
Arguments Ok {A} a.
Arguments Throw {A} e.

#[global] Instance result_ret : MRet result := λ A a, Ok a.
#[global] Instance result_fmap : FMap result := λ A B f r,
  match r with Ok a => Ok (f a) | Throw e => Throw e end.
#[global] Instance result_bind : MBind result := λ A B f r,
  match r with Ok a => f a | Throw e => Throw e end.

(** try { body } catch (e) { handler(e) } *)
Definition try_catch {A} (body : result A) (handler : exn → result A) : result A :=
  match body with Ok a => Ok a | Throw e => handler e end.

(** Own properties of an object literal: first binding of a name wins on
    read; a write replaces the binding in place or appends a new one. *)
Fixpoint lookup_prop {V} (k : string) (ps : list (string * V)) : option V :=
  match ps with
  | [] => None
  | (k', v) :: ps => if String.eqb k k' then Some v else lookup_prop k ps
  end.

Fixpoint set_prop {V} (k : string) (v : V) (ps : list (string * V)) : list (string * V) :=
  match ps with
  | [] => [(k, v)]
  | (k', v') :: ps => if String.eqb k k' then (k, v) :: ps else (k', v') :: set_prop k v ps
  end.

(** ToBoolean *)
Definition truthy (v : value) : bool :=
  match v with
  | VUndef | VNull => false
  | VBool b => b
  | VNum q => negb (Qeq_bool q 0)
  | VStr s => negb (bool_decide (s = []))
  | VArr _ | VObj _ | VBuiltin _ => true
  end.

Definition nullish (v : value) : bool :=
  match v with VUndef | VNull => true | _ => false end.

(** [v.k] for the property names that the source reads.  Arrays answer
    [length] and the two prototype methods whose names the source uses as
    property names ([map], [join]); strings answer [length]; other
    primitives have none of these names. *)
Definition get (v : value) (k : string) : result value :=
  match v with
  | VUndef | VNull => Throw TypeError
  | VBool _ | VNum _ | VBuiltin _ => Ok VUndef
  | VStr s => if String.eqb k "length" then Ok (VNum (inject_Z (Z.of_nat (length s)))) else Ok VUndef
  | VArr l =>
      if String.eqb k "length" then Ok (VNum (inject_Z (Z.of_nat (length l))))
      else if String.eqb k "map" || String.eqb k "join" then Ok (VBuiltin k)
      else Ok VUndef
  | VObj ps => Ok (default VUndef (lookup_prop k ps))
  end.

(** [v[0]] *)
Definition get0 (v : value) : result value :=
  match v with
  | VUndef | VNull => Throw TypeError
  | VBool _ | VNum _ | VBuiltin _ => Ok VUndef
  | VStr s => Ok (match s with [] => VUndef | c :: _ => VStr [c] end)
  | VArr l => Ok (match l with [] => VUndef | x :: _ => x end)
  | VObj ps => Ok (default VUndef (lookup_prop "0" ps))
  end.

(** Expressions evaluate in [result]; the operators below take and give
    computations, and only run their right operand when JavaScript does. *)
Definition dot (e : result value) (k : string) : result value := v ← e; get v k.
Definition idx0 (e : result value) : result value := v ← e; get0 v.
(** [e?.k] *)
Definition optdot (e : result value) (k : string) : result value :=
  v ← e; if nullish v then Ok VUndef else get v k.
Definition js_or (e1 e2 : result value) : result value :=
  v ← e1; if truthy v then Ok v else e2.
Definition js_and (e1 e2 : result value) : result value :=
  v ← e1; if truthy v then e2 else Ok v.
Definition js_cond (c e1 e2 : result value) : result value :=
  v ← c; if truthy v then e1 else e2.

Declare Scope js_scope.
Delimit Scope js_scope with js.
Notation "e .: k" := (dot e k) (at level 19, left associativity) : js_scope.
Notation "e ?.: k" := (optdot e k) (at level 19, left associativity) : js_scope.
Notation "e1 <||> e2" := (js_or e1 e2) (at level 41, left associativity) : js_scope.
Notation "e1 <&&> e2" := (js_and e1 e2) (at level 40, left associativity) : js_scope.

(** Math.round on a rational: the nearest integer, ties towards +∞. *)
Definition Math_round (q : Q) : Q := inject_Z (Qfloor (q + (1 # 2))).

(** The coercions of the language that the code reaches only on data of
    an unexpected type are left to the runtime. *)
Class Runtime := {
  (* ToString of a value that is not a string *)
  ToString_other : value → result jsstring;
  (* ToNumber of a value that is not a number; [None] is NaN *)
  ToNumber_other : value → result (option Q)
}.

Section Coercions.
Context {rt : Runtime}.

Definition ToString (v : value) : result jsstring :=
  match v with VStr s => Ok s | _ => ToString_other v end.

(** [v > 0] *)
Definition gt_zero (v : value) : result bool :=
  match v with
  | VNum q => Ok (negb (Qle_bool q 0))
  | _ => n ← ToNumber_other v; Ok (match n with Some q => negb (Qle_bool q 0) | None => false end)
  end.

(** Array.prototype.join: undefined and null elements give the empty
    string, the others go through ToString. *)
Fixpoint join (sep : jsstring) (l : list value) : result jsstring :=
  match l with
  | [] => Ok []
  | x :: r =>
      s ← (if nullish x then Ok [] else ToString x);
      match r with
      | [] => Ok s
      | _ => t ← join sep r; Ok (s ++ sep ++ t)
      end
  end.
End Coercions.

(** ** The outside world *)

(** What a [fetch] can come back with: a rejected promise, or a response
    with a status and a body; [None] is a body that is not JSON. *)
Inductive response :=
| NetworkError
| Http (status : Z) (body : option value).

(** response.ok *)
Definition ok (status : Z) : bool := (200 <=? status) && (status <=? 299).

(** The requests the resolver can issue for an address. *)
Inductive request :=
| GetPrimary (address : jsstring)   (* uapis.cn .../serverstatus?server=<address> *)
| GetLegacy (address : jsstring)    (* api.mcsrvstat.us/2/<address> *)
| Probe (address : jsstring).       (* measureRealPing: WebSocket, then image *)

(** await response.json() of an awaited fetch *)
Definition fetch_json (r : response) (on_bad_status : Z → result value) : result value :=
  match r with
  | NetworkError => Throw NetworkFailure
  | Http status body =>
      if ok status then match body with Some j => Ok j | None => Throw SyntaxError end
      else on_bad_status status
  end.

(** encodeURIComponent: the characters A-Z a-z 0-9 - _ . ! ~ * ' ( ) stay,
    every other code point becomes the %XX of its UTF-8 octets, and a
    surrogate that is not part of a pair throws a URIError. *)
Definition uriUnescaped (c : N) : bool :=
  ((65 <=? c) && (c <=? 90) || (97 <=? c) && (c <=? 122) || (48 <=? c) && (c <=? 57))%N
  || bool_decide (c ∈ [45; 95; 46; 33; 126; 42; 39; 40; 41]%N).

Definition hex (n : N) : N := (if n <? 10 then 48 + n else 55 + n)%N.
Definition percent (octet : N) : jsstring := [37%N; hex (octet / 16); hex (octet mod 16)].

Definition utf8 (cp : N) : list N :=
  (if cp <? 128 then [cp]
   else if cp <? 2048 then [192 + cp / 64; 128 + cp mod 64]
   else if cp <? 65536 then [224 + cp / 4096; 128 + (cp / 64) mod 64; 128 + cp mod 64]
   else [240 + cp / 262144; 128 + (cp / 4096) mod 64; 128 + (cp / 64) mod 64;
         128 + cp mod 64])%N.

Fixpoint encodeURIComponent (s : jsstring) : result jsstring :=
  match s with
  | [] => Ok []
  | c :: r =>
      if uriUnescaped c then rest ← encodeURIComponent r; Ok (c :: rest)
      else if ((c <? 55296) || (57343 <? c))%N then
        rest ← encodeURIComponent r; Ok (mjoin (percent <$> utf8 c) ++ rest)
      else if (56320 <=? c)%N then Throw URIError
      else
        match r with
        | d :: r' =>
            if ((56320 <=? d) && (d <=? 57343))%N then
              rest ← encodeURIComponent r';
              Ok (mjoin (percent <$> utf8 (65536 + (c - 55296) * 1024 + (d - 56320))%N)
                  ++ rest)
            else Throw URIError
        | [] => Throw URIError
        end
  end.

Definition quote : jsstring := [34%N].
Definition br : jsstring := lit "<br>".

(** ** src/script.js *)
Module Script.
Section Script.
Context {rt : Runtime}.
Local Open Scope js_scope.

Definition processServerData (data0 : value) : result (list (string * value)) :=
  let data := Ok data0 in
  pingValue ← data.:"debug"?.:"ping";
  let pingValue :=
    match pingValue with
    | VBool true => VNull
    | VNum q => VNum (Math_round q)
    | VBool false | VUndef => VNull
    | other => other
    end in
  online ← data.:"online" <||> Ok (VBool false);
  ip ← data.:"ip" <||> Ok (VStr unknown);
  port ← data.:"port" <||> Ok (VStr unknown);
  hostname ← data.:"hostname" <||> Ok (VStr unknown);
  icon ← data.:"icon" <||> Ok VNull;
  version ← data.:"version" <||> Ok (VStr unknown);
  protocol ← data.:"protocol" <||> Ok (VStr unknown);
  protocolName ← data.:"protocol_name" <||> Ok (VStr unknown);
  p_online ← data.:"players"?.:"online" <||> Ok (VNum 0);
  p_max ← data.:"players"?.:"max" <||> Ok (VNum 0);
  p_list ← data.:"players"?.:"list" <||> Ok (VArr []);
  m_raw ← data.:"motd"?.:"raw" <||> Ok (VArr []);
  m_clean ← data.:"motd"?.:"clean" <||> Ok (VArr []);
  m_html ← data.:"motd"?.:"html" <||> Ok (VArr []);
  d_query ← data.:"debug"?.:"query" <||> Ok (VBool false);
  d_cacheHit ← data.:"debug"?.:"cachehit" <||> Ok (VBool false);
  software ← data.:"software" <||> Ok (VStr unknown);
  gamemode ← data.:"gamemode" <||> Ok (VStr survival);
  map ← data.:"map" <||> Ok (VStr unknown);
  plugins ← data.:"plugins"?.:"names" <||> Ok (VArr []);
  Ok [ ("online", online); ("ip", ip); ("port", port); ("hostname", hostname);
       ("icon", icon); ("version", version); ("protocol", protocol);
       ("protocolName", protocolName);
       ("players", VObj [("online", p_online); ("max", p_max); ("list", p_list)]);
       ("motd", VObj [("raw", m_raw); ("clean", m_clean); ("html", m_html)]);
       ("debug", VObj [("ping", pingValue); ("query", d_query); ("cacheHit", d_cacheHit)]);
       ("software", software); ("gamemode", gamemode); ("map", map);
       ("plugins", plugins) ].

(** processedData.debug.realPing = realPing *)
Definition set_realPing (realPing : Q) (processedData : list (string * value)) : result (list (string * value)) :=
  debug ← get (VObj processedData) "debug";
  match debug with
  | VObj ps => Ok (set_prop "debug" (VObj (set_prop "realPing" (VNum realPing) ps)) processedData)
  | VUndef | VNull => Throw TypeError
  | _ => Ok processedData
  end.

(** [net] answers the requests; [measureRealPing] is the outcome of the
    latency probe: a rounded number of milliseconds, or null. *)
Definition fetchServerStatus (net : request → response)
    (measureRealPing : jsstring → result (option Z)) (serverAddress : jsstring)
  : list request * result (list (string * value)) :=
  let body :=
    data ← fetch_json (net (GetLegacy serverAddress)) (λ status, Throw (HttpStatusError status));
    processServerData data in
  match body with
  | Throw e => ([GetLegacy serverAddress], Throw e)
  | Ok processedData =>
      if truthy (default VUndef (lookup_prop "online" processedData)) then
        ([GetLegacy serverAddress; Probe serverAddress],
         realPing ← measureRealPing serverAddress;
         match realPing with
         | Some ms => set_realPing (inject_Z ms) processedData
         | None => Ok processedData
         end)
      else ([GetLegacy serverAddress], Ok processedData)
  end.

(** line.replace(/§([0-9a-fk-or])/g, (match, code) => `</span><span class="mc-color-${code}">`) *)
Definition section_sign : N := 167%N.
Definition is_color_code (c : N) : bool :=
  ((48 <=? c) && (c <=? 57) || (97 <=? c) && (c <=? 102)
   || (107 <=? c) && (c <=? 111) || (c =? 114))%N.
Definition color_span (code : N) : jsstring :=
  lit "</span><span class=" ++ quote ++ lit "mc-color-" ++ [code] ++ quote ++ lit ">".

Fixpoint replace_colors (line : jsstring) : jsstring :=
  match line with
  | c :: tl =>
      match tl with
      | code :: rest =>
          if (c =? section_sign)%N && is_color_code code
          then color_span code ++ replace_colors rest
          else c :: replace_colors tl
      | [] => [c]
      end
  | [] => []
  end.

(** .replace(/§r/g, '</span><span>') *)
Fixpoint replace_resets (line : jsstring) : jsstring :=
  match line with
  | c :: tl =>
      match tl with
      | code :: rest =>
          if (c =? section_sign)%N && (code =? 114)%N
          then lit "</span><span>" ++ replace_resets rest
          else c :: replace_resets tl
      | [] => [c]
      end
  | [] => []
  end.

Definition startsWith (s p : jsstring) : bool := bool_decide (take (length p) s = p).
Definition endsWith (s p : jsstring) : bool :=
  bool_decide (drop (length s - length p) s = p).

Definition render_line (line : jsstring) : jsstring :=
  let processedLine := replace_resets (replace_colors line) in
  let processedLine :=
    if negb (startsWith processedLine (lit "<span"))
    then lit "<span>" ++ processedLine else processedLine in
  let processedLine :=
    if negb (endsWith processedLine (lit "</span>"))
    then processedLine ++ lit "</span>" else processedLine in
  processedLine.

(** The arrow function of [map]: [line.replace] is only callable on a
    string. *)
Definition render_element (line : value) : result value :=
  match line with
  | VStr s => Ok (VStr (render_line s))
  | _ => Throw TypeError
  end.

Definition renderMOTD (motdHtml : value) : result jsstring :=
  match motdHtml with
  | VArr lines => rendered ← mapM render_element lines; join br rendered
  | _ => Ok []
  end.
End Script.
End Script.

(** ** The second source file (two upstreams) *)
Module Merged.
Section Merged.
Context {rt : Runtime}.
Local Open Scope js_scope.

(** [e === 200] and [e !== undefined] *)
Definition is_200 (e : result value) : result value :=
  v ← e; Ok (VBool (match v with VNum q => Qeq_bool q 200 | _ => false end)).
Definition is_defined (e : result value) : result value :=
  v ← e; Ok (VBool (match v with VUndef => false | _ => true end)).

(** Calls of [join] and [map] on a value that was read from JSON: only
    an array has them as functions. *)
Definition call_join (v : value) (sep : jsstring) : result value :=
  match v with
  | VArr l => VStr <$> join sep l
  | _ => Throw TypeError
  end.

(** line => `<span style="color: #ffffff">${line}</span>` *)
Definition white_span (line : value) : result value :=
  s ← ToString line;
  Ok (VStr (lit "<span style=" ++ quote ++ lit "color: #ffffff" ++ quote ++ lit ">"
            ++ s ++ lit "</span>")).

Definition call_map (v : value) (f : value → result value) : result value :=
  match v with
  | VArr l => VArr <$> mapM f l
  | _ => Throw TypeError
  end.

Definition convertOldApiToNewApiFormat (oldApiData0 : value) : result (list (string * value)) :=
  let oldApiData := Ok oldApiData0 in
  has_motd ← oldApiData.:"motd" <&&> oldApiData.:"motd".:"clean"
             <&&> (len ← oldApiData.:"motd".:"clean".:"length"; VBool <$> gt_zero len);
  '(motdClean, motdHtml) ←
    (if truthy has_motd then
       clean ← oldApiData.:"motd".:"clean";
       motdClean ← call_join clean [10%N];
       lines ← call_map clean white_span;
       motdHtml ← call_join lines br;
       Ok (motdClean, motdHtml)
     else Ok (VStr [], VStr []));
  online ← oldApiData.:"online" <||> Ok (VBool false);
  ip ← oldApiData.:"ip" <||> Ok (VStr unknown);
  port ← oldApiData.:"port" <||> Ok (VStr unknown);
  hostname ← oldApiData.:"hostname" <||> Ok (VStr unknown);
  players ← js_cond (oldApiData.:"players") (oldApiData.:"players".:"online") (Ok (VNum 0));
  max_players ← js_cond (oldApiData.:"players") (oldApiData.:"players".:"max") (Ok (VNum 0));
  version ← oldApiData.:"version" <||> Ok (VStr unknown);
  favicon_url ← oldApiData.:"icon" <||> Ok VNull;
  Ok [ ("code", VNum 200); ("online", online); ("ip", ip); ("port", port);
       ("hostname", hostname); ("players", players); ("max_players", max_players);
       ("version", version); ("motd_clean", motdClean); ("motd_html", motdHtml);
       ("favicon_url", favicon_url) ].

Definition processServerData (newApiData0 oldApiData0 : value) : result (list (string * value)) :=
  let newApiData := Ok newApiData0 in
  let oldApiData := Ok oldApiData0 in
  pingValue ← js_cond (newApiData.:"online") (Ok VNull) (Ok VNull);
  has_list ← oldApiData <&&> oldApiData.:"players" <&&> oldApiData.:"players".:"list";
  playersList ← (if truthy has_list then oldApiData.:"players".:"list" else Ok (VArr []));
  has_icon ← oldApiData <&&> oldApiData.:"icon";
  icon ← (if truthy has_icon then oldApiData.:"icon"
          else js_cond (newApiData.:"favicon_url") (newApiData.:"favicon_url") (Ok VNull));
  playersOnline ← newApiData.:"players"
      <||> js_cond (oldApiData <&&> oldApiData.:"players") (oldApiData.:"players".:"online") (Ok (VNum 0));
  playersMax ← newApiData.:"max_players"
      <||> js_cond (oldApiData <&&> oldApiData.:"players") (oldApiData.:"players".:"max") (Ok (VNum 0));
  online ← newApiData.:"online" <||> Ok (VBool false);
  ip ← newApiData.:"ip" <||> (oldApiData <&&> oldApiData.:"ip") <||> Ok (VStr unknown);
  port ← newApiData.:"port" <||> (oldApiData <&&> oldApiData.:"port") <||> Ok (VStr unknown);
  hostname ← newApiData.:"hostname" <||> (oldApiData <&&> oldApiData.:"hostname") <||> Ok (VStr unknown);
  version ← newApiData.:"version" <||> (oldApiData <&&> oldApiData.:"version") <||> Ok (VStr unknown);
  protocol ← (oldApiData <&&> oldApiData.:"protocol") <||> Ok (VStr unknown);
  protocolName ← (oldApiData <&&> oldApiData.:"protocolName") <||> Ok (VStr unknown);
  m_raw ← (oldApiData <&&> oldApiData.:"motd" <&&> oldApiData.:"motd".:"raw") <||> Ok (VArr []);
  m_clean ← newApiData.:"motd_clean"
      <||> (oldApiData <&&> oldApiData.:"motd" <&&> oldApiData.:"motd".:"clean"
            <&&> idx0 (oldApiData.:"motd".:"clean"))
      <||> Ok (VStr []);
  m_html ← newApiData.:"motd_html"
      <||> (oldApiData <&&> oldApiData.:"motd" <&&> oldApiData.:"motd".:"html"
            <&&> idx0 (oldApiData.:"motd".:"html"))
      <||> Ok (VStr []);
  d_query ← (oldApiData <&&> oldApiData.:"debug" <&&> oldApiData.:"debug".:"query") <||> Ok (VBool false);
  software ← (oldApiData <&&> oldApiData.:"software") <||> Ok (VStr unknown);
  gamemode ← (oldApiData <&&> oldApiData.:"gamemode") <||> Ok (VStr survival);
  map ← (oldApiData <&&> oldApiData.:"map") <||> Ok (VStr unknown);
  plugins ← (oldApiData <&&> oldApiData.:"plugins") <||> Ok (VArr []);
  Ok [ ("online", online); ("ip", ip); ("port", port); ("hostname", hostname);
       ("icon", icon); ("version", version); ("protocol", protocol);
       ("protocolName", protocolName);
       ("players", VObj [("online", playersOnline); ("max", playersMax); ("list", playersList)]);
       ("motd", VObj [("raw", m_raw); ("clean", VArr [m_clean]); ("html", VArr [m_html])]);
       ("debug", VObj [("ping", pingValue); ("query", d_query); ("cacheHit", VBool false)]);
       ("software", software); ("gamemode", gamemode); ("map", map);
       ("plugins", plugins) ].

(** try { r = await fetch(..); if (r.ok) data = await r.json() } catch {}
    with [data] null before: every failure leaves it null. *)
Definition json_or_null (r : response) : value :=
  match r with
  | Http status (Some j) => if ok status then j else VNull
  | _ => VNull
  end.

Definition isNewApiValid (newApiData0 : value) : result value :=
  let newApiData := Ok newApiData0 in
  newApiData <&&> is_200 (newApiData.:"code") <&&> is_defined (newApiData.:"online").

(** The first try block of fetchServerStatus: the requests made and
    newApiData afterwards.  The URL is built before fetch is called, so
    when encodeURIComponent throws no request is made; the catch takes
    that throw like a rejected fetch, and newApiData stays null.
    [GetPrimary serverAddress] stands for the request with the encoded
    address in its URL. *)
Definition tryNewApi (net : request → response) (serverAddress : jsstring)
  : list request * value :=
  match encodeURIComponent serverAddress with
  | Ok query => ([GetPrimary serverAddress], json_or_null (net (GetPrimary serverAddress)))
  | Throw error => ([], VNull)
  end.

Definition fetchServerStatus (net : request → response) (serverAddress : jsstring)
  : list request * result (list (string * value)) :=
  let asked := (tryNewApi net serverAddress).1 in
  let newApiData := (tryNewApi net serverAddress).2 in
  match isNewApiValid newApiData with
  | Throw e => (asked, Throw e)
  | Ok valid =>
      if truthy valid then
        match get newApiData "online" with
        | Throw e => (asked, Throw e)
        | Ok online =>
            if truthy online then
              let oldApiData := json_or_null (net (GetLegacy serverAddress)) in
              (asked ++ [GetLegacy serverAddress],
               processServerData newApiData oldApiData)
            else
              (asked, processServerData newApiData VNull)
        end
      else
        (asked ++ [GetLegacy serverAddress],
         try_catch
           (oldApiData ← fetch_json (net (GetLegacy serverAddress))
                                    (λ status, Throw (HttpStatusError status));
            fallbackData ← convertOldApiToNewApiFormat oldApiData;
            processServerData (VObj fallbackData) oldApiData)
           (λ error, Throw NoStatusAvailable))
  end.

Definition renderMOTD (motdHtml : value) : result jsstring :=
  match motdHtml with
  | VArr lines => join br lines
  | _ => Ok []
  end.
End Merged.
End Merged.

(** ** The object store *)

(** Objects and arrays that outlive a call are cells of a store; a value
    of the store is a primitive or a reference to a cell. *)
Abbreviation loc := nat.

Inductive hval :=
| HUndef
| HNull
| HBool (b : bool)
| HNum (q : Q)
| HStr (s : jsstring)
| HBuiltin (name : string)
| HRef (l : loc).

Inductive cell :=
| CObj (props : list (string * hval))
| CArr (elems : list hval).

Fixpoint alloc_all (f : value → list cell → hval * list cell)
    (l : list value) (h : list cell) : list hval * list cell :=
  match l with
  | [] => ([], h)
  | x :: r =>
      let '(a, h1) := f x h in
      let '(b, h2) := alloc_all f r h1 in
      (a :: b, h2)
  end.

Fixpoint alloc_props (f : value → list cell → hval * list cell)
    (ps : list (string * value)) (h : list cell) : list (string * hval) * list cell :=
  match ps with
  | [] => ([], h)
  | (k, x) :: r =>
      let '(a, h1) := f x h in
      let '(b, h2) := alloc_props f r h1 in
      ((k, a) :: b, h2)
  end.

(** A freshly built tree of objects enters the store: one new cell per
    object and per array, the parts before the whole. *)
Fixpoint alloc (v : value) (h : list cell) : hval * list cell :=
  match v with
  | VUndef => (HUndef, h)
  | VNull => (HNull, h)
  | VBool b => (HBool b, h)
  | VNum q => (HNum q, h)
  | VStr s => (HStr s, h)
  | VBuiltin n => (HBuiltin n, h)
  | VArr l => let '(es, h1) := alloc_all alloc l h in (HRef (length h1), h1 ++ [CArr es])
  | VObj ps => let '(fs, h1) := alloc_props alloc ps h in (HRef (length h1), h1 ++ [CObj fs])
  end.

(** The object that an object literal of a function's result becomes. *)
Definition alloc_object (props : list (string * value)) (h : list cell) : loc * list cell :=
  let '(fs, h1) := alloc_props alloc props h in (length h1, h1 ++ [CObj fs]).

(** The tree that a store value stands for, followed to depth [fuel]. *)
Fixpoint read (fuel : nat) (h : list cell) (v : hval) : option value :=
  match v with
  | HUndef => Some VUndef
  | HNull => Some VNull
  | HBool b => Some (VBool b)
  | HNum q => Some (VNum q)
  | HStr s => Some (VStr s)
  | HBuiltin n => Some (VBuiltin n)
  | HRef l =>
      match fuel with
      | O => None
      | S fuel =>
          match h !! l with
          | Some (CObj ps) => VObj <$> mapM (λ kv, pair kv.1 <$> read fuel h kv.2) ps
          | Some (CArr es) => VArr <$> mapM (read fuel h) es
          | None => None
          end
      end
  end.

Definition read_prop (fuel : nat) (h : list cell) (kv : string * hval) : option (string * value) :=
  pair kv.1 <$> read fuel h kv.2.

(** { k1: v1, ... }: a new cell. *)
Definition new_object (props : list (string * hval)) (h : list cell) : loc * list cell :=
  (length h, h ++ [CObj props]).

(** The own enumerable properties that [{...x}] copies. *)
Definition own_props (h : list cell) (l : loc) : list (string * hval) :=
  match h !! l with
  | Some (CObj ps) => ps
  | Some (CArr es) => imap (λ i x, (pretty i, x)) es
  | None => []
  end.

(** What a caller can do to a status it was handed: [status.k = v] and
    [status.k1.k2 = v]. *)
Definition write_prop (l : loc) (k : string) (v : hval) (h : list cell) : option (list cell) :=
  match h !! l with
  | Some (CObj ps) => Some (<[l := CObj (set_prop k v ps)]> h)
  | _ => None
  end.

Definition write_nested (l : loc) (k1 k2 : string) (v : hval) (h : list cell) : option (list cell) :=
  match h !! l with
  | Some (CObj ps) =>
      match lookup_prop k1 ps with
      | Some (HRef l1) => write_prop l1 k2 v h
      | _ => None
      end
  | _ => None
  end.

(** ** getServerStatus (the same text in both files) *)

(** { data, timestamp } *)
Record CacheEntry := { data : loc; timestamp : Z }.

(** this.cache and the store its entries point into. *)
Record ServerStatusManager := {
  cache : gmap jsstring CacheEntry;
  store : list cell
  }.

Definition cacheTimeout : Z := 30000.

(** new ServerStatusManager() *)
Definition constructor : ServerStatusManager := {| cache := ∅; store := [] |}.

Section GetServerStatus.
(** this.fetchServerStatus: the requests it issues and its outcome. *)
Variable fetchServerStatus : jsstring → list request * result (list (string * value)).

(** [now] is what Date.now() returns.  The result: the requests issued,
    the status returned (a reference) or the error raised, and the manager
    afterwards.  [refresh] is the try block with its catch. *)
Definition getServerStatus (serverAddress : jsstring) (now : Z) (this : ServerStatusManager)
  : list request * result loc * ServerStatusManager :=
  let cached := cache this !! serverAddress in
  let refresh :=
    let '(requests, outcome) := fetchServerStatus serverAddress in
    match outcome with
    | Ok freshData0 =>
        let '(freshData, h) := alloc_object freshData0 (store this) in
        let '(l, h) := new_object (set_prop "fromCache" (HBool false) (own_props h freshData)) h in
        (requests, Ok l,
         {| cache := <[serverAddress := {| data := freshData; timestamp := now |}]> (cache this);
            store := h |})
    | Throw error =>
        match cached with
        | Some c =>
            let '(l, h) :=
              new_object (set_prop "error" (HBool true)
                            (set_prop "fromCache" (HBool true) (own_props (store this) (data c))))
                         (store this) in
            (requests, Ok l, {| cache := cache this; store := h |})
        | None => (requests, Throw error, this)
        end
    end in
  match cached with
  | Some c =>
      if bool_decide (now - timestamp c < cacheTimeout)
      then
        let '(l, h) :=
          new_object (set_prop "fromCache" (HBool true) (own_props (store this) (data c)))
                     (store this) in
        ([], Ok l, {| cache := cache this; store := h |})
      else refresh
  | None => refresh
  end.
End GetServerStatus.

(** ** Observations used in the statements *)

(** The entry for an address is younger than the timeout. *)
Definition is_fresh (this : ServerStatusManager) (serverAddress : jsstring) (now : Z) : bool :=
  match cache this !! serverAddress with
  | Some c => bool_decide (now - timestamp c < cacheTimeout)
  | None => false
  end.

(** [status.k] of a status in the store. *)
Definition status_prop (this : ServerStatusManager) (l : loc) (k : string) : hval :=
  default HUndef (lookup_prop k (own_props (store this) l)).

(** [v.k] where a read that would throw gives undefined. *)
Definition nav (v : value) (k : string) : value :=
  match get v k with Ok x => x | Throw _ => VUndef end.

Definition nav0 (v : value) : value :=
  match get0 v with Ok x => x | Throw _ => VUndef end.

(** [status.k] and [status.k1.k2] of a status as a function builds it. *)
Definition field (status : list (string * value)) (k : string) : value :=
  default VUndef (lookup_prop k status).
Definition field2 (status : list (string * value)) (k1 k2 : string) : value :=
  nav (field status k1) k2.

(** A computation returns, as opposed to throwing. *)
Definition returns {A} (e : result A) : Prop := ∃ a, e = Ok a.

(** The primary response passes the check of [fetchServerStatus]. *)
Definition primary_usable (r : response) : bool :=
  match Merged.isNewApiValid (Merged.json_or_null r) with
  | Ok v => truthy v
  | Throw _ => false
  end.

(** encodeURIComponent takes the address: it has no lone surrogate. *)
Definition encodable (address : jsstring) : bool :=
  match encodeURIComponent address with Ok _ => true | Throw _ => false end.

(** The primary request of a refresh: none for an address that is not
    encodable. *)
Definition primary_requests (address : jsstring) : list request :=
  if encodable address then [GetPrimary address] else [].

(** The refresh of the second file uses the primary response: the request
    was made and its answer passes the check. *)
Definition primary_used (net : request → response) (address : jsstring) : bool :=
  encodable address && primary_usable (net (GetPrimary address)).

(** The lines with [sep] between them. *)
Fixpoint intercalate (sep : jsstring) (lines : list jsstring) : jsstring :=
  match lines with
  | [] => []
  | s :: r => match r with [] => s | _ => s ++ sep ++ intercalate sep r end
  end.

(** Span tags of a markup string, read left to right: the number of spans
    left open, or [None] when a closing tag has nothing to close. *)
Fixpoint open_spans (s : jsstring) (depth : nat) : option nat :=
  match s with
  | [] => Some depth
  | _ :: tl =>
      if Script.startsWith s (lit "</span>") then
        match depth with O => None | S d => open_spans tl d end
      else if Script.startsWith s (lit "<span") then open_spans tl (S depth)
      else open_spans tl depth
  end.
Definition balanced (s : jsstring) : Prop := open_spans s 0 = Some O.

(** What the first replacement makes of a line without '<': characters of
    the line and the spans written for the markers. *)
Inductive span_body : jsstring → Prop :=
| span_body_nil : span_body []
| span_body_char c s : c ≠ 60%N → span_body s → span_body (c :: s)
| span_body_marker code s :
    Script.is_color_code code = true → span_body s →
    span_body (Script.color_span code ++ s).

(** What [alloc] adds to the store reads back as the tree it was given. *)
Definition alloc_ok (v : value) : Prop :=
  ∀ h, ∃ ext n, (alloc v h).2 = h ++ ext ∧ read n (h ++ ext) (alloc v h).1 = Some v.

(** The object at [l] stands for the status [status]. *)
Definition status_at (h : list cell) (l : loc) (status : list (string * value)) : Prop :=
  ∃ n, read n h (HRef l) = Some (VObj status).

(** Every cache entry points to a status that satisfies [P]. *)
Definition cache_holds (P : list (string * value) → Prop) (this : ServerStatusManager) : Prop :=
  ∀ a c, cache this !! a = Some c → ∃ status, status_at (store this) (data c) status ∧ P status.

(** The status that a call hands out for the data [status] of an entry. *)
Definition handed_out (status : list (string * value)) (fromCache error : bool)
  : list (string * value) :=
  let copy := set_prop "fromCache" (VBool fromCache) status in
  if error then set_prop "error" (VBool true) copy else copy.

(** The canonical schema: the properties of a status, of its players,
    motd and debug records. *)
Definition status_fields : list string :=
  ["online"; "ip"; "port"; "hostname"; "icon"; "version"; "protocol"; "protocolName";
   "players"; "motd"; "debug"; "software"; "gamemode"; "map"; "plugins"].

Definition defined (v : value) : bool :=
  match v with VUndef => false | _ => true end.

(** The object has the property, with a value other than undefined. *)
Definition has_defined (props : list (string * value)) (k : string) : bool :=
  match lookup_prop k props with Some v => defined v | None => false end.

(** The object has the property. *)
Definition has_own (props : list (string * value)) (k : string) : bool :=
  match lookup_prop k props with Some _ => true | None => false end.

Definition canonical (status : list (string * value)) : bool :=
  forallb (has_defined status) status_fields
  && match lookup_prop "players" status with
     | Some (VObj players) =>
         has_own players "online" && has_own players "max" && has_defined players "list"
     | _ => false
     end
  && match lookup_prop "motd" status with
     | Some (VObj motd) => forallb (has_defined motd) ["raw"; "clean"; "html"]
     | _ => false
     end
  && match lookup_prop "debug" status with
     | Some (VObj debug) => forallb (has_defined debug) ["ping"; "query"; "cacheHit"]
     | _ => false
     end.

(** A status as [processServerData] builds it: canonical, without the two
    flags that [getServerStatus] adds. *)
Definition unflagged (status : list (string * value)) : Prop :=
  canonical status = true
  ∧ lookup_prop "fromCache" status = None ∧ lookup_prop "error" status = None.

(** The managers that the resolver of the second file can be in: a new
    one, and the ones that calls of getServerStatus lead to. *)
Inductive reachable {rt : Runtime} : ServerStatusManager → Prop :=
| reachable_new : reachable constructor
| reachable_call net a now this :
    reachable this →
    reachable (getServerStatus (Merged.fetchServerStatus net) a now this).2.

(** The status that the cache entry of an address stands for. *)
Definition cached_status (this : ServerStatusManager) (a : jsstring) : value :=
  default VUndef
    (c ← cache this !! a; read (length (store this)) (store this) (HRef (data c))).

(** A runtime that refuses every coercion: enough to run the code on data
    of the documented types, which reaches none. *)
Definition no_coercion : Runtime :=
  {| ToString_other := λ _, Throw TypeError; ToNumber_other := λ _, Throw TypeError |}.

(** ** Scenarios *)

(** One of the two configured servers. *)
Definition play1 : jsstring := lit "play.simpfun.cn:30786".

(** Upstreams: [net_of p l] answers the primary request with [p] and the
    legacy request with [l]. *)
Definition net_of (primary legacy : response) (r : request) : response :=
  match r with
  | GetPrimary _ => primary
  | GetLegacy _ => legacy
  | Probe _ => NetworkError
  end.

Definition json (v : value) : response := Http 200 (Some v).

(** {code:200, online:true} *)
Definition primary_online : value := VObj [("code", VNum 200); ("online", VBool true)].
(** {players:{list:["Alice","Bob"]}} *)
Definition legacy_alice_bob : value :=
  VObj [("players", VObj [("list", VArr [VStr (lit "Alice"); VStr (lit "Bob")])])].
(** {online:true, players:{online:3,max:20}} *)
Definition legacy_3_of_20 : value :=
  VObj [("online", VBool true); ("players", VObj [("online", VNum 3); ("max", VNum 20)])].

(** {code:200, online:true, players:0, max_players:0}: an empty server as
    the primary API reports it. *)
Definition primary_empty : value :=
  VObj [("code", VNum 200); ("online", VBool true); ("players", VNum 0); ("max_players", VNum 0)].
(** {online:true, players:{online:5,max:50}} *)
Definition legacy_5_of_50 : value :=
  VObj [("online", VBool true); ("players", VObj [("online", VNum 5); ("max", VNum 50)])].
(** {debug:{ping:<ping>}} *)
Definition legacy_ping (ping : value) : value := VObj [("debug", VObj [("ping", ping)])].

(** "§aHello§r World" *)
Definition hello_reset_world : jsstring :=
  [167%N] ++ lit "aHello" ++ [167%N] ++ lit "r World".

(** {online:true, players:{online:2,max:20,list:["Alice","Bob"]}} *)
Definition legacy_full : value :=
  VObj [("online", VBool true);
        ("players", VObj [("online", VNum 2); ("max", VNum 20);
                          ("list", VArr [VStr (lit "Alice"); VStr (lit "Bob")])])].


Definition fetch_up : jsstring → list request * result (list (string * value)) :=
  @Merged.fetchServerStatus no_coercion (net_of (json primary_online) (json legacy_full)).
Definition fetch_down : jsstring → list request * result (list (string * value)) :=
  @Merged.fetchServerStatus no_coercion (net_of NetworkError NetworkError).

(** The manager after one successful refresh of [play1] at time 0. *)
Definition warm : ServerStatusManager := (getServerStatus fetch_up play1 0 constructor).2.

Definition populated (status : list (string * value)) : Prop :=
  unflagged status
  ∧ defined (field2 status "players" "online") = true
  ∧ defined (field2 status "players" "max") = true.

Inductive script_reachable : ServerStatusManager → Prop :=
| script_reachable_new : script_reachable constructor
| script_reachable_call net measureRealPing a now this :
    script_reachable this →
    script_reachable
      (getServerStatus (Script.fetchServerStatus net measureRealPing) a now this).2.

(** line => `<span style="color: #ffffff">${line}</span>` on a string *)
Definition white_line (line : jsstring) : jsstring :=
  lit "<span style=" ++ quote ++ lit "color: #ffffff" ++ quote ++ lit ">"
  ++ line ++ lit "</span>".

(** {online:true, protocol_name:p, plugins:{names:ns}} *)
Definition legacy_protocol_plugins (p ns : value) : value :=
  VObj [("online", VBool true); ("protocol_name", p); ("plugins", VObj [("names", ns)])].

(** {motd:{clean:["Welcome","Have fun"]}} *)
Definition legacy_two_lines : value :=
  VObj [("motd", VObj [("clean", VArr [VStr (lit "Welcome"); VStr (lit "Have fun")])])].

(** {code:200, online:true, motd_html:"<b>Hi</b>"} *)
Definition primary_motd : value :=
  VObj [("code", VNum 200); ("online", VBool true); ("motd_html", VStr (lit "<b>Hi</b>"))].

Definition probe_42 : jsstring → result (option Z) := λ _, Ok (Some 42).

(** ** The page *)

(** Literals of the source with characters outside ASCII are written in
    UTF-8; [utf16] gives their code units.  A sequence that is not UTF-8
    ends the text. *)
Fixpoint utf16 (bytes : list N) : jsstring :=
  match bytes with
  | [] => []
  | b0 :: r0 =>
      if (b0 <? 128)%N then b0 :: utf16 r0
      else
        match r0 with
        | [] => []
        | b1 :: r1 =>
            if (b0 <? 224)%N then ((b0 mod 32) * 64 + b1 mod 64)%N :: utf16 r1
            else
              match r1 with
              | [] => []
              | b2 :: r2 =>
                  if (b0 <? 240)%N
                  then ((b0 mod 16) * 4096 + (b1 mod 64) * 64 + b2 mod 64)%N :: utf16 r2
                  else
                    match r2 with
                    | [] => []
                    | b3 :: r3 =>
                        let cp := ((b0 mod 8) * 262144 + (b1 mod 64) * 4096
                                   + (b2 mod 64) * 64 + b3 mod 64 - 65536)%N in
                        (55296 + cp / 1024)%N :: (56320 + cp mod 1024)%N :: utf16 r3
                    end
              end
        end
  end.

Definition lit8 (s : string) : jsstring := utf16 (lit s).

(** Markup literals: the text with ` standing for the double quote (a
    template literal of the source cannot hold a ` itself). *)
Definition markup (s : string) : jsstring :=
  (λ c, if (c =? 96)%N then 34%N else c) <$> lit8 s.

(** The lines of a multi-line template literal: each row is a line break,
    the indentation and the text of the line. *)
Definition row (indent : nat) (s : string) : jsstring :=
  10%N :: replicate indent 32%N ++ markup s.
Definition rows (l : list (nat * string)) : jsstring :=
  mjoin ((λ r, row r.1 r.2) <$> l).

(** this.servers of the constructor; Object.values lists them in this
    order. *)
Definition servers : list (string * value) :=
  [("1", VObj [("name", VStr (lit8 "一服 - 生电插件服"));
               ("address", VStr (lit "play.simpfun.cn:30786"));
               ("description", VStr (lit8 "插件服，鼓励生电"));
               ("type", VStr (lit "plugin"))]);
   ("2", VObj [("name", VStr (lit8 "二服 - 整合包服"));
               ("address", VStr (lit "play.simpfun.cn:17795"));
               ("description", VStr (lit8 "整合包服，需下载客户端"));
               ("type", VStr (lit "modpack"))])].

Section Avatar.
Context {rt : Runtime}.

(** getPlayerAvatarUrl: both URLs are built, the first is returned. *)
Definition getPlayerAvatarUrl (username : value) : result jsstring :=
  cravatarUrl ← (name ← ToString username;
                 Ok (lit "https://cravatar.eu/helmavatar/" ++ name ++ lit "/64.png"));
  minotarUrl ← (name ← ToString username;
                Ok (lit "https://minotar.net/avatar/" ++ name ++ lit "/64.png"));
  Ok cravatarUrl.
End Avatar.

(** *** generateServerCardHTML *)
Module Card.
Section Card.
Context {rt : Runtime}.
(** this.statusManager.renderMOTD: the one of either file. *)
Variable renderMOTD : value → result jsstring.
Local Open Scope js_scope.
Local Open Scope nat_scope.

(** const isOnline = status.online && !status.error *)
Definition isOnline (status : value) : result value :=
  get status "online" <&&> (error ← get status "error"; Ok (VBool (negb (truthy error)))).

(** isOnline ? `${status.players.online}/${status.players.max}` : '--/--' *)
Definition playerCount (isOnline status : value) : result jsstring :=
  if truthy isOnline then
    online ← get status "players".:"online"; online ← ToString online;
    max ← get status "players".:"max"; max ← ToString max;
    Ok (online ++ lit "/" ++ max)
  else Ok (lit "--/--").

(** isOnline ? (status.debug.ping ? `${status.debug.ping}ms` : '< 100ms') : '--' *)
Definition latency (isOnline status : value) : result jsstring :=
  if truthy isOnline then
    ping ← get status "debug".:"ping";
    if truthy ping then
      ping ← get status "debug".:"ping"; ping ← ToString ping; Ok (ping ++ lit "ms")
    else Ok (lit "< 100ms")
  else Ok (lit "--").

(** isOnline ? status.version : '--' *)
Definition version (isOnline status : value) : result value :=
  if truthy isOnline then get status "version" else Ok (VStr (lit "--")).

(** let motdHTML = '';
    if (isOnline && status.motd.html) motdHTML = renderMOTD(status.motd.html) *)
Definition motdHTML (isOnline status : value) : result jsstring :=
  test ← Ok isOnline <&&> get status "motd".:"html";
  if truthy test then html ← get status "motd".:"html"; renderMOTD html else Ok [].

(** let cacheIndicator = ''; if (status.fromCache) cacheIndicator = '<span ...' *)
Definition cacheIndicator (status : value) : result jsstring :=
  fromCache ← get status "fromCache";
  Ok (if truthy fromCache
      then markup "<span class=`cache-indicator` style=`font-size: 0.7rem; color: var(--neutral-500); margin-left: 0.5rem;`>(缓存)</span>"
      else []).

(** ${status.icon ? `<img ...>` : '<div ...>'} *)
Definition icon (status : value) : result jsstring :=
  test ← get status "icon";
  if truthy test then
    src ← get status "icon"; src ← ToString src;
    Ok (markup "<img class=`server-icon` src=`" ++ src ++ markup "` alt=`服务器图标`>")
  else
    Ok (markup "<div class=`server-icon` style=`background: var(--neutral-200); display: flex; align-items: center; justify-content: center;`><i class=`fas fa-server` style=`color: var(--neutral-500);`></i></div>").

(** ${isOnline ? '在线' : status.error ? '检测失败' : '离线'} *)
Definition statusText (isOnline status : value) : result jsstring :=
  if truthy isOnline then Ok (lit8 "在线")
  else error ← get status "error";
       Ok (if truthy error then lit8 "检测失败" else lit8 "离线").

(** ${server.description ? `<div ...>...${server.description}...` : ''} *)
Definition description (server : value) : result jsstring :=
  test ← get server "description";
  if truthy test then
    d ← get server "description"; d ← ToString d;
    Ok (rows [(12, "<div style=`margin-top: 1rem; font-size: 0.9rem; color: var(--neutral-600);`>");
              (16, "<i class=`fas fa-info-circle`></i> ")]
        ++ d ++ rows [(12, "</div>"); (12, "")])
  else Ok [].

Definition generateServerCardHTML (server status : value) : result jsstring :=
  isOnline ← isOnline status;
  playerCount ← playerCount isOnline status;
  latency ← latency isOnline status;
  version ← version isOnline status;
  motdHTML ← motdHTML isOnline status;
  cacheIndicator ← cacheIndicator status;
  icon ← icon status;
  name ← get server "name"; name ← ToString name;
  address ← get server "address"; address ← ToString address;
  address' ← get server "address"; address' ← ToString address';
  statusText ← statusText isOnline status;
  version ← ToString version;
  description ← description server;
  Ok (rows [(12, "<div class=`server-header`>"); (16, "")]
      ++ icon
      ++ rows [(16, "<div class=`server-info`>"); (20, "<h3>")]
      ++ name
      ++ markup "</h3>" ++ rows [(20, "<div class=`server-address`>"); (24, "<code>")]
      ++ address
      ++ markup "</code>" ++ rows [(24, "<button class=`copy-btn` data-copy=`")]
      ++ address'
      ++ markup "` title=`复制地址`>"
      ++ rows [(28, "<i class=`fas fa-copy`></i>"); (24, "</button>"); (20, "</div>");
               (16, "</div>"); (12, "</div>"); (12, "");
               (12, "<div class=`status-indicator ")]
      ++ (if truthy isOnline then lit "online" else lit "offline")
      ++ markup "`>" ++ rows [(16, "<div class=`status-dot`></div>"); (16, "<span>")]
      ++ statusText
      ++ markup "</span>" ++ rows [(16, "<span class=`player-count`>")]
      ++ playerCount
      ++ cacheIndicator
      ++ markup "</span>"
      ++ rows [(12, "</div>"); (12, ""); (12, "<div class=`server-stats`>");
               (16, "<div class=`stat`>"); (20, "<span class=`label`>延迟</span>");
               (20, "<span class=`value`>")]
      ++ latency
      ++ markup "</span>"
      ++ rows [(16, "</div>"); (16, "<div class=`stat`>");
               (20, "<span class=`label`>版本</span>"); (20, "<span class=`value`>")]
      ++ version
      ++ markup "</span>" ++ rows [(16, "</div>"); (12, "</div>"); (12, ""); (12, "")]
      ++ (if bool_decide (motdHTML = []) then []
          else rows [(12, "<div class=`motd-display`>"); (16, "")]
               ++ motdHTML ++ rows [(12, "</div>"); (12, "")])
      ++ rows [(12, ""); (12, "")]
      ++ description
      ++ rows [(8, "")]).
End Card.
End Card.


(** *** updatePlayersList *)

(** What the function writes: the display of #noPlayers and of
    #playersGrid, and the innerHTML of the cards in #playersGrid. *)
Record PlayersPanel := {
  noPlayers_display : jsstring;
  playersGrid_display : jsstring;
  playerCards : list jsstring
}.

(** The iteration of a string: by code point, a surrogate pair is one
    element. *)
Fixpoint code_points (s : jsstring) : list jsstring :=
  match s with
  | [] => []
  | c :: r =>
      match r with
      | d :: r' =>
          if ((55296 <=? c) && (c <=? 56319) && (56320 <=? d) && (d <=? 57343))%N
          then [c; d] :: code_points r'
          else [c] :: code_points r
      | [] => [[c]]
      end
  end.

(** [...v]: arrays and strings are iterable, the other values of a JSON
    tree are not. *)
Definition spread (v : value) : result (list value) :=
  match v with
  | VArr l => Ok l
  | VStr s => Ok (VStr <$> code_points s)
  | _ => Throw TypeError
  end.

(** cached.data, as the tree that the store holds. *)
Definition data_of (this : ServerStatusManager) (c : CacheEntry) : value :=
  default VUndef (read (length (store this)) (store this) (HRef (data c))).

Section Players.
Context {rt : Runtime}.
Local Open Scope js_scope.
Local Open Scope nat_scope.

(** The body of the first forEach: the cache is read as it is, whatever
    the age of the entry. *)
Definition collectPlayers (this : ServerStatusManager) (allPlayers : list value)
    (server : value) : result (list value) :=
  address ← get server "address";
  match address with
  | VStr a =>
      match cache this !! a with
      | Some cached =>
          let data := data_of this cached in
          test ← get data "online" <&&> get data "players".:"list";
          if truthy test then
            list ← get data "players".:"list";
            more ← spread list;
            Ok (allPlayers ++ more)
          else Ok allPlayers
      | None => Ok allPlayers
      end
  | _ => Ok allPlayers
  end.

(** Object.values(this.statusManager.servers).forEach(...) *)
Fixpoint collectAll (this : ServerStatusManager) (allPlayers : list value)
    (servers : list value) : result (list value) :=
  match servers with
  | [] => Ok allPlayers
  | server :: rest =>
      allPlayers ← collectPlayers this allPlayers server;
      collectAll this allPlayers rest
  end.

Definition allPlayers (this : ServerStatusManager) : result (list value) :=
  collectAll this [] (servers.*2).

(** playerCard.innerHTML *)
Definition playerCard (player : value) : result jsstring :=
  src ← getPlayerAvatarUrl player;
  alt ← ToString player;
  name ← ToString player;
  Ok (rows [(20, "<img class=`player-avatar` src=`")] ++ src
      ++ markup "` alt=`" ++ alt ++ markup "` loading=`lazy`>"
      ++ rows [(20, "<span class=`player-name`>")] ++ name ++ markup "</span>"
      ++ rows [(20, "<span class=`player-playtime`>在线</span>"); (16, "")]).

(** allPlayers.forEach(player => ...): a throw leaves the cards made so
    far. *)
Fixpoint appendCards (players : list value) (cards : list jsstring)
  : list jsstring * result unit :=
  match players with
  | [] => (cards, Ok ())
  | player :: rest =>
      match playerCard player with
      | Ok card => appendCards rest (cards ++ [card])
      | Throw e => (cards, Throw e)
      end
  end.

(** [panel] is [None] when #playersGrid or #noPlayers is missing.  The
    result: the panel afterwards and how the call ended. *)
Definition updatePlayersList (this : ServerStatusManager) (panel : option PlayersPanel)
  : option PlayersPanel * result unit :=
  match panel with
  | None => (None, Ok ())
  | Some before =>
      match allPlayers this with
      | Throw e => (Some before, Throw e)
      | Ok [] =>
          (Some {| noPlayers_display := lit "block"; playersGrid_display := lit "none";
                   playerCards := [] |}, Ok ())
      | Ok players =>
          let '(cards, outcome) := appendCards players [] in
          (Some {| noPlayers_display := lit "none"; playersGrid_display := lit "grid";
                   playerCards := cards |}, outcome)
      end
  end.
End Players.

(** A runtime for the examples: the string of an integer, a boolean, null
    and undefined; the examples need no other coercion. *)
Definition plain_runtime : Runtime :=
  {| ToString_other := λ v,
       match v with
       | VUndef => Ok (lit "undefined")
       | VNull => Ok (lit "null")
       | VBool b => Ok (lit (if b then "true" else "false"))
       | VNum q =>
           if (Qden (Qred q) =? 1)%positive then Ok (lit (pretty (Qnum (Qred q))))
           else Throw TypeError
       | _ => Throw TypeError
       end;
     ToNumber_other := λ _, Throw TypeError |}.

(** An address that is not one of the two configured ones. *)
Definition elsewhere : jsstring := lit "mc.example.org:25565".

(** What [alloc] adds reads back with no more fuel than cells added. *)
Definition alloc_bounded (v : value) : Prop :=
  ∀ h, ∃ ext n, (alloc v h).2 = h ++ ext ∧ (n ≤ length ext)%nat
    ∧ read n (h ++ ext) (alloc v h).1 = Some v.

(** The data of every cache entry can be read with the fuel that
    [data_of] takes. *)
Definition cache_readable (this : ServerStatusManager) : Prop :=
  ∀ a c, cache this !! a = Some c →
    is_Some (read (length (store this)) (store this) (HRef (data c))).

(** *** ThemeManager *)
Module Theme.

(** What the theme manager reads and writes outside itself. *)
Record Browser := {
  (* window.matchMedia('(prefers-color-scheme: dark)').matches;
     [None]: there is no window.matchMedia *)
  prefersDark : option bool;
  (* localStorage.getItem('theme'); [None] is null *)
  storedTheme : option jsstring;
  (* the data-theme attribute of the document element *)
  dataTheme : option jsstring;
  (* the className of '#themeToggle i'; [None]: there is no such element *)
  toggleIcon : option jsstring
}.

Definition dark : jsstring := lit "dark".
Definition light : jsstring := lit "light".

(** The manager is its currentTheme; a state is the manager and the
    browser. *)
Definition state : Type := jsstring * Browser.

Definition getSystemTheme (b : Browser) : jsstring :=
  match prefersDark b with
  | Some true => dark
  | _ => light
  end.

Definition applyTheme (s : state) : state :=
  let '(currentTheme, b) := s in
  (currentTheme,
   {| prefersDark := prefersDark b;
      storedTheme := Some currentTheme;
      dataTheme := Some currentTheme;
      toggleIcon :=
        (λ _, if bool_decide (currentTheme = dark) then lit "fas fa-sun" else lit "fas fa-moon")
          <$> toggleIcon b |}).

(** init() without the registration of the listeners, which [step]
    stands for. *)
Definition init (s : state) : state :=
  let '(currentTheme, b) := s in
  let currentTheme :=
    match storedTheme b with
    | Some savedTheme => if bool_decide (savedTheme = []) then currentTheme else savedTheme
    | None => currentTheme
    end in
  applyTheme (currentTheme, b).

(** new ThemeManager() *)
Definition constructor (b : Browser) : state := init (getSystemTheme b, b).

Definition toggleTheme (s : state) : state :=
  let '(currentTheme, b) := s in
  applyTheme (if bool_decide (currentTheme = dark) then light else dark, b).

(** The listener of the media query's change event; the query matches
    as the event says from then on. *)
Definition systemThemeChanged (matches : bool) (s : state) : state :=
  let '(currentTheme, b) := s in
  let b := {| prefersDark := Some matches; storedTheme := storedTheme b;
              dataTheme := dataTheme b; toggleIcon := toggleIcon b |} in
  match storedTheme b with
  | Some saved =>
      if bool_decide (saved = []) then applyTheme (if matches then dark else light, b)
      else (currentTheme, b)
  | None => applyTheme (if matches then dark else light, b)
  end.

(** The events that the listeners of setupEventListeners wait for: a
    click on #themeToggle, and a change of the system preference (only
    listened to when window.matchMedia exists). *)
Inductive event :=
| Click
| SystemChange (matches : bool).

Definition step (s : state) (e : event) : state :=
  match e with
  | Click => toggleTheme s
  | SystemChange matches =>
      match prefersDark s.2 with
      | Some _ => systemThemeChanged matches s
      | None => s
      end
  end.

Definition run (events : list event) (s : state) : state := foldl step s events.

End Theme.

(** The theme is stored and shown: what holds from the constructor on. *)
Definition theme_applied (s : Theme.state) : Prop :=
  Theme.storedTheme s.2 = Some s.1 ∧ Theme.dataTheme s.2 = Some s.1 ∧ s.1 ≠ [].

Definition is_click (e : Theme.event) : bool :=
  match e with Theme.Click => true | Theme.SystemChange _ => false end.
(** Two states that differ in the system preference only. *)
Definition same_but_preference (s s' : Theme.state) : Prop :=
  s.1 = s'.1 ∧ Theme.storedTheme s.2 = Theme.storedTheme s'.2
  ∧ Theme.dataTheme s.2 = Theme.dataTheme s'.2
  ∧ Theme.toggleIcon s.2 = Theme.toggleIcon s'.2.

(** *** CopyManager.copyText *)
Module Copy.

(** How the two ways of copying end: the promise of
    navigator.clipboard.writeText (a missing navigator.clipboard is a
    throw, which the same catch takes), and document.execCommand('copy'),
    which returns whether the command worked or throws. *)
Inductive writeText := Resolves | Rejects.
Inductive execCommand := Returns (worked : bool) | Throws.

(** The calls of this.toastManager.show(message, type), and the
    textareas in document.body that copyText has put there. *)
Record Page := {
  shown : list (jsstring * jsstring);
  textareas : list jsstring
}.

Definition show (message type : jsstring) (p : Page) : Page :=
  {| shown := shown p ++ [(message, type)]; textareas := textareas p |}.

Definition copyText (clipboard : writeText) (command : execCommand)
    (text : jsstring) (p : Page) : bool * Page :=
  match clipboard with
  | Resolves => (true, show (lit8 "已复制到剪贴板") (lit "success") p)
  | Rejects =>
      (* appendChild(textArea) *)
      let p := {| shown := shown p; textareas := textareas p ++ [text] |} in
      let '(copied, p) :=
        match command with
        | Returns _ => (true, show (lit8 "已复制到剪贴板") (lit "success") p)
        | Throws => (false, show (lit8 "复制失败") (lit "error") p)
        end in
      (* finally: removeChild(textArea), the last child appended *)
      (copied, {| shown := shown p; textareas := removelast (textareas p) |})
  end.
End Copy.

(** *** checkCustomServer *)

(** String.prototype.trim: white space and line terminators. *)
Definition is_space (c : N) : bool :=
  bool_decide (c ∈ [9; 10; 11; 12; 13; 32; 160; 5760; 8192; 8193; 8194; 8195; 8196; 8197;
                    8198; 8199; 8200; 8201; 8202; 8232; 8233; 8239; 8287; 12288; 65279]%N).

Fixpoint trimStart (s : jsstring) : jsstring :=
  match s with
  | c :: r => if is_space c then trimStart r else s
  | [] => []
  end.

Definition trim (s : jsstring) : jsstring :=
  reverse (trimStart (reverse (trimStart s))).

Module Custom.

(** The elements that checkCustomServer reads and writes. *)
Record Page := {
  customServer : jsstring;            (* customServerInput.value *)
  customResult : jsstring;            (* checkResult.innerHTML *)
  customResult_display : jsstring;    (* checkResult.style.display *)
  checkCustom : jsstring;             (* checkBtn.innerHTML *)
  checkCustom_disabled : bool         (* checkBtn.disabled *)
}.

Section Custom.
Context {rt : Runtime}.
Variable fetchServerStatus : jsstring → list request * result (list (string * value)).
Variable renderMOTD : value → result jsstring.
Local Open Scope js_scope.
Local Open Scope nat_scope.

Definition offline_result : jsstring :=
  rows [(20, "<div class=`custom-result error`>"); (24, "<div class=`result-header`>");
        (28, "<i class=`fas fa-times-circle`></i>"); (28, "<h4>服务器离线</h4>");
        (24, "</div>"); (24, "<div class=`result-details`>");
        (28, "<p>无法连接到服务器，请检查地址是否正确或服务器是否正在维护。</p>");
        (24, "</div>"); (20, "</div>"); (16, "")].

Definition failed_result : jsstring :=
  rows [(16, "<div class=`custom-result error`>"); (20, "<div class=`result-header`>");
        (24, "<i class=`fas fa-exclamation-triangle`></i>"); (24, "<h4>检测失败</h4>");
        (20, "</div>"); (20, "<div class=`result-details`>");
        (24, "<p>无法获取服务器状态，请检查网络连接或稍后重试。</p>");
        (20, "</div>"); (16, "</div>"); (12, "")].

(** let resultHTML = ''; if (status.online) { ... } else { ... } *)
Definition resultHTML (status : value) : result jsstring :=
  online ← get status "online";
  if truthy online then
    motdHTML ← (html ← get status "motd".:"html"; renderMOTD html);
    host ← get status "hostname" <||> get status "ip"; host ← ToString host;
    port ← get status "port"; port ← ToString port;
    version ← get status "version"; version ← ToString version;
    players ← get status "players".:"online"; players ← ToString players;
    max ← get status "players".:"max"; max ← ToString max;
    ping ← (ping ← get status "debug".:"ping";
            if truthy ping then
              ping ← get status "debug".:"ping"; ping ← ToString ping; Ok (ping ++ lit "ms")
            else Ok (lit "< 100ms"));
    fromCache ← get status "fromCache";
    Ok (rows [(20, "<div class=`custom-result success`>"); (24, "<div class=`result-header`>");
              (28, "<i class=`fas fa-check-circle`></i>"); (28, "<h4>服务器在线</h4>");
              (24, "</div>"); (24, "<div class=`result-details`>");
              (28, "<div class=`detail`>"); (32, "<span class=`label`>地址:</span>");
              (32, "<span class=`value`>")]
        ++ host ++ markup ":" ++ port
        ++ markup "</span>"
        ++ rows [(28, "</div>"); (28, "<div class=`detail`>");
                 (32, "<span class=`label`>版本:</span>"); (32, "<span class=`value`>")]
        ++ version
        ++ markup "</span>"
        ++ rows [(28, "</div>"); (28, "<div class=`detail`>");
                 (32, "<span class=`label`>玩家:</span>"); (32, "<span class=`value`>")]
        ++ players ++ markup "/" ++ max
        ++ markup "</span>"
        ++ rows [(28, "</div>"); (28, "<div class=`detail`>");
                 (32, "<span class=`label`>延迟:</span>"); (32, "<span class=`value`>")]
        ++ ping
        ++ markup "</span>" ++ rows [(28, "</div>"); (28, "")]
        ++ (if bool_decide (motdHTML = []) then []
            else rows [(28, "<div class=`detail motd`>");
                       (32, "<span class=`label`>MOTD:</span>");
                       (32, "<div class=`value motd-content`>")]
                 ++ motdHTML ++ markup "</div>" ++ rows [(28, "</div>"); (28, "")])
        ++ rows [(24, "</div>"); (24, "")]
        ++ (if truthy fromCache then markup "<div class=`cache-note`>数据来自缓存</div>" else [])
        ++ rows [(20, "</div>"); (16, "")])
  else Ok offline_result.

(** The status that a call of getServerStatus returned, as a tree. *)
Definition status_of (this : ServerStatusManager) (l : loc) : value :=
  default VUndef (read (length (store this)) (store this) (HRef l)).

(** [page] is [None] when one of the three elements is missing.  The
    result: the requests issued, the manager and the page afterwards, and
    the toasts shown (message and type). *)
Definition checkCustomServer (now : Z) (this : ServerStatusManager) (page : option Page)
  : list request * ServerStatusManager * option Page * list (jsstring * jsstring) :=
  match page with
  | None => ([], this, None, [])
  | Some p =>
      let serverAddress := trim (customServer p) in
      if bool_decide (serverAddress = []) then
        ([], this, Some p, [(lit8 "请输入服务器地址", lit "warning")])
      else
        let '(requests, outcome, this) :=
          getServerStatus fetchServerStatus serverAddress now this in
        let html :=
          match l ← outcome; resultHTML (status_of this l) with
          | Ok resultHTML => resultHTML
          | Throw error => failed_result
          end in
        (requests, this,
         Some {| customServer := customServer p;
                 customResult := html;
                 customResult_display := lit "block";
                 checkCustom := checkCustom p;
                 checkCustom_disabled := false |},
         [])
  end.
End Custom.
End Custom.

(** The page with another text in the input. *)
Definition with_input (p : Custom.Page) (input : jsstring) : Custom.Page :=
  {| Custom.customServer := input;
     Custom.customResult := Custom.customResult p;
     Custom.customResult_display := Custom.customResult_display p;
     Custom.checkCustom := Custom.checkCustom p;
     Custom.checkCustom_disabled := Custom.checkCustom_disabled p |}.

Definition blank (s : jsstring) : Prop := Forall (λ c, is_space c = true) s.

(** A page for the examples. *)
Definition custom_page (input : jsstring) : Custom.Page :=
  {| Custom.customServer := input; Custom.customResult := [];
     Custom.customResult_display := lit "none";
     Custom.checkCustom := lit "check"; Custom.checkCustom_disabled := false |}.

(** *** Doubles *)

(** performance.now() returns a Number, an IEEE 754 binary64 value, and
    the probe subtracts two of them: the arithmetic is that of the
    Standard Library's SpecFloat at precision 53. *)
Abbreviation double := spec_float.

(** endTime - startTime *)
Definition double_sub : double → double → double := SFsub 53 1024.

(** Math.round on a double: the integral value closest to it, the one
    towards +∞ in a tie; a zero result has the sign of the argument;
    integral values, infinities and NaN are returned as they are. *)
Definition Math_round_double (x : double) : double :=
  match x with
  | S754_finite s m e =>
      if 0 <=? e then x
      else binary_normalize 53 1024
             ((cond_Zopp s (Zpos m) * 2 + 2 ^ (- e)) / 2 ^ (1 - e)) 0 s
  | _ => x
  end.

(** 0 <= x *)
Definition not_negative (x : double) : bool := SFleb (S754_zero false) x.

(** A reading of the clock: a double that is finite and not negative. *)
Definition is_time (t : double) : bool :=
  match t with
  | S754_zero _ => true
  | S754_finite false m e => bounded 53 1024 m e
  | _ => false
  end.

(** The doubles of the literals 0.3, 2.8 and 3. *)
Definition double_0_3 : double := S754_finite false 5404319552844595 (-54).
Definition double_2_8 : double := S754_finite false 6305039478318694 (-51).
Definition double_3 : double := S754_finite false 6755399441055744 (-51).

(** *** measureRealPing and measureImagePing (src/script.js) *)
Module Probe.

(** serverAddress.split(':') *)
Fixpoint split_colon (s : jsstring) : list jsstring :=
  match s with
  | [] => [[]]
  | c :: r =>
      if (c =? 58)%N then [] :: split_colon r
      else match split_colon r with
           | part :: parts => (c :: part) :: parts
           | [] => [[c]]
           end
  end.

(** const [host, port] = serverAddress.split(':') *)
Definition host_port (serverAddress : jsstring) : value * value :=
  match split_colon serverAddress with
  | host :: port :: _ => (VStr host, VStr port)
  | [host] => (VStr host, VUndef)
  | [] => (VUndef, VUndef)
  end.

Section Urls.
Context {rt : Runtime}.

(** `ws://${host}:${port}` *)
Definition ws_url (serverAddress : jsstring) : result jsstring :=
  let '(host, port) := host_port serverAddress in
  host ← ToString host; port ← ToString port;
  Ok (lit "ws://" ++ host ++ lit ":" ++ port).

(** `http://${host}:${port}/favicon.ico?t=${Date.now()}` *)
Definition img_src (serverAddress : jsstring) (now : Z) : result jsstring :=
  let '(host, port) := host_port serverAddress in
  host ← ToString host; port ← ToString port; t ← ToString (VNum (inject_Z now));
  Ok (lit "http://" ++ host ++ lit ":" ++ port ++ lit "/favicon.ico?t=" ++ t).
End Urls.

(** One image ping: when it started, whether its 3000 ms timer is
    pending, whether onload and onerror are still set, and whether its
    promise is settled. *)
Record Image := {
  imgStart : double;
  imgTimer : bool;
  imgHandlers : bool;
  imgSettled : bool
}.

(** One measurement: when it started, whether the 5000 ms timer is
    pending, what the promise of measureRealPing is settled with ([None]:
    not yet; [Some None]: null), and the image pings started. *)
Record Measurement := {
  wsStart : double;
  wsTimer : bool;
  settled : option (option double);
  images : list Image
}.

(** What can happen after the WebSocket was constructed; an event with a
    time is one whose handler reads performance.now(). *)
Inductive event :=
| WsOpen (now : double)
| WsError (now : double)
| WsTimeout
| ImgLoad (i : nat) (now : double)
| ImgError (i : nat)
| ImgTimeout (i : nat).

(** Math.round(endTime - startTime) *)
Definition elapsed (startTime endTime : double) : double :=
  Math_round_double (double_sub endTime startTime).

(** new Promise((resolve) => ...) up to the end of the executor *)
Definition start (now : double) : Measurement :=
  {| wsStart := now; wsTimer := true; settled := None; images := [] |}.

(** resolve(v): the first call settles the promise. *)
Definition resolve (v : option double) (m : Measurement) : Measurement :=
  match settled m with
  | Some _ => m
  | None => {| wsStart := wsStart m; wsTimer := wsTimer m; settled := Some v;
               images := images m |}
  end.

Definition clearTimeout (m : Measurement) : Measurement :=
  {| wsStart := wsStart m; wsTimer := false; settled := settled m; images := images m |}.

Definition set_image (i : nat) (img : Image) (m : Measurement) : Measurement :=
  {| wsStart := wsStart m; wsTimer := wsTimer m; settled := settled m;
     images := <[i := img]> (images m) |}.

(** The promise of an image ping settles once; then(resolve) and
    catch(() => resolve(null)) pass the outcome on. *)
Definition settle_image (i : nat) (img : Image) (v : option double) (m : Measurement)
  : Measurement :=
  let m := set_image i {| imgStart := imgStart img; imgTimer := false;
                          imgHandlers := imgHandlers img; imgSettled := true |} m in
  if imgSettled img then m else resolve v m.

Definition step (m : Measurement) (e : event) : Measurement :=
  match e with
  | WsTimeout =>
      if wsTimer m then resolve None (clearTimeout m) else m
  | WsOpen now =>
      resolve (Some (elapsed (wsStart m) now)) (clearTimeout m)
  | WsError now =>
      let m := clearTimeout m in
      {| wsStart := wsStart m; wsTimer := wsTimer m; settled := settled m;
         images := images m ++ [{| imgStart := now; imgTimer := true;
                                   imgHandlers := true; imgSettled := false |}] |}
  | ImgLoad i now =>
      match images m !! i with
      | Some img =>
          if imgHandlers img then settle_image i img (Some (elapsed (imgStart img) now)) m
          else m
      | None => m
      end
  | ImgError i =>
      match images m !! i with
      | Some img => if imgHandlers img then settle_image i img None m else m
      | None => m
      end
  | ImgTimeout i =>
      match images m !! i with
      | Some img =>
          if imgTimer img then
            settle_image i {| imgStart := imgStart img; imgTimer := false;
                              imgHandlers := false; imgSettled := imgSettled img |} None m
          else m
      | None => m
      end
  end.

Definition run (events : list event) (m : Measurement) : Measurement := foldl step m events.

(** The time that the handler of an event reads, if it reads one. *)
Definition time_of (e : event) : option double :=
  match e with
  | WsOpen now | WsError now | ImgLoad _ now => Some now
  | _ => None
  end.

(** performance.now() returns times and never goes back. *)
Fixpoint monotone (now : double) (events : list event) : Prop :=
  match events with
  | [] => True
  | e :: rest =>
      match time_of e with
      | Some t => is_time t = true ∧ SFleb now t = true ∧ monotone t rest
      | None => monotone now rest
      end
  end.

End Probe.

(** No time of the measurement lies after [now], and a number that the
    promise is settled with is not negative. *)
Definition in_time (now : double) (m : Probe.Measurement) : Prop :=
  (is_time now = true ∧ is_time (Probe.wsStart m) = true
   ∧ SFleb (Probe.wsStart m) now = true)
  ∧ Forall (λ img, is_time (Probe.imgStart img) = true
                   ∧ SFleb (Probe.imgStart img) now = true) (Probe.images m)
  ∧ ∀ ms, Probe.settled m = Some (Some ms) → not_negative ms = true.

(** * Properties *)

(** ** Object literals *)

Lemma lookup_set_prop_eq {V} k (v : V) ps : lookup_prop k (set_prop k v ps) = Some v.
Proof.
  induction ps as [|[k' v'] ps IH]; simpl.
  - by rewrite String.eqb_refl.
  - destruct (String.eqb k k') eqn:E; simpl; rewrite ?String.eqb_refl, ?E; done.
Qed.

Lemma lookup_set_prop_ne {V} k k' (v : V) ps :
  k ≠ k' → lookup_prop k' (set_prop k v ps) = lookup_prop k' ps.
Proof.
  intros Hne. induction ps as [|[k0 v0] ps IH]; simpl.
  - destruct (String.eqb k' k) eqn:E; [apply String.eqb_eq in E; congruence | done].
  - destruct (String.eqb k k0) eqn:E; simpl.
    + apply String.eqb_eq in E. subst k0.
      destruct (String.eqb k' k) eqn:E'; [apply String.eqb_eq in E'; congruence | done].
    + by rewrite IH.
Qed.

Lemma own_props_app_l (h ext : list cell) (l : loc) :
  (l < length h)%nat → own_props (h ++ ext) l = own_props h l.
Proof. intros Hl. unfold own_props. by rewrite lookup_app_l. Qed.

Lemma own_props_new (h : list cell) ps : own_props (h ++ [CObj ps]) (length h) = ps.
Proof. unfold own_props. by rewrite list_lookup_middle. Qed.

(** ** The four paths of getServerStatus *)

Section Paths.
Variable fetchServerStatus : jsstring → list request * result (list (string * value)).
Variables (serverAddress : jsstring) (now : Z) (this : ServerStatusManager).

Lemma getServerStatus_hit c :
  cache this !! serverAddress = Some c →
  now - timestamp c < cacheTimeout →
  getServerStatus fetchServerStatus serverAddress now this =
    ([], Ok (length (store this)),
     {| cache := cache this;
        store := store this ++
          [CObj (set_prop "fromCache" (HBool true) (own_props (store this) (data c)))] |}).
Proof.
  intros Hc Hage. unfold getServerStatus. rewrite Hc.
  by rewrite bool_decide_eq_true_2.
Qed.

Lemma getServerStatus_refreshed requests freshData :
  is_fresh this serverAddress now = false →
  fetchServerStatus serverAddress = (requests, Ok freshData) →
  getServerStatus fetchServerStatus serverAddress now this =
    let '(d, h) := alloc_object freshData (store this) in
    (requests, Ok (length h),
     {| cache := <[serverAddress := {| data := d; timestamp := now |}]> (cache this);
        store := h ++ [CObj (set_prop "fromCache" (HBool false) (own_props h d))] |}).
Proof.
  intros Hf Hfetch. unfold getServerStatus, is_fresh in *. rewrite Hfetch.
  destruct (cache this !! serverAddress) as [c|]; [rewrite Hf|];
    by destruct (alloc_object freshData (store this)).
Qed.

Lemma getServerStatus_stale requests error c :
  cache this !! serverAddress = Some c →
  cacheTimeout ≤ now - timestamp c →
  fetchServerStatus serverAddress = (requests, Throw error) →
  getServerStatus fetchServerStatus serverAddress now this =
    (requests, Ok (length (store this)),
     {| cache := cache this;
        store := store this ++
          [CObj (set_prop "error" (HBool true)
                   (set_prop "fromCache" (HBool true) (own_props (store this) (data c))))] |}).
Proof.
  intros Hc Hage Hfetch. unfold getServerStatus. rewrite Hc, Hfetch.
  rewrite bool_decide_eq_false_2 by lia. done.
Qed.

Lemma getServerStatus_raised requests error :
  cache this !! serverAddress = None →
  fetchServerStatus serverAddress = (requests, Throw error) →
  getServerStatus fetchServerStatus serverAddress now this = (requests, Throw error, this).
Proof. intros Hc Hfetch. unfold getServerStatus. by rewrite Hc, Hfetch. Qed.
End Paths.

(** ** When getServerStatus raises *)

(** C1.  getServerStatus raises exactly when the refresh fails and the
    address has no cache entry, and then it raises the refresh's error.
    When the refresh fails and an entry exists, whatever its age, the call
    returns a new object that has every property of the entry's data, with
    fromCache = true and error = true, and the cache is left as it was. *)
Theorem getServerStatus_raises_only_without_cache
    (fetchServerStatus : jsstring → list request * result (list (string * value)))
    (serverAddress : jsstring) (now : Z) (this : ServerStatusManager) :
  let r := getServerStatus fetchServerStatus serverAddress now this in
  (∀ error, r.1.2 = Throw error ↔
     cache this !! serverAddress = None ∧ (fetchServerStatus serverAddress).2 = Throw error)
  ∧ (∀ c error,
       cache this !! serverAddress = Some c →
       is_fresh this serverAddress now = false →
       (fetchServerStatus serverAddress).2 = Throw error →
       ∃ l, r.1.2 = Ok l
         ∧ status_prop r.2 l "fromCache" = HBool true
         ∧ status_prop r.2 l "error" = HBool true
         ∧ (∀ k, k ≠ "fromCache" → k ≠ "error" →
              lookup_prop k (own_props (store r.2) l)
              = lookup_prop k (own_props (store this) (data c)))
         ∧ cache r.2 = cache this).
Proof.
  intros r. split.
  - intros error. subst r. unfold getServerStatus.
    destruct (fetchServerStatus serverAddress) as [requests outcome] eqn:Hfetch.
    destruct (cache this !! serverAddress) as [c|] eqn:Hc; simpl.
    + split; [|intros [? _]; done].
      case_bool_decide; [done|]. destruct outcome as [fs|e]; [|done].
      destruct (alloc_object fs (store this)); done.
    + destruct outcome as [fs|e]; simpl.
      * destruct (alloc_object fs (store this)); simpl. split; [done|]. intros [_ ?]; done.
      * split; [intros [= ->]; done | intros [_ [= ->]]; done].
  - intros c error Hc Hfresh Hfetch.
    destruct (fetchServerStatus serverAddress) as [requests outcome] eqn:Hf.
    simpl in Hfetch. subst outcome.
    unfold is_fresh in Hfresh. rewrite Hc in Hfresh. apply bool_decide_eq_false in Hfresh.
    subst r. rewrite (getServerStatus_stale _ _ _ _ requests error c) by (done || lia).
    exists (length (store this)). simpl. unfold status_prop. simpl.
    rewrite own_props_new.
    split; [done|]. split; [|split; [|split; [|done]]].
    + by rewrite lookup_set_prop_ne, lookup_set_prop_eq.
    + by rewrite lookup_set_prop_eq.
    + intros k Hk1 Hk2. by rewrite !lookup_set_prop_ne.
Qed.

Lemma getServerStatus_raises_only_without_cache_witness :
  ∃ l, (getServerStatus fetch_down play1 40000 warm).1.2 = Ok l
     ∧ status_prop (getServerStatus fetch_down play1 40000 warm).2 l "error" = HBool true.
Proof.
  destruct (getServerStatus_raises_only_without_cache fetch_down play1 40000 warm) as [_ H].
  destruct (H {| data := 8%nat; timestamp := 0 |} NoStatusAvailable)
    as (l & Hl & _ & He & _); [vm_compute; reflexivity ..|].
  exists l. split; [exact Hl | exact He].
Defined.

(** ** Evaluating expressions *)

Lemma bind_Ok_inv {A B} (e : result A) (f : A → result B) b :
  e ≫= f = Ok b → ∃ a, e = Ok a ∧ f a = Ok b.
Proof. destruct e; simpl; [eauto | done]. Qed.

Lemma try_catch_Ok_inv {A} (body : result A) handler a :
  (∀ e, handler e ≠ Ok a) → try_catch body handler = Ok a → body = Ok a.
Proof. intros Hh. destruct body as [x|e]; simpl; [done|]. intros H. by destruct (Hh e). Qed.

Lemma returns_bind {A B} (e : result A) (f : A → result B) :
  returns e → (∀ a, e = Ok a → returns (f a)) → returns (e ≫= f).
Proof. intros [a ->] H. simpl. by apply H. Qed.

Lemma returns_Ok {A} (a : A) : returns (Ok a).
Proof. by exists a. Qed.

Lemma truthy_not_nullish v : truthy v = true → nullish v = false.
Proof. by destruct v. Qed.

Lemma get_nav v k : nullish v = false → get v k = Ok (nav v k).
Proof. unfold nav. destruct v; simpl; try done; repeat case_match; done. Qed.

Lemma get_truthy v k : truthy v = true → get v k = Ok (nav v k).
Proof. intros. by apply get_nav, truthy_not_nullish. Qed.

Lemma get0_nav v : nullish v = false → get0 v = Ok (nav0 v).
Proof. unfold nav0. by destruct v. Qed.

Lemma get0_truthy v : truthy v = true → get0 v = Ok (nav0 v).
Proof. intros. by apply get0_nav, truthy_not_nullish. Qed.

Lemma get_nullish v k : nullish v = true → get v k = Throw TypeError.
Proof. by destruct v. Qed.

Lemma nav_nullish v k : nullish v = true → nav v k = VUndef.
Proof. by destruct v. Qed.

(** A falsy value has no truthy property. *)
Lemma nav_falsy v k : truthy v = false → truthy (nav v k) = false.
Proof.
  unfold nav. destruct v; simpl; try done.
  intros Hs. apply negb_false_iff, bool_decide_eq_true in Hs. subst s.
  by destruct (String.eqb k "length").
Qed.

Lemma truthy_defined v : truthy v = true → defined v = true.
Proof. by destruct v. Qed.

(** [e || d] with a defined default is defined. *)
Lemma js_or_defined e d v :
  js_or e (Ok d) = Ok v → defined d = true → defined v = true.
Proof.
  unfold js_or. destruct e as [x|]; simpl; [|done].
  destruct (truthy x) eqn:Hx; intros [= <-] Hd; [by apply truthy_defined | done].
Qed.

(** One step of evaluation: a read on a value known not to be null or
    undefined, or a case split on a test. *)
Ltac js_step :=
  match goal with
  | H : truthy ?v = true |- context [get0 ?v] => rewrite (get0_truthy v H)
  | H : truthy ?v = true, H' : context [get0 ?v] |- _ => rewrite (get0_truthy v H) in H'
  | H : truthy ?v = true |- context [get ?v ?k] => rewrite (get_truthy v k H)
  | H : truthy ?v = true, H' : context [get ?v ?k] |- _ => rewrite (get_truthy v k H) in H'
  | H : nullish ?v = false |- context [get ?v ?k] => rewrite (get_nav v k H)
  | H : nullish ?v = false, H' : context [get ?v ?k] |- _ => rewrite (get_nav v k H) in H'
  | |- context [if truthy ?v then _ else _] => destruct (truthy v) eqn:?
  | H : context [if truthy ?v then _ else _] |- _ => destruct (truthy v) eqn:?
  | |- context [if nullish ?v then _ else _] => destruct (nullish v) eqn:?
  | H : context [if nullish ?v then _ else _] |- _ => destruct (nullish v) eqn:?
  | H : nullish ?v = true |- context [get ?v ?k] => rewrite (get_nullish v k H)
  | H : nullish ?v = true, H' : context [get ?v ?k] |- _ => rewrite (get_nullish v k H) in H'
  | |- context [get ?v ?k] => destruct (nullish v) eqn:?
  | H : context [get ?v ?k] |- _ => destruct (nullish v) eqn:?
  end.

Ltac js_crunch :=
  unfold js_or, js_and, js_cond, dot, idx0, optdot in *;
  repeat (simpl in *; simplify_eq; try congruence; try js_step).

(** Peel the binds of a computation that returned. *)
Ltac bind_inv H :=
  repeat (let a := fresh "a" in let E := fresh "E" in
          apply bind_Ok_inv in H as (a & E & H)).

(** Forget every equation of a peeled computation but [H]. *)
Ltac keep_only H :=
  repeat match goal with
         | H' : _ = Ok _ |- _ => tryif constr_eq H H' then fail else clear H'
         end.

Ltac returns_step keep :=
  apply returns_bind;
  [ unfold returns; js_crunch; eauto
| let a := fresh "a" in let E := fresh "E" in intros a E;
    match keep with true => idtac | false => clear E end ].

(** ** The first request of the second file *)

Lemma tryNewApi_encodable net a :
  encodable a = true →
  Merged.tryNewApi net a = ([GetPrimary a], Merged.json_or_null (net (GetPrimary a))).
Proof. unfold encodable, Merged.tryNewApi. by destruct (encodeURIComponent a). Qed.

Lemma tryNewApi_not_encodable net a :
  encodable a = false → Merged.tryNewApi net a = ([], VNull).
Proof. unfold encodable, Merged.tryNewApi. by destruct (encodeURIComponent a). Qed.

Lemma tryNewApi_requests net a : (Merged.tryNewApi net a).1 = primary_requests a.
Proof.
  unfold primary_requests. destruct (encodable a) eqn:E.
  - by rewrite tryNewApi_encodable.
  - by rewrite tryNewApi_not_encodable.
Qed.

(** The configured address is encodable. *)
Lemma encodable_play1 : encodable play1 = true.
Proof. reflexivity. Qed.

Lemma primary_requests_length a : (length (primary_requests a) ≤ 1)%nat.
Proof. unfold primary_requests. destruct (encodable a); simpl; lia. Qed.

Lemma fetchServerStatus_encodable {rt : Runtime} net a :
  encodable a = true →
  Merged.fetchServerStatus net a
  = let newApiData := Merged.json_or_null (net (GetPrimary a)) in
    match Merged.isNewApiValid newApiData with
    | Throw e => ([GetPrimary a], Throw e)
    | Ok valid =>
        if truthy valid then
          match get newApiData "online" with
          | Throw e => ([GetPrimary a], Throw e)
          | Ok online =>
              if truthy online then
                ([GetPrimary a; GetLegacy a],
                 Merged.processServerData newApiData
                   (Merged.json_or_null (net (GetLegacy a))))
              else ([GetPrimary a], Merged.processServerData newApiData VNull)
          end
        else
          ([GetPrimary a; GetLegacy a],
           try_catch
             (oldApiData ← fetch_json (net (GetLegacy a))
                                      (λ status, Throw (HttpStatusError status));
              fallbackData ← Merged.convertOldApiToNewApiFormat oldApiData;
              Merged.processServerData (VObj fallbackData) oldApiData)
             (λ error, Throw NoStatusAvailable))
    end.
Proof.
  intros Ha. unfold Merged.fetchServerStatus. by rewrite tryNewApi_encodable.
Qed.

(** ** The merge of the two upstreams *)

Lemma processServerData_returns new old :
  nullish new = false → returns (Merged.processServerData new old).
Proof.
  intros Hn. unfold Merged.processServerData.
  returns_step false. returns_step true. returns_step false. clear E.
  returns_step true. returns_step false. clear E.
  repeat returns_step false. apply returns_Ok.
Qed.

Lemma processServerData_online new old status :
  Merged.processServerData new old = Ok status →
  field status "online"
  = if truthy (nav new "online") then nav new "online" else VBool false.
Proof.
  intros H. unfold Merged.processServerData in H. bind_inv H.
  injection H as <-. unfold field. simpl.
  match goal with
  | E : js_or (dot (Ok new) "online") _ = Ok _ |- _ => keep_only E
  end.
  unfold nav. js_crunch.
Qed.

Lemma processServerData_players_list new old status :
  Merged.processServerData new old = Ok status →
  field2 status "players" "list"
  = if truthy (nav (nav old "players") "list")
    then nav (nav old "players") "list" else VArr [].
Proof.
  intros H. unfold Merged.processServerData in H. bind_inv H.
  injection H as <-. unfold field2, field, nav at 1. simpl.
  match goal with
  | E : js_and (js_and (Ok old) _) (dot (dot (Ok old) "players") "list") = Ok ?h,
    E' : (if truthy ?h then _ else _) = Ok _ |- _ =>
      revert E E'; clear; intros E E'
  end.
  js_crunch; try congruence.
  - pose proof (nav_falsy _ "list" Heqb0). congruence.
  - pose proof (nav_falsy _ "list" (nav_falsy _ "players" Heqb0)). congruence.
Qed.

Lemma processServerData_ping new old status :
  Merged.processServerData new old = Ok status →
  field2 status "debug" "ping" = VNull.
Proof.
  intros H. unfold Merged.processServerData in H. bind_inv H.
  injection H as <-. unfold field2, field, nav. simpl.
  match goal with
  | E : js_cond (dot (Ok new) "online") _ _ = Ok _ |- _ => revert E; clear; intros E
  end.
  js_crunch.
Qed.

(** C4.  The merged status takes its online flag from the primary response
    (false when the primary's value is falsy) and its player list from the
    legacy response when that has one (empty otherwise); with a primary
    {code:200, online:true} and a legacy list ["Alice","Bob"] the refresh
    gives online = true and players.list = ["Alice","Bob"] (for every
    address that encodeURIComponent accepts, so that the primary API is
    asked). *)
Theorem merge_online_from_primary_list_from_legacy {rt : Runtime} :
  (∀ new old, nullish new = false →
     ∃ status, Merged.processServerData new old = Ok status
       ∧ field status "online"
         = (if truthy (nav new "online") then nav new "online" else VBool false)
       ∧ (∀ b, nav new "online" = VBool b → field status "online" = VBool b)
       ∧ field2 status "players" "list"
         = (if truthy (nav (nav old "players") "list")
            then nav (nav old "players") "list" else VArr []))
  ∧ (∀ a, encodable a = true → ∃ status,
       Merged.fetchServerStatus (net_of (json primary_online) (json legacy_alice_bob)) a
       = ([GetPrimary a; GetLegacy a], Ok status)
       ∧ field status "online" = VBool true
       ∧ field2 status "players" "list" = VArr [VStr (lit "Alice"); VStr (lit "Bob")]).
Proof.
  split.
  - intros new old Hn. destruct (processServerData_returns new old Hn) as [status H].
    exists status. split; [done|].
    pose proof (processServerData_online _ _ _ H) as Ho.
    split; [done|]. split; [|by eapply processServerData_players_list].
    intros b Hb. rewrite Ho, Hb. by destruct b.
  - intros a Ha. rewrite (fetchServerStatus_encodable _ a Ha).
    eexists. split; [reflexivity|]. split; reflexivity.
Qed.

Lemma merge_online_from_primary_list_from_legacy_witness :
  ∃ status, Merged.processServerData primary_online legacy_alice_bob = Ok status
    ∧ field status "online" = VBool true.
Proof.
  destruct (@merge_online_from_primary_list_from_legacy no_coercion) as [H _].
  destruct (H primary_online legacy_alice_bob) as (status & Hs & _ & Hb & _); [reflexivity|].
  exists status. split; [exact Hs|]. apply Hb. reflexivity.
Defined.

(** ** Validity of the primary response and the fallback *)

Lemma isNewApiValid_returns newApiData : returns (Merged.isNewApiValid newApiData).
Proof.
  unfold Merged.isNewApiValid, Merged.is_200, Merged.is_defined, returns, js_and, dot.
  destruct newApiData; simpl; eauto.
  - destruct b; simpl; eauto.
  - destruct (negb (Qeq_bool q 0)) eqn:E; simpl; rewrite ?E; eauto.
  - destruct (negb (bool_decide (s = []))) eqn:E; simpl; rewrite ?E; eauto.
  - destruct (match default VUndef (lookup_prop "code" props) with
              | VNum q => Qeq_bool q 200 | _ => false end); eauto.
Qed.

Lemma isNewApiValid_object props :
  Merged.isNewApiValid (VObj props)
  = Ok (VBool (match lookup_prop "code" props with
               | Some (VNum code) =>
                   Qeq_bool code 200
                   && match lookup_prop "online" props with
                      | Some VUndef | None => false
                      | Some _ => true
                      end
               | _ => false
               end)).
Proof.
  unfold Merged.isNewApiValid, Merged.is_200, Merged.is_defined, js_and, dot. simpl.
  destruct (lookup_prop "code" props) as [[]|]; simpl; try done.
  destruct (Qeq_bool q 200); simpl; [|done].
  by destruct (lookup_prop "online" props) as [[]|].
Qed.

Lemma isNewApiValid_not_object newApiData v :
  (∀ props, newApiData ≠ VObj props) →
  Merged.isNewApiValid newApiData = Ok v → truthy v = false.
Proof.
  unfold Merged.isNewApiValid, Merged.is_200, Merged.is_defined, js_and, dot.
  intros Hno. destruct newApiData; simpl; try (intros; simplify_eq; done).
  - destruct b; simpl; intros; simplify_eq; done.
  - destruct (negb (Qeq_bool q 0)) eqn:E; simpl; rewrite ?E; intros; simplify_eq; simpl; done.
  - destruct (negb (bool_decide (s = []))) eqn:E; simpl; rewrite ?E; intros; simplify_eq; simpl; done.
  - by destruct (Hno props).
Qed.

Lemma primary_usable_iff r :
  primary_usable r = true ↔
  ∃ status props code online,
    r = Http status (Some (VObj props)) ∧ ok status = true
    ∧ lookup_prop "code" props = Some (VNum code) ∧ Qeq_bool code 200 = true
    ∧ lookup_prop "online" props = Some online ∧ online ≠ VUndef.
Proof.
  unfold primary_usable. split.
  - destruct r as [|status [j|]]; simpl; try done.
    destruct (ok status) eqn:Hok; [|done].
    destruct (Merged.isNewApiValid j) as [v|] eqn:E; [|done].
    intros Hv. destruct j as [| | | | | |props|];
      try (apply isNewApiValid_not_object in E; [congruence | done]).
    rewrite isNewApiValid_object in E. injection E as <-. simpl in Hv.
    destruct (lookup_prop "code" props) as [[| | |code| | | |]|] eqn:Hc; try done.
    apply andb_true_iff in Hv as [H200 Hon].
    destruct (lookup_prop "online" props) as [online|] eqn:Ho; [|done].
    exists status, props, code, online. repeat split; try done.
    intros ->. done.
  - intros (status & props & code & online & -> & Hok & Hc & H200 & Ho & Hdef).
    simpl. rewrite Hok, isNewApiValid_object, Hc, H200, Ho. by destruct online.
Qed.

Lemma convertOldApiToNewApiFormat_primary_shaped {rt : Runtime} oldApiData fallbackData :
  Merged.convertOldApiToNewApiFormat oldApiData = Ok fallbackData →
  fallbackData.*1
  = ["code"; "online"; "ip"; "port"; "hostname"; "players"; "max_players"; "version";
     "motd_clean"; "motd_html"; "favicon_url"]
  ∧ primary_usable (json (VObj fallbackData)) = true.
Proof.
  intros H. unfold Merged.convertOldApiToNewApiFormat in H.
  apply bind_Ok_inv in H as (has_motd & _ & H).
  apply bind_Ok_inv in H as ([motdClean motdHtml] & _ & H).
  apply bind_Ok_inv in H as (online & Eonline & H).
  bind_inv H. injection H as <-.
  split; [done|].
  apply js_or_defined in Eonline; [|done].
  apply primary_usable_iff. eexists 200, _, 200%Q, online.
  repeat split; try done. by intros ->.
Qed.

(** ** Player counts *)

Lemma processServerData_player_counts new old status :
  Merged.processServerData new old = Ok status →
  field2 status "players" "online"
  = (if truthy (nav new "players") then nav new "players"
     else if truthy (nav old "players") then nav (nav old "players") "online"
     else VNum 0)
  ∧ field2 status "players" "max"
    = (if truthy (nav new "max_players") then nav new "max_players"
       else if truthy (nav old "players") then nav (nav old "players") "max"
       else VNum 0).
Proof.
  intros H. unfold Merged.processServerData in H. bind_inv H.
  injection H as <-. unfold field2, field. simpl.
  split.
  - unfold nav at 1. simpl.
    match goal with
    | E : js_or (dot (Ok new) "players") _ = Ok _ |- _ => revert E; clear; intros E
    end.
    js_crunch; try congruence;
      try (by rewrite (nav_falsy old "players") in * by done).
  - unfold nav at 1. simpl.
    match goal with
    | E : js_or (dot (Ok new) "max_players") _ = Ok _ |- _ => revert E; clear; intros E
    end.
    js_crunch; try congruence;
      try (by rewrite (nav_falsy old "players") in * by done).
Qed.

(** C5.  At a primary response whose player counts are present and 0, the
    merge does not keep them: the [||] of [processServerData] treats 0 as
    missing and takes the legacy response's counts (for every address that
    encodeURIComponent accepts, so that the primary API is asked).  In
    general a count
    comes from the primary response when its value there is truthy, else
    from the legacy players record when there is one, else it is 0. *)
Theorem zero_player_counts_fall_through {rt : Runtime} :
  (∀ a, encodable a = true → ∃ status,
     Merged.fetchServerStatus (net_of (json primary_empty) (json legacy_5_of_50)) a
     = ([GetPrimary a; GetLegacy a], Ok status)
     ∧ nav primary_empty "players" = VNum 0
     ∧ nav primary_empty "max_players" = VNum 0
     ∧ field2 status "players" "online" = VNum 5
     ∧ field2 status "players" "max" = VNum 50)
  ∧ (∀ new old status,
       Merged.processServerData new old = Ok status →
       field2 status "players" "online"
       = (if truthy (nav new "players") then nav new "players"
          else if truthy (nav old "players") then nav (nav old "players") "online"
          else VNum 0)
       ∧ field2 status "players" "max"
         = (if truthy (nav new "max_players") then nav new "max_players"
            else if truthy (nav old "players") then nav (nav old "players") "max"
            else VNum 0)).
Proof.
  split.
  - intros a Ha. rewrite (fetchServerStatus_encodable _ a Ha).
    eexists. split; [reflexivity|]. by vm_compute.
  - apply processServerData_player_counts.
Qed.

(** ** Latency *)

Lemma Math_round_nearest q :
  (Math_round q - (1 # 2) <= q)%Q ∧ (q < Math_round q + (1 # 2))%Q.
Proof.
  unfold Math_round.
  pose proof (Qfloor_le (q + (1 # 2))) as Hle.
  pose proof (Qlt_floor (q + (1 # 2))) as Hlt.
  rewrite inject_Z_plus in Hlt.
  set (z := inject_Z (Qfloor (q + (1 # 2)))) in *. clearbody z.
  change (inject_Z 1) with 1%Q in Hlt.
  split; lra.
Qed.

Lemma script_processServerData_returns data :
  nullish data = false → returns (Script.processServerData data).
Proof.
  intros Hn. unfold Script.processServerData.
  repeat returns_step false. apply returns_Ok.
Qed.

Lemma script_processServerData_ping data status :
  Script.processServerData data = Ok status →
  field2 status "debug" "ping"
  = match nav (nav data "debug") "ping" with
    | VNum q => VNum (Math_round q)
    | VBool _ | VUndef => VNull
    | other => other
    end.
Proof.
  intros H. unfold Script.processServerData in H.
  apply bind_Ok_inv in H as (pingValue & E & H).
  bind_inv H. injection H as <-. unfold field2, field, nav at 1. simpl.
  revert E. clear. intros E.
  js_crunch.
  - by rewrite (nav_nullish (nav data "debug")).
  - by destruct (nav (nav data "debug") "ping") as [| |[]| | | | |].
Qed.

Lemma fetchServerStatus_ping {rt : Runtime} net a requests status :
  Merged.fetchServerStatus net a = (requests, Ok status) →
  field2 status "debug" "ping" = VNull.
Proof.
  unfold Merged.fetchServerStatus. cbv zeta.
  destruct (Merged.isNewApiValid _) as [valid|]; [|done].
  destruct (truthy valid).
  - destruct (get _ "online") as [online|]; [|done].
    destruct (truthy online); intros [= _ H]; by eapply processServerData_ping.
  - intros [= _ H]. apply try_catch_Ok_inv in H; [|done].
    apply bind_Ok_inv in H as (oldApiData & _ & H).
    apply bind_Ok_inv in H as (fallbackData & _ & H).
    by eapply processServerData_ping.
Qed.

(** C6, the counterexample: the second file drops a numeric legacy ping
    also when the legacy API is its only source: with the primary API
    unreachable and a legacy ping of 42.7, debug.ping is null, not 43. *)
Lemma legacy_ping_is_dropped_on_the_fallback :
  ∃ status,
    @Merged.fetchServerStatus no_coercion
      (net_of NetworkError (json (legacy_ping (VNum (427 # 10))))) play1
    = ([GetPrimary play1; GetLegacy play1], Ok status)
    ∧ field2 status "debug" "ping" = VNull
    ∧ field2 status "debug" "ping" ≠ VNum 43.
Proof. eexists. split; [reflexivity|]. split; [reflexivity | discriminate]. Qed.

(** C6, amended.  In the second file debug.ping is null whatever the two
    responses hold, in the merge and in every status that a refresh
    returns, the legacy-only fallback included.  In src/script.js a numeric
    data.debug.ping is rounded to the nearest integer (ties upwards), a
    boolean or missing one becomes null: 42.7 gives 43 and true gives
    null. *)
Theorem ping_normalisation :
  (∀ new old, nullish new = false →
     ∃ status, Merged.processServerData new old = Ok status
       ∧ field2 status "debug" "ping" = VNull)
  ∧ (∀ (rt : Runtime) net a requests status,
       Merged.fetchServerStatus net a = (requests, Ok status) →
       field2 status "debug" "ping" = VNull)
  ∧ (∀ data, nullish data = false →
     ∃ status, Script.processServerData data = Ok status
       ∧ field2 status "debug" "ping"
         = match nav (nav data "debug") "ping" with
           | VNum q => VNum (Math_round q)
           | VBool _ | VUndef => VNull
           | other => other
           end)
  ∧ (∀ q, ∃ n : Z, Math_round q = inject_Z n
       ∧ (inject_Z n - (1 # 2) <= q)%Q ∧ (q < inject_Z n + (1 # 2))%Q)
  ∧ (∃ status, Script.processServerData (legacy_ping (VNum (427 # 10))) = Ok status
       ∧ field2 status "debug" "ping" = VNum 43)
  ∧ (∃ status, Script.processServerData (legacy_ping (VBool true)) = Ok status
       ∧ field2 status "debug" "ping" = VNull).
Proof.
  split; [|split; [|split; [|split; [|split]]]].
  - intros new old Hn. destruct (processServerData_returns new old Hn) as [status H].
    exists status. split; [done|]. by eapply processServerData_ping.
  - intros rt net a requests status. apply fetchServerStatus_ping.
  - intros data Hn. destruct (script_processServerData_returns data Hn) as [status H].
    exists status. split; [done|]. by apply script_processServerData_ping.
  - intros q. exists (Qfloor (q + (1 # 2))). split; [done|]. apply Math_round_nearest.
  - eexists. split; reflexivity.
  - eexists. split; reflexivity.
Qed.

Lemma ping_normalisation_witness :
  ∃ status, Script.processServerData (legacy_ping (VNum (427 # 10))) = Ok status
    ∧ field2 status "debug" "ping" = VNum (Math_round (427 # 10)).
Proof.
  destruct ping_normalisation as (_ & _ & H & _).
  destruct (H (legacy_ping (VNum (427 # 10)))) as (status & Hs & Hp); [reflexivity|].
  exists status. split; [exact Hs | exact Hp].
Defined.

(** ** Rendering the MOTD *)

Lemma join_strings {rt : Runtime} sep (lines : list jsstring) :
  join sep (map VStr lines) = Ok (intercalate sep lines).
Proof.
  induction lines as [|s r IH]; [done|].
  simpl. destruct r as [|s' r]; [done|].
  simpl in *. by rewrite IH.
Qed.

Lemma mapM_render_strings (lines : list jsstring) :
  mapM Script.render_element (map VStr lines)
  = Ok (map VStr (map Script.render_line lines)).
Proof. induction lines as [|s r IH]; [done|]. simpl in *. by rewrite IH. Qed.

Lemma mapM_render_other (lines : list value) :
  Exists (λ v, ∀ s, v ≠ VStr s) lines →
  mapM Script.render_element lines = Throw TypeError.
Proof.
  induction 1 as [v r Hv | v r _ IH]; simpl.
  - destruct v; try done. by destruct (Hv s).
  - destruct v; try done. simpl in *. by rewrite IH.
Qed.

(** The second replacement of [renderMOTD] never finds a match: the class
    of the first one, [0-9a-fk-or], contains r. *)
Lemma replace_resets_cons_other c s :
  c ≠ Script.section_sign → Script.replace_resets (c :: s) = c :: Script.replace_resets s.
Proof.
  intros Hc. destruct s as [|d s]; [done|].
  simpl. by rewrite (proj2 (N.eqb_neq c Script.section_sign) Hc).
Qed.

Lemma replace_resets_cons_section s :
  head s ≠ Some 114%N →
  Script.replace_resets (Script.section_sign :: s)
  = Script.section_sign :: Script.replace_resets s.
Proof.
  intros Hs. destruct s as [|d s]; [done|].
  simpl in *. destruct (N.eqb_spec d 114); [congruence | done].
Qed.

Lemma replace_resets_prefix p s :
  Forall (λ c, c ≠ Script.section_sign) p →
  Script.replace_resets (p ++ s) = p ++ Script.replace_resets s.
Proof.
  induction 1 as [|c p Hc _ IH]; [done|].
  simpl app. rewrite replace_resets_cons_other by done. by rewrite IH.
Qed.

Lemma color_span_no_section code :
  Script.is_color_code code = true →
  Forall (λ c, c ≠ Script.section_sign) (Script.color_span code).
Proof.
  intros Hcode. unfold Script.color_span, quote.
  repeat (apply Forall_app; split); try (by repeat constructor).
  constructor; [|constructor]. intros ->. by vm_compute in Hcode.
Qed.

Lemma head_replace_colors code rest :
  head (Script.replace_colors (code :: rest)) = Some code
  ∨ head (Script.replace_colors (code :: rest)) = Some 60%N.
Proof.
  destruct rest as [|d rest]; [by left|].
  simpl. destruct (_ && _); [by right | by left].
Qed.

Lemma replace_resets_dead line :
  Script.replace_resets (Script.replace_colors line) = Script.replace_colors line.
Proof.
  remember (length line) as n eqn:Hn.
  revert line Hn. induction (lt_wf n) as [n _ IH]. intros line ->.
  destruct line as [|c [|code rest]]; [done..|].
  change (Script.replace_colors (c :: code :: rest))
    with (if (c =? Script.section_sign)%N && Script.is_color_code code
          then Script.color_span code ++ Script.replace_colors rest
          else c :: Script.replace_colors (code :: rest)).
  destruct ((c =? Script.section_sign)%N && Script.is_color_code code) eqn:E.
  - apply andb_true_iff in E as [_ Hcode].
    rewrite replace_resets_prefix by by apply color_span_no_section.
    f_equal. eapply IH; [|done]. simpl. lia.
  - destruct (N.eqb_spec c Script.section_sign) as [->|Hc].
    + simpl in E. rewrite replace_resets_cons_section.
      * f_equal. eapply IH; [|done]. simpl. lia.
      * destruct (head_replace_colors code rest) as [-> | ->]; [|done].
        intros [= ->]. by vm_compute in E.
    + rewrite replace_resets_cons_other by done.
      f_equal. eapply IH; [|done]. simpl. lia.
Qed.

(** Every rendered line starts with an opening span tag and ends with a
    closing one. *)
Lemma render_line_wrapped line :
  Script.startsWith (Script.render_line line) (lit "<span") = true
  ∧ Script.endsWith (Script.render_line line) (lit "</span>") = true.
Proof.
  unfold Script.render_line.
  set (p := Script.replace_resets (Script.replace_colors line)).
  set (q := if negb (Script.startsWith p (lit "<span")) then lit "<span>" ++ p else p).
  assert (Hq : Script.startsWith q (lit "<span") = true).
  { subst q. destruct (Script.startsWith p (lit "<span")) eqn:E; [done|].
    simpl. by apply bool_decide_eq_true. }
  destruct (Script.endsWith q (lit "</span>")) eqn:E; simpl; [done|]. split.
  - apply bool_decide_eq_true in Hq. apply bool_decide_eq_true.
    assert (length (lit "<span") ≤ length q)%nat.
    { rewrite <- Hq at 1. rewrite length_take. lia. }
    by rewrite take_app_le.
  - apply bool_decide_eq_true. rewrite length_app.
    replace (length q + length (lit "</span>") - length (lit "</span>"))%nat
      with (length q) by lia.
    by rewrite drop_app_length.
Qed.

(** ** Balanced markup *)

Lemma startsWith_app p s : Script.startsWith (p ++ s) p = true.
Proof. apply bool_decide_eq_true. by rewrite take_app_length. Qed.

Lemma startsWith_cons_ne c c' s p : c ≠ c' → Script.startsWith (c :: s) (c' :: p) = false.
Proof. intros Hc. apply bool_decide_eq_false. simpl. congruence. Qed.

Lemma endsWith_true s p : Script.endsWith s p = true → ∃ x, s = x ++ p.
Proof.
  intros H. apply bool_decide_eq_true in H.
  exists (take (length s - length p) s).
  transitivity (take (length s - length p) s ++ drop (length s - length p) s).
  - symmetry. apply take_drop.
  - by f_equal.
Qed.

Lemma open_spans_char c s d : c ≠ 60%N → open_spans (c :: s) d = open_spans s d.
Proof.
  intros Hc. cbn [open_spans].
  assert (Script.startsWith (c :: s) (lit "</span>") = false) as ->
    by by apply (startsWith_cons_ne c 60 s (lit "/span>")).
  assert (Script.startsWith (c :: s) (lit "<span") = false) as ->
    by by apply (startsWith_cons_ne c 60 s (lit "span")).
  done.
Qed.

Lemma open_spans_text t s d : Forall (λ c, c ≠ 60%N) t → open_spans (t ++ s) d = open_spans s d.
Proof.
  induction 1 as [|c t Hc _ IH]; [done|].
  simpl app. by rewrite open_spans_char.
Qed.

Lemma open_spans_close s d : open_spans (lit "</span>" ++ s) (S d) = open_spans s d.
Proof.
  change (lit "</span>" ++ s) with (60%N :: (lit "/span>" ++ s)).
  change (open_spans (60%N :: (lit "/span>" ++ s)) (S d))
    with (if Script.startsWith (lit "</span>" ++ s) (lit "</span>")
          then open_spans (lit "/span>" ++ s) d
          else if Script.startsWith (lit "</span>" ++ s) (lit "<span")
               then open_spans (lit "/span>" ++ s) (S (S d))
               else open_spans (lit "/span>" ++ s) (S d)).
  rewrite startsWith_app. apply open_spans_text. by repeat constructor.
Qed.

(** An opening tag: "<span", attributes without '<', and the rest. *)
Lemma open_spans_open attrs s d :
  Forall (λ c, c ≠ 60%N) attrs →
  open_spans (lit "<span" ++ attrs ++ s) d = open_spans s (S d).
Proof.
  intros Hattrs.
  change (lit "<span" ++ attrs ++ s) with (60%N :: (lit "span" ++ attrs ++ s)).
  change (open_spans (60%N :: (lit "span" ++ attrs ++ s)) d)
    with (if Script.startsWith (lit "<span" ++ attrs ++ s) (lit "</span>")
          then match d with O => None | S d' => open_spans (lit "span" ++ attrs ++ s) d' end
          else if Script.startsWith (lit "<span" ++ attrs ++ s) (lit "<span")
               then open_spans (lit "span" ++ attrs ++ s) (S d)
               else open_spans (lit "span" ++ attrs ++ s) d).
  assert (Script.startsWith (lit "<span" ++ attrs ++ s) (lit "</span>") = false) as ->.
  { apply bool_decide_eq_false. intros Heq.
    apply (f_equal (λ l, l !! 1%nat)) in Heq. by vm_compute in Heq. }
  rewrite startsWith_app.
  rewrite (open_spans_text (lit "span")) by by repeat constructor.
  by apply open_spans_text.
Qed.

Lemma color_span_attrs code :
  Script.is_color_code code = true →
  Forall (λ c, c ≠ 60%N)
    (lit " class=" ++ quote ++ lit "mc-color-" ++ [code] ++ quote ++ lit ">").
Proof.
  intros Hcode. repeat (apply Forall_app; split); try (by repeat constructor).
  constructor; [|constructor]. intros ->. by vm_compute in Hcode.
Qed.

Lemma color_span_tags code :
  Script.color_span code
  = lit "</span>" ++ lit "<span"
    ++ (lit " class=" ++ quote ++ lit "mc-color-" ++ [code] ++ quote ++ lit ">").
Proof. reflexivity. Qed.

(** Inside an open span the body leaves the depth as it is. *)
Lemma open_spans_body b s d : span_body b → open_spans (b ++ s) (S d) = open_spans s (S d).
Proof.
  induction 1 as [|c b Hc _ IH|code b Hcode _ IH]; [done| |].
  - simpl app. by rewrite open_spans_char.
  - assert ((Script.color_span code ++ b) ++ s
            = lit "</span>" ++ (lit "<span"
                ++ (lit " class=" ++ quote ++ lit "mc-color-" ++ [code] ++ quote ++ lit ">")
                ++ (b ++ s))) as ->
      by (rewrite color_span_tags; by rewrite <- !app_assoc).
    rewrite open_spans_close.
    rewrite open_spans_open by by apply color_span_attrs.
    apply IH.
Qed.

Lemma replace_colors_body line :
  Forall (λ c, c ≠ 60%N) line → span_body (Script.replace_colors line).
Proof.
  remember (length line) as n eqn:Hn.
  revert line Hn. induction (lt_wf n) as [n _ IH]. intros line -> Hline.
  destruct line as [|c [|code rest]].
  - constructor.
  - apply Forall_cons in Hline as [Hc _]. simpl. constructor; [done|constructor].
  - apply Forall_cons in Hline as [Hc Htl]. pose proof Htl as Htl'.
    apply Forall_cons in Htl' as [Hcode Hrest].
    change (Script.replace_colors (c :: code :: rest))
      with (if (c =? Script.section_sign)%N && Script.is_color_code code
            then Script.color_span code ++ Script.replace_colors rest
            else c :: Script.replace_colors (code :: rest)).
    destruct ((c =? Script.section_sign)%N && Script.is_color_code code) eqn:E.
    + apply andb_true_iff in E as [_ E]. constructor; [done|].
      eapply IH; [|done|done]. simpl. lia.
    + constructor; [done|]. eapply IH; [|done|done]. simpl. lia.
Qed.

Lemma span_body_not_opening b : span_body b → Script.startsWith b (lit "<span") = false.
Proof.
  destruct 1 as [|c b Hc _|code b Hcode _].
  - done.
  - by apply startsWith_cons_ne.
  - apply bool_decide_eq_false. intros Heq.
    apply (f_equal (λ l, l !! 1%nat)) in Heq. by vm_compute in Heq.
Qed.

Lemma span_body_no_closing_suffix b : span_body b → ∀ x, b ≠ x ++ lit "</span>".
Proof.
  induction 1 as [|c b Hc _ IH|code b Hcode _ IH]; intros x Hx.
  - by destruct x.
  - destruct x as [|c' x]; [vm_compute in Hx; congruence|].
    simpl in Hx. injection Hx as _ Hx. by apply (IH x).
  - unfold Script.color_span, quote in Hx. vm_compute lit in Hx.
    simpl in Hx.
    do 32 (destruct x as [|? x];
           [ simpl in Hx; first [congruence | simplify_eq; by vm_compute in Hcode]
           | simpl in Hx; injection Hx as ? Hx ]).
    by apply (IH x).
Qed.

Lemma span_body_not_closed b pre :
  span_body b → pre = [] ∨ pre = lit "<span>" →
  Script.endsWith (pre ++ b) (lit "</span>") = false.
Proof.
  intros Hb Hpre. destruct (Script.endsWith _ _) eqn:E; [|done].
  apply endsWith_true in E as [x Hx]. exfalso.
  destruct Hpre as [-> | ->].
  - by apply (span_body_no_closing_suffix b Hb x).
  - vm_compute lit in Hx. simpl in Hx.
    do 6 (destruct x as [|? x]; [simpl in Hx; congruence | simpl in Hx; injection Hx as ? Hx]).
    by apply (span_body_no_closing_suffix b Hb x).
Qed.

(** A line without '<' is rendered as one opening tag, the line with its
    markers replaced, and one closing tag. *)
Lemma render_line_text line :
  Forall (λ c, c ≠ 60%N) line →
  Script.render_line line = lit "<span>" ++ Script.replace_colors line ++ lit "</span>".
Proof.
  intros Hline. pose proof (replace_colors_body line Hline) as Hb.
  unfold Script.render_line. rewrite replace_resets_dead.
  rewrite span_body_not_opening by done. cbn [negb].
  rewrite (span_body_not_closed _ (lit "<span>")) by auto. cbn [negb].
  by rewrite <- app_assoc.
Qed.

Lemma open_spans_render_line line s d :
  Forall (λ c, c ≠ 60%N) line →
  open_spans (Script.render_line line ++ s) d = open_spans s d.
Proof.
  intros Hline. rewrite render_line_text by done.
  assert ((lit "<span>" ++ Script.replace_colors line ++ lit "</span>") ++ s
          = lit "<span" ++ lit ">" ++ (Script.replace_colors line ++ (lit "</span>" ++ s))) as ->
    by (change (lit "<span>") with (lit "<span" ++ lit ">"); by rewrite <- !app_assoc).
  rewrite (open_spans_open (lit ">")) by by repeat constructor.
  rewrite open_spans_body by by apply replace_colors_body.
  apply open_spans_close.
Qed.

Lemma open_spans_br s d : open_spans (br ++ s) d = open_spans s d.
Proof.
  change (br ++ s) with (60%N :: (lit "br>" ++ s)).
  change (open_spans (60%N :: (lit "br>" ++ s)) d)
    with (if Script.startsWith (br ++ s) (lit "</span>")
          then match d with O => None | S d' => open_spans (lit "br>" ++ s) d' end
          else if Script.startsWith (br ++ s) (lit "<span")
               then open_spans (lit "br>" ++ s) (S d)
               else open_spans (lit "br>" ++ s) d).
  assert (Script.startsWith (br ++ s) (lit "</span>") = false) as ->.
  { apply bool_decide_eq_false. intros Heq.
    apply (f_equal (λ l, l !! 1%nat)) in Heq. by vm_compute in Heq. }
  assert (Script.startsWith (br ++ s) (lit "<span") = false) as ->.
  { apply bool_decide_eq_false. intros Heq.
    apply (f_equal (λ l, l !! 1%nat)) in Heq. by vm_compute in Heq. }
  apply open_spans_text. by repeat constructor.
Qed.

Lemma open_spans_rendered (lines : list jsstring) d :
  Forall (Forall (λ c, c ≠ 60%N)) lines →
  open_spans (intercalate br (map Script.render_line lines)) d = Some d.
Proof.
  induction 1 as [|line lines Hline Hrest IH]; [done|].
  destruct lines as [|line' lines]; cbn [map intercalate].
  - rewrite <- (app_nil_r (Script.render_line line)).
    by rewrite open_spans_render_line.
  - rewrite open_spans_render_line by done. rewrite open_spans_br. apply IH.
Qed.

(** The markup that renderMOTD of src/script.js makes of lines without
    '<' is balanced. *)
Lemma renderMOTD_balanced {rt : Runtime} (lines : list jsstring) s :
  Forall (Forall (λ c, c ≠ 60%N)) lines →
  Script.renderMOTD (VArr (map VStr lines)) = Ok s → balanced s.
Proof.
  intros Hlines. unfold Script.renderMOTD. rewrite mapM_render_strings. simpl.
  rewrite join_strings. intros [= <-]. by apply open_spans_rendered.
Qed.

(** C7.  renderMOTD of src/script.js at ["§aHello§r World"]: the markup is
    balanced, but the reset marker opens a span of class mc-color-r, not
    the plain span that the second replacement would write; on every line
    that replacement changes nothing.  The rest holds: on lines without
    '<' every line becomes "<span>", the line with each marker replaced by
    a closing tag and an opening tag of the marker's class, and "</span>";
    the lines are joined with "<br>" and the markup is balanced. *)
Theorem reset_marker_opens_class_r_span {rt : Runtime} :
  Script.renderMOTD (VArr [VStr hello_reset_world])
  = Ok (lit "<span></span><span class=" ++ quote ++ lit "mc-color-a" ++ quote
        ++ lit ">Hello</span><span class=" ++ quote ++ lit "mc-color-r" ++ quote
        ++ lit "> World</span>")
  ∧ Script.renderMOTD (VArr [VStr hello_reset_world])
    ≠ Ok (lit "<span></span><span class=" ++ quote ++ lit "mc-color-a" ++ quote
          ++ lit ">Hello</span><span> World</span>")
  ∧ (∀ line, Script.replace_resets (Script.replace_colors line) = Script.replace_colors line)
  ∧ (∀ lines : list jsstring,
       Forall (Forall (λ c, c ≠ 60%N)) lines →
       Script.renderMOTD (VArr (map VStr lines))
       = Ok (intercalate br (map Script.render_line lines))
       ∧ balanced (intercalate br (map Script.render_line lines))
       ∧ Forall (λ line,
                   Script.render_line line
                   = lit "<span>" ++ Script.replace_colors line ++ lit "</span>") lines).
Proof.
  split; [by vm_compute|]. split; [by vm_compute|]. split; [apply replace_resets_dead|].
  intros lines Hlines. split; [|split].
  - unfold Script.renderMOTD. rewrite mapM_render_strings. simpl. by rewrite join_strings.
  - by apply open_spans_rendered.
  - eapply Forall_impl; [done|]. intros line. apply render_line_text.
Qed.

(** C10, the counterexample: an array that holds a number makes renderMOTD
    of src/script.js throw. *)
Lemma renderMOTD_throws_on_number_element :
  @Script.renderMOTD no_coercion (VArr [VNum 1]) = Throw TypeError.
Proof. reflexivity. Qed.

(** C10, amended.  On every input that is not an array, null and undefined
    among them, both versions of renderMOTD return the empty string; on an
    array of strings both return a string; src/script.js throws a TypeError
    on an array with an element that is not a string. *)
Theorem renderMOTD_defined_on_non_arrays_and_string_arrays {rt : Runtime} :
  (∀ v, (∀ l, v ≠ VArr l) → Script.renderMOTD v = Ok [] ∧ Merged.renderMOTD v = Ok [])
  ∧ (∀ lines : list jsstring,
       Script.renderMOTD (VArr (map VStr lines))
       = Ok (intercalate br (map Script.render_line lines))
       ∧ Merged.renderMOTD (VArr (map VStr lines)) = Ok (intercalate br lines))
  ∧ (∀ lines, Exists (λ v, ∀ s, v ≠ VStr s) lines →
       Script.renderMOTD (VArr lines) = Throw TypeError).
Proof.
  split; [|split].
  - intros v Hv. destruct v; try done. by destruct (Hv elems).
  - intros lines. unfold Script.renderMOTD, Merged.renderMOTD.
    rewrite mapM_render_strings. simpl. by rewrite !join_strings.
  - intros lines H. unfold Script.renderMOTD. by rewrite mapM_render_other.
Qed.

Lemma renderMOTD_defined_on_non_arrays_and_string_arrays_witness :
  @Script.renderMOTD no_coercion VNull = Ok [] ∧ @Merged.renderMOTD no_coercion VNull = Ok [].
Proof.
  destruct (@renderMOTD_defined_on_non_arrays_and_string_arrays no_coercion) as [H _].
  apply H. intros l. discriminate.
Defined.

(** ** The object store *)

Lemma value_ind_nested (P : value → Prop) :
  P VUndef → P VNull → (∀ b, P (VBool b)) → (∀ q, P (VNum q)) → (∀ s, P (VStr s)) →
  (∀ l, Forall P l → P (VArr l)) →
  (∀ ps, Forall (λ kv, P kv.2) ps → P (VObj ps)) →
  (∀ n, P (VBuiltin n)) →
  ∀ v, P v.
Proof.
  intros Hu Hn Hb Hq Hs Ha Ho Hf. fix IH 1.
  intros [| | b | q | s | l | ps | n];
    [exact Hu | exact Hn | apply Hb | apply Hq | apply Hs | | | apply Hf].
  - apply Ha. induction l as [|x l IHl]; constructor; [apply IH | exact IHl].
  - apply Ho. induction ps as [|[k x] ps IHps]; constructor; [apply IH | exact IHps].
Qed.

(** Reading survives more fuel and a larger store. *)
Lemma read_mono n n' (h ext : list cell) hv t :
  read n h hv = Some t → (n ≤ n')%nat → read n' (h ++ ext) hv = Some t.
Proof.
  revert n' hv t. induction n as [|n IH]; intros n' hv t Hr Hle.
  - destruct hv; simpl in *; try done; by destruct n'.
  - destruct hv; try (by destruct n').
    destruct n' as [|n']; [lia|]. simpl in *.
    destruct (h !! l) as [c|] eqn:Hl; [|done].
    rewrite (lookup_app_l_Some _ _ _ _ Hl).
    destruct c as [ps|es]; apply fmap_Some in Hr as (xs & Hxs & ->); apply fmap_Some;
      eexists; (split; [|done]); apply mapM_Some; apply mapM_Some in Hxs;
      (eapply Forall2_impl; [done|]).
    + intros [k x] y Hy. simpl in *. apply fmap_Some in Hy as (z & Hz & ->).
      apply fmap_Some. exists z. split; [|done]. apply IH; [done|lia].
    + intros x y Hy. apply IH; [done|lia].
Qed.

Lemma read_all_mono n n' (h ext : list cell) es l :
  mapM (read n h) es = Some l → (n ≤ n')%nat → mapM (read n' (h ++ ext)) es = Some l.
Proof.
  intros H Hle. apply mapM_Some. apply mapM_Some in H.
  eapply Forall2_impl; [done|]. intros x y Hy. eapply read_mono; [exact Hy | exact Hle].
Qed.

Lemma read_props_mono n n' (h ext : list cell) ps l :
  mapM (read_prop n h) ps = Some l → (n ≤ n')%nat →
  mapM (read_prop n' (h ++ ext)) ps = Some l.
Proof.
  intros H Hle. apply mapM_Some. apply mapM_Some in H.
  eapply Forall2_impl; [done|]. intros [k x] y Hy. unfold read_prop in *. simpl in *.
  apply fmap_Some in Hy as (z & Hz & ->). apply fmap_Some. exists z.
  split; [|done]. eapply read_mono; [exact Hz | exact Hle].
Qed.

Lemma read_ref_obj n (h : list cell) l ps :
  h !! l = Some (CObj ps) →
  read (S n) h (HRef l) = VObj <$> mapM (read_prop n h) ps.
Proof. intros H. simpl. by rewrite H. Qed.

Lemma alloc_all_ok l :
  Forall alloc_ok l →
  ∀ h, ∃ ext n, (alloc_all alloc l h).2 = h ++ ext
    ∧ mapM (read n (h ++ ext)) (alloc_all alloc l h).1 = Some l.
Proof.
  induction 1 as [|x r Hx _ IH]; intros h.
  - exists [], O. simpl. by rewrite app_nil_r.
  - simpl. destruct (Hx h) as (e1 & n1 & Hh1 & Hr1).
    destruct (alloc x h) as [a h1]. simpl in *. subst h1.
    destruct (IH (h ++ e1)) as (e2 & n2 & Hh2 & Hr2).
    destruct (alloc_all alloc r (h ++ e1)) as [b h2]. simpl in *. subst h2.
    exists (e1 ++ e2), (n1 `max` n2)%nat. rewrite app_assoc. split; [done|].
    rewrite (read_mono n1 (n1 `max` n2) _ e2 _ _ Hr1) by lia. simpl.
    eapply read_all_mono in Hr2; [|apply Nat.le_max_r].
    rewrite app_nil_r in Hr2. by rewrite Hr2.
Qed.

Lemma alloc_props_ok ps :
  Forall (λ kv, alloc_ok kv.2) ps →
  ∀ h, ∃ ext n, (alloc_props alloc ps h).2 = h ++ ext
    ∧ mapM (read_prop n (h ++ ext)) (alloc_props alloc ps h).1 = Some ps.
Proof.
  induction 1 as [|[k x] r Hx _ IH]; intros h.
  - exists [], O. simpl. by rewrite app_nil_r.
  - simpl in *. destruct (Hx h) as (e1 & n1 & Hh1 & Hr1).
    destruct (alloc x h) as [a h1]. simpl in *. subst h1.
    destruct (IH (h ++ e1)) as (e2 & n2 & Hh2 & Hr2).
    destruct (alloc_props alloc r (h ++ e1)) as [b h2]. simpl in *. subst h2.
    exists (e1 ++ e2), (n1 `max` n2)%nat. rewrite app_assoc. split; [done|].
    eapply read_props_mono in Hr2; [|apply Nat.le_max_r].
    rewrite app_nil_r in Hr2. unfold read_prop in *. simpl.
    rewrite (read_mono n1 (n1 `max` n2) _ e2 _ _ Hr1) by lia. simpl.
    by rewrite Hr2.
Qed.

Lemma alloc_spec v : alloc_ok v.
Proof.
  induction v as [| | b | q | s | l IH | ps IH | n] using value_ind_nested;
    try (intros h; exists [], O; simpl; by rewrite app_nil_r).
  - intros h. simpl. destruct (alloc_all_ok l IH h) as (e & n & Hh & Hr).
    destruct (alloc_all alloc l h) as [es h1]. simpl in *. subst h1.
    exists (e ++ [CArr es]), (S n). rewrite app_assoc. split; [done|].
    simpl. rewrite list_lookup_middle by done.
    eapply read_all_mono in Hr; [|done]. by rewrite Hr.
  - intros h. simpl. destruct (alloc_props_ok ps IH h) as (e & n & Hh & Hr).
    destruct (alloc_props alloc ps h) as [fs h1]. simpl in *. subst h1.
    exists (e ++ [CObj fs]), (S n). rewrite app_assoc. split; [done|].
    rewrite (read_ref_obj _ _ _ fs) by by rewrite list_lookup_middle.
    eapply read_props_mono in Hr; [|done]. by rewrite Hr.
Qed.

(** ** Statuses in the store *)

Lemma status_at_mono (h ext : list cell) l status :
  status_at h l status → status_at (h ++ ext) l status.
Proof. intros [n Hn]. exists n. by eapply read_mono. Qed.

Lemma status_at_inv (h : list cell) l status :
  status_at h l status →
  ∃ n ps, h !! l = Some (CObj ps) ∧ mapM (read_prop n h) ps = Some status.
Proof.
  intros [[|n] Hn]; [done|]. simpl in Hn.
  destruct (h !! l) as [[ps|es]|]; [| |done].
  - apply fmap_Some in Hn as (xs & Hxs & [= ->]). by exists n, ps.
  - by apply fmap_Some in Hn as (xs & Hxs & [=]).
Qed.

Lemma status_at_unique (h : list cell) l s1 s2 :
  status_at h l s1 → status_at h l s2 → s1 = s2.
Proof.
  intros [n1 H1] [n2 H2].
  apply (read_mono _ (n1 `max` n2) _ []) in H1; [|lia].
  apply (read_mono _ (n1 `max` n2) _ []) in H2; [|lia].
  congruence.
Qed.

Lemma read_bool n (h : list cell) b : read n h (HBool b) = Some (VBool b).
Proof. by destruct n. Qed.

Lemma read_props_set_prop n (h : list cell) ps status k hv v :
  mapM (read_prop n h) ps = Some status →
  read n h hv = Some v →
  mapM (read_prop n h) (set_prop k hv ps) = Some (set_prop k v status).
Proof.
  intros Hps Hv. unfold read_prop in *. revert status Hps.
  induction ps as [|[k' x] ps IH]; intros status Hps; simpl in *.
  - injection Hps as <-. rewrite Hv. reflexivity.
  - destruct (read n h x) as [y|] eqn:Hy; simpl in Hps; [|done].
    destruct (mapM _ ps) as [r|] eqn:Hr; simpl in Hps; [|done].
    injection Hps as <-. simpl.
    destruct (String.eqb k k'); simpl.
    + rewrite Hv. simpl. rewrite Hr. reflexivity.
    + rewrite Hy. simpl. rewrite (IH r) by done. reflexivity.
Qed.

(** The spread copy of a status, with its flag, is the status with the
    flag. *)
Lemma status_at_copy (h : list cell) d status k (b : bool) :
  status_at h d status →
  status_at (h ++ [CObj (set_prop k (HBool b) (own_props h d))]) (length h)
            (set_prop k (VBool b) status).
Proof.
  intros Hs. destruct (status_at_inv _ _ _ Hs) as (n & ps & Hd & Hps).
  exists (S n). rewrite (read_ref_obj _ _ _ (set_prop k (HBool b) (own_props h d)))
    by by rewrite list_lookup_middle.
  unfold own_props. rewrite Hd.
  eapply read_props_mono in Hps; [|done].
  rewrite (read_props_set_prop _ _ _ status _ _ (VBool b) Hps) by apply read_bool.
  reflexivity.
Qed.

Lemma status_at_copy2 (h : list cell) d status k1 (b1 : bool) k2 (b2 : bool) :
  status_at h d status →
  status_at (h ++ [CObj (set_prop k2 (HBool b2) (set_prop k1 (HBool b1) (own_props h d)))])
            (length h) (set_prop k2 (VBool b2) (set_prop k1 (VBool b1) status)).
Proof.
  intros Hs. destruct (status_at_inv _ _ _ Hs) as (n & ps & Hd & Hps).
  exists (S n). rewrite (read_ref_obj _ _ _ (set_prop k2 (HBool b2) (set_prop k1 (HBool b1) (own_props h d))))
    by by rewrite list_lookup_middle.
  unfold own_props. rewrite Hd.
  eapply read_props_mono in Hps; [|done].
  rewrite (read_props_set_prop _ _ _ (set_prop k1 (VBool b1) status) _ _ (VBool b2)
             (read_props_set_prop _ _ _ status _ _ (VBool b1) Hps (read_bool _ _ _)))
    by apply read_bool.
  reflexivity.
Qed.

Lemma alloc_object_spec props (h : list cell) :
  ∃ ext, (alloc_object props h).2 = h ++ ext
    ∧ status_at (h ++ ext) (alloc_object props h).1 props.
Proof.
  destruct (alloc_spec (VObj props) h) as (ext & n & Hh & Hr).
  unfold alloc_object. simpl in *.
  destruct (alloc_props alloc props h) as [fs h1]. simpl in *.
  exists ext. split; [done|]. by exists n.
Qed.

Lemma cache_holds_mono P c (h ext : list cell) :
  cache_holds P {| cache := c; store := h |} →
  cache_holds P {| cache := c; store := h ++ ext |}.
Proof.
  intros H a e Ha. destruct (H a e Ha) as (status & Hs & HP).
  exists status. split; [by apply status_at_mono | done].
Qed.

(** Every successful call hands out a new object, the last cell of the
    store; below it the cache entries stand for statuses as before. *)
Lemma getServerStatus_hands_out_copy
    (fetchServerStatus : jsstring → list request * result (list (string * value)))
    (P : list (string * value) → Prop) a now this l :
  (∀ requests status, fetchServerStatus a = (requests, Ok status) → P status) →
  cache_holds P this →
  (getServerStatus fetchServerStatus a now this).1.2 = Ok l →
  let r := getServerStatus fetchServerStatus a now this in
  ∃ h ext c status fromCache error,
    h = store this ++ ext
    ∧ store r.2 = h ++ [CObj (own_props (store r.2) l)] ∧ l = length h
    ∧ cache_holds P {| cache := cache r.2; store := h |}
    ∧ cache r.2 !! a = Some c
    ∧ status_at h (data c) status ∧ P status
    ∧ status_at (store r.2) l (handed_out status fromCache error)
    ∧ (∀ k, k ≠ "fromCache" → k ≠ "error" →
         lookup_prop k (own_props (store r.2) l) = lookup_prop k (own_props h (data c)))
    ∧ (error = true ↔ (is_fresh this a now = false ∧ ∃ e, (fetchServerStatus a).2 = Throw e))
    ∧ (fromCache = false ↔ (is_fresh this a now = false ∧ ∃ s, (fetchServerStatus a).2 = Ok s)).
Proof.
  intros Hfetch Hinv Hok r.
  assert (Hrefreshed : ∀ requests freshData,
    is_fresh this a now = false →
    fetchServerStatus a = (requests, Ok freshData) →
    ∃ h ext c status fromCache error,
      h = store this ++ ext
      ∧ store r.2 = h ++ [CObj (own_props (store r.2) l)] ∧ l = length h
      ∧ cache_holds P {| cache := cache r.2; store := h |}
      ∧ cache r.2 !! a = Some c
      ∧ status_at h (data c) status ∧ P status
      ∧ status_at (store r.2) l (handed_out status fromCache error)
      ∧ (∀ k, k ≠ "fromCache" → k ≠ "error" →
           lookup_prop k (own_props (store r.2) l) = lookup_prop k (own_props h (data c)))
      ∧ (error = true ↔ (is_fresh this a now = false ∧ ∃ e, (fetchServerStatus a).2 = Throw e))
      ∧ (fromCache = false ↔ (is_fresh this a now = false ∧ ∃ s, (fetchServerStatus a).2 = Ok s))).
  { intros requests freshData Hf Hfa. subst r.
    rewrite (getServerStatus_refreshed _ _ _ _ requests freshData Hf Hfa) in *.
    destruct (alloc_object_spec freshData (store this)) as (ext & Hh & Hd).
    destruct (alloc_object freshData (store this)) as [d h]. simpl in *.
    injection Hok as <-. subst h.
    exists (store this ++ ext), ext, {| data := d; timestamp := now |}, freshData, false, false.
    rewrite own_props_new. simpl. rewrite lookup_insert_eq, Hfa. simpl.
    repeat split; try done.
    - intros a' c' Ha'. simpl in *.
      destruct (decide (a = a')) as [<-|Hne].
      + rewrite lookup_insert_eq in Ha'. injection Ha' as <-. simpl.
        exists freshData. split; [done|]. by eapply Hfetch.
      + rewrite lookup_insert_ne in Ha' by done.
        destruct (Hinv a' c' Ha') as (status & Hs & HP).
        exists status. split; [by apply status_at_mono | done].
    - by eapply Hfetch.
    - by apply status_at_copy.
    - intros k Hk _. by rewrite lookup_set_prop_ne.
    - intros [_ [e He]]. done.
    - eauto. }
  destruct (cache this !! a) as [c|] eqn:Hc.
  - destruct (decide (now - timestamp c < cacheTimeout)) as [Hage|Hage].
    + (* the entry is young enough *)
      assert (Hf : is_fresh this a now = true).
      { unfold is_fresh. rewrite Hc. by apply bool_decide_eq_true. }
      clear Hrefreshed. subst r.
      rewrite (getServerStatus_hit _ _ _ _ c Hc Hage) in *. simpl in *.
      injection Hok as <-.
      destruct (Hinv a c Hc) as (status & Hs & HP).
      exists (store this), [], c, status, true, false. rewrite app_nil_r, own_props_new.
      repeat split; try done.
      * by apply status_at_copy.
      * intros k Hk _. by rewrite lookup_set_prop_ne.
      * intros [??]; congruence.
      * intros [??]; congruence.
    + (* the entry is too old *)
      assert (Hf : is_fresh this a now = false).
      { unfold is_fresh. rewrite Hc. by apply bool_decide_eq_false. }
      destruct (fetchServerStatus a) as [requests [freshData|error]] eqn:Hfa.
      * by eapply Hrefreshed.
      * clear Hrefreshed. subst r.
        assert (Hold : cacheTimeout ≤ now - timestamp c) by lia.
        rewrite (getServerStatus_stale _ _ _ _ requests error c Hc Hold Hfa) in *.
        simpl in *. injection Hok as <-.
        destruct (Hinv a c Hc) as (status & Hs & HP).
        exists (store this), [], c, status, true, true. rewrite app_nil_r, own_props_new.
        repeat split; try done.
        -- by apply status_at_copy2.
        -- intros k Hk1 Hk2. by rewrite !lookup_set_prop_ne.
        -- simpl. eauto.
        -- by intros [_ [s Hs']].
  - assert (Hf : is_fresh this a now = false).
    { unfold is_fresh. by rewrite Hc. }
    destruct (fetchServerStatus a) as [requests [freshData|error]] eqn:Hfa.
    + by eapply Hrefreshed.
    + subst r. by rewrite (getServerStatus_raised _ _ _ _ requests error Hc Hfa) in Hok.
Qed.

(** ** The shape of a status *)

Lemma processServerData_unflagged new old status :
  Merged.processServerData new old = Ok status → unflagged status.
Proof.
  intros H. unfold Merged.processServerData in H.
  apply bind_Ok_inv in H as (pingValue & Eping & H).
  apply bind_Ok_inv in H as (has_list & Ehl & H).
  apply bind_Ok_inv in H as (playersList & Elist & H).
  apply bind_Ok_inv in H as (has_icon & Ehi & H).
  apply bind_Ok_inv in H as (icon & Eicon & H).
  bind_inv H. injection H as <-.
  assert (defined pingValue = true) by (revert Eping; clear; intros E; js_crunch).
  assert (defined playersList = true).
  { revert Ehl Elist. clear. intros Ehl Elist. js_crunch; by auto using truthy_defined. }
  assert (defined icon = true).
  { revert Ehi Eicon. clear. intros Ehi Eicon. js_crunch; by auto using truthy_defined. }
  clear Eping Ehl Elist Ehi Eicon.
  repeat match goal with
         | E : js_or _ (Ok ?d) = Ok ?v |- _ =>
             assert (defined v = true) by (by eapply js_or_defined; [exact E|]);
             clear E
         end.
  unfold unflagged, canonical, has_defined, has_own. simpl.
  repeat match goal with H : _ = true |- _ => rewrite H; clear H end.
  done.
Qed.

Lemma fetchServerStatus_unflagged {rt : Runtime} net a requests status :
  Merged.fetchServerStatus net a = (requests, Ok status) → unflagged status.
Proof.
  unfold Merged.fetchServerStatus. cbv zeta.
  destruct (Merged.isNewApiValid _) as [valid|]; [|done].
  destruct (truthy valid).
  - destruct (get _ "online") as [online|]; [|done].
    destruct (truthy online); intros [= _ H]; by eapply processServerData_unflagged.
  - intros [= _ H]. apply try_catch_Ok_inv in H; [|done].
    apply bind_Ok_inv in H as (oldApiData & _ & H).
    apply bind_Ok_inv in H as (fallbackData & _ & H).
    by eapply processServerData_unflagged.
Qed.

Lemma fetchServerStatus_requests {rt : Runtime} net a :
  (length (Merged.fetchServerStatus net a).1 ≤ 2)%nat.
Proof.
  pose proof (primary_requests_length a) as Hp.
  unfold Merged.fetchServerStatus. cbv zeta. rewrite tryNewApi_requests.
  destruct (Merged.isNewApiValid _) as [valid|]; [|simpl; lia].
  destruct (truthy valid); [|simpl; rewrite length_app; simpl; lia].
  destruct (get _ "online") as [online|]; [|simpl; lia].
  destruct (truthy online); simpl; rewrite ?length_app; simpl; lia.
Qed.

Lemma canonical_handed_out status fromCache error :
  canonical (handed_out status fromCache error) = canonical status.
Proof.
  unfold handed_out, canonical, has_defined. simpl.
  destruct error; by rewrite !lookup_set_prop_ne.
Qed.

Lemma handed_out_fromCache status fromCache error :
  field (handed_out status fromCache error) "fromCache" = VBool fromCache.
Proof.
  unfold handed_out, field. destruct error.
  - by rewrite lookup_set_prop_ne, lookup_set_prop_eq.
  - by rewrite lookup_set_prop_eq.
Qed.

Lemma handed_out_error status fromCache error :
  field (handed_out status fromCache error) "error"
  = if error then VBool true else field status "error".
Proof.
  unfold handed_out, field. destruct error.
  - by rewrite lookup_set_prop_eq.
  - by rewrite lookup_set_prop_ne.
Qed.

Lemma getServerStatus_throw_unchanged fetchServerStatus a now this e :
  (getServerStatus fetchServerStatus a now this).1.2 = Throw e →
  (getServerStatus fetchServerStatus a now this).2 = this.
Proof.
  unfold getServerStatus.
  destruct (fetchServerStatus a) as [requests [freshData|error]];
    destruct (cache this !! a) as [c|]; try case_bool_decide; simpl; try done;
    by destruct (alloc_object freshData (store this)).
Qed.

Lemma getServerStatus_preserves fetchServerStatus (P : list (string * value) → Prop) a now this :
  (∀ requests status, fetchServerStatus a = (requests, Ok status) → P status) →
  cache_holds P this →
  cache_holds P (getServerStatus fetchServerStatus a now this).2.
Proof.
  intros Hfetch Hinv.
  destruct ((getServerStatus fetchServerStatus a now this).1.2) as [l|e] eqn:Hout.
  - destruct (getServerStatus_hands_out_copy _ P _ _ _ _ Hfetch Hinv Hout)
      as (h & ext & c & status & fc & err & _ & Hstore & _ & Hh & _).
    destruct (getServerStatus fetchServerStatus a now this).2 as [cache' store'].
    simpl in *. rewrite Hstore. by apply cache_holds_mono.
  - by rewrite (getServerStatus_throw_unchanged _ _ _ _ _ Hout).
Qed.

Lemma reachable_cache_holds {rt : Runtime} this :
  reachable this → cache_holds unflagged this.
Proof.
  induction 1 as [|net a now this _ IH].
  - intros a c Hc. simpl in Hc. by rewrite lookup_empty in Hc.
  - apply getServerStatus_preserves; [|done].
    intros requests status. apply fetchServerStatus_unflagged.
Qed.

(** A legacy players record without counts leaves them undefined. *)
Lemma player_counts_can_be_undefined {rt : Runtime} a :
  encodable a = true →
  ∃ status,
    Merged.fetchServerStatus (net_of (json primary_online) (json legacy_alice_bob)) a
    = ([GetPrimary a; GetLegacy a], Ok status)
    ∧ field2 status "players" "online" = VUndef
    ∧ field2 status "players" "max" = VUndef.
Proof.
  intros Ha. rewrite (fetchServerStatus_encodable _ a Ha).
  eexists. split; [reflexivity|]. by vm_compute.
Qed.




(** ** Copies and sharing *)

Lemma status_at_lt (h : list cell) l status : status_at h l status → (l < length h)%nat.
Proof.
  intros Hs. destruct (status_at_inv _ _ _ Hs) as (n & ps & Hl & _).
  by eapply lookup_lt_Some.
Qed.

(** C9, the counterexample: a write through the players record of a
    returned status shows in the cache entry. *)
Lemma nested_write_reaches_the_cache :
  ∃ l h',
    (getServerStatus fetch_up play1 0 constructor).1.2 = Ok l
    ∧ write_nested l "players" "online" (HNum 99) (store warm) = Some h'
    ∧ nav (nav (cached_status warm play1) "players") "online" = VNum 2
    ∧ nav (nav (cached_status {| cache := cache warm; store := h' |} play1) "players") "online"
      = VNum 99.
Proof. eexists _, _. split; [reflexivity|]. split; [reflexivity|]. by vm_compute. Qed.

(** C9, amended.  A call of getServerStatus only adds objects to the
    store, and the status it returns is a new object, none of the cache
    entries' data objects: after an assignment to any property of the
    returned status itself, every cache entry stands for the same status
    as before.  The values of the copied properties are those of the
    entry's data, references included. *)
Theorem returned_status_is_a_copy_of_the_top_level
    (fetchServerStatus : jsstring → list request * result (list (string * value)))
    a now this l :
  cache_holds (λ _, True) this →
  (getServerStatus fetchServerStatus a now this).1.2 = Ok l →
  let r := getServerStatus fetchServerStatus a now this in
  (∃ ext, store r.2 = store this ++ ext)
  ∧ (∀ a' c, cache r.2 !! a' = Some c → data c ≠ l)
  ∧ (∀ k v h', write_prop l k v (store r.2) = Some h' →
       ∀ a' c status, cache r.2 !! a' = Some c →
         status_at (store r.2) (data c) status → status_at h' (data c) status)
  ∧ (∃ c, cache r.2 !! a = Some c
       ∧ ∀ k, k ≠ "fromCache" → k ≠ "error" →
           lookup_prop k (own_props (store r.2) l)
           = lookup_prop k (own_props (store r.2) (data c))).
Proof.
  intros Hinv Hok r.
  destruct (getServerStatus_hands_out_copy _ (λ _, True) _ _ _ _ (λ _ _ _, I) Hinv Hok)
    as (h & ext & c & status & fc & err & Hh & Hstore & Hl & Hcache & Hc & Hs & _ & _ & Hprops & _).
  fold r in Hstore, Hcache, Hc, Hprops.
  assert (Hbelow : ∀ a' c', cache r.2 !! a' = Some c' →
            ∃ s, status_at h (data c') s).
  { intros a' c' Ha'. destruct (Hcache a' c' Ha') as (s & Hs' & _). by exists s. }
  split; [|split; [|split]].
  - exists (ext ++ [CObj (own_props (store r.2) l)]). rewrite app_assoc, <- Hh. exact Hstore.
  - intros a' c' Ha'. destruct (Hbelow a' c' Ha') as (s & Hs').
    apply status_at_lt in Hs'. lia.
  - intros k v h' Hw a' c' s Ha' Hs'.
    destruct (Hbelow a' c' Ha') as (s0 & Hs0).
    assert (s = s0) as ->.
    { eapply status_at_unique; [exact Hs'|]. rewrite Hstore. by apply status_at_mono. }
    unfold write_prop in Hw. rewrite Hstore in Hw. subst l.
    rewrite list_lookup_middle in Hw by done. injection Hw as <-.
    rewrite insert_app_r_alt by lia. rewrite Nat.sub_diag. simpl.
    by apply status_at_mono.
  - exists c. split; [done|]. intros k Hk1 Hk2. rewrite (Hprops k Hk1 Hk2).
    rewrite Hstore, own_props_app_l; [done|]. by eapply status_at_lt.
Qed.

Lemma returned_status_is_a_copy_of_the_top_level_witness :
    ∃ ext, store (getServerStatus fetch_up play1 1000 warm).2 = store warm ++ ext.
Proof.
    refine (proj1 (returned_status_is_a_copy_of_the_top_level
                     fetch_up play1 1000 warm 10%nat _ _)).
    - unfold warm. apply (getServerStatus_preserves fetch_up (λ _, True)); [done|].
      intros a c Hc. simpl in Hc. by rewrite lookup_empty in Hc.
    - vm_compute. reflexivity.
Defined.

(** ** Serving from the cache *)

Lemma script_fetchServerStatus_flags {rt : Runtime} net measureRealPing a :
  (length (Script.fetchServerStatus net measureRealPing a).1 ≤ 2)%nat
  ∧ ∀ status, (Script.fetchServerStatus net measureRealPing a).2 = Ok status →
      lookup_prop "fromCache" status = None ∧ lookup_prop "error" status = None.
Proof.
  unfold Script.fetchServerStatus.
  destruct (fetch_json _ _ ≫= Script.processServerData) as [processedData|e] eqn:Hbody;
    [|split; [simpl; lia | done]].
  apply bind_Ok_inv in Hbody as (data & _ & H).
  unfold Script.processServerData in H. bind_inv H. injection H as <-.
  match goal with |- context [if ?b then _ else _] => destruct b end;
    (split; [simpl; lia|]); simpl; [|by intros status [= <-]].
  intros status. destruct (measureRealPing a) as [[ms|]|]; simpl; [| |done];
    by intros [= <-].
Qed.

(** C2, the counterexample: a second call 1000 ms after a successful
    refresh is answered from the cache with fromCache = true, but the
    status has no error property; the refresh of the first call took two
    requests; and after a first call that failed, the second call
    refreshes again. *)
Lemma cache_hit_has_no_error_flag :
  is_fresh warm play1 1000 = true
  ∧ (getServerStatus fetch_down play1 0 constructor).1
    = ([GetPrimary play1; GetLegacy play1], Throw NoStatusAvailable)
  ∧ (getServerStatus fetch_up play1 1000 (getServerStatus fetch_down play1 0 constructor).2).1.1
    = [GetPrimary play1; GetLegacy play1]
  ∧ (getServerStatus fetch_up play1 0 constructor).1.1 = [GetPrimary play1; GetLegacy play1]
  ∧ ∃ l, (getServerStatus fetch_down play1 1000 warm).1.2 = Ok l
      ∧ (getServerStatus fetch_down play1 1000 warm).1.1 = []
      ∧ status_prop (getServerStatus fetch_down play1 1000 warm).2 l "fromCache" = HBool true
      ∧ status_prop (getServerStatus fetch_down play1 1000 warm).2 l "error" = HUndef
      ∧ status_prop (getServerStatus fetch_down play1 1000 warm).2 l "error" ≠ HBool false.
Proof.
  split; [by vm_compute|]. split; [by vm_compute|]. split; [by vm_compute|].
  split; [by vm_compute|]. exists 10%nat. by vm_compute.
Qed.

(** C2, amended.  When the entry of an address is less than 30,000 ms old,
    getServerStatus issues no request, leaves the cache as it is and
    returns a new object with the properties of the entry's data and
    fromCache = true; it does not set error.  After a call that refreshed
    the address at time t0, a call at any t1 with t1 - t0 < 30,000 issues
    no request and returns the status of the first call with
    fromCache = true instead of false: the two calls together make the
    requests of one refresh, at most two in either file, and a refresh
    never sets error. *)
Theorem fresh_entry_is_served_without_network
    (fetch1 fetch2 : jsstring → list request * result (list (string * value)))
    (a : jsstring) :
  (∀ now this c,
     cache this !! a = Some c → now - timestamp c < cacheTimeout →
     getServerStatus fetch2 a now this
     = ([], Ok (length (store this)),
        {| cache := cache this;
           store := store this ++
             [CObj (set_prop "fromCache" (HBool true) (own_props (store this) (data c)))] |}))
  ∧ (∀ t0 t1 this requests freshData,
       is_fresh this a t0 = false →
       fetch1 a = (requests, Ok freshData) →
       t1 - t0 < cacheTimeout →
       let first := getServerStatus fetch1 a t0 this in
       let second := getServerStatus fetch2 a t1 first.2 in
       first.1.1 = requests ∧ second.1.1 = [] ∧ cache second.2 = cache first.2
       ∧ ∃ l1 l2, first.1.2 = Ok l1 ∧ second.1.2 = Ok l2
           ∧ status_at (store second.2) l1 (set_prop "fromCache" (VBool false) freshData)
           ∧ status_at (store second.2) l2 (set_prop "fromCache" (VBool true) freshData)
           ∧ field (set_prop "fromCache" (VBool true) freshData) "error"
             = field freshData "error")
  ∧ (∀ (rt : Runtime) net a',
       (length (Merged.fetchServerStatus net a').1 ≤ 2)%nat
       ∧ ∀ status, (Merged.fetchServerStatus net a').2 = Ok status →
           lookup_prop "error" status = None)
  ∧ (∀ (rt : Runtime) net measureRealPing a',
       (length (Script.fetchServerStatus net measureRealPing a').1 ≤ 2)%nat
       ∧ ∀ status, (Script.fetchServerStatus net measureRealPing a').2 = Ok status →
           lookup_prop "error" status = None).
Proof.
  split; [|split; [|split]].
  - intros now this c Hc Hage. by apply getServerStatus_hit.
  - intros t0 t1 this requests freshData Hf Hfetch Hage first second.
    subst second first.
    rewrite (getServerStatus_refreshed _ _ _ _ requests freshData Hf Hfetch).
    destruct (alloc_object_spec freshData (store this)) as (ext & Hh & Hd).
    destruct (alloc_object freshData (store this)) as [d h]. simpl in Hh, Hd. subst h.
    set (h := store this ++ ext) in *. clearbody h.
    set (copy1 := CObj (set_prop "fromCache" (HBool false) (own_props h d))).
    cbn [fst snd].
    erewrite getServerStatus_hit;
      [|cbn [cache]; apply lookup_insert_eq | cbn [timestamp]; lia].
    cbn [fst snd cache store data].
    split; [done|]. split; [done|]. split; [done|].
    exists (length h), (length (h ++ [copy1])).
    split; [done|]. split; [done|]. split; [|split].
    + apply (status_at_mono (h ++ [copy1])). by apply status_at_copy.
    + apply (status_at_copy (h ++ [copy1]) d), status_at_mono, Hd.
    + unfold field. by rewrite lookup_set_prop_ne.
  - intros rt net a'. split; [apply fetchServerStatus_requests|].
    intros status Hs.
    destruct (Merged.fetchServerStatus net a') as [requests outcome] eqn:E.
    simpl in Hs. subst outcome. by destruct (fetchServerStatus_unflagged _ _ _ _ E) as (_ & _ & ?).
  - intros rt net measureRealPing a'.
    destruct (script_fetchServerStatus_flags net measureRealPing a') as [Hlen Hflags].
    split; [done|]. intros status Hs. by destruct (Hflags status Hs).
Qed.

Lemma fresh_entry_is_served_without_network_witness :
  (getServerStatus fetch_down play1 1000 warm).1.1 = []
  ∧ ∃ l2, (getServerStatus fetch_down play1 1000 warm).1.2 = Ok l2.
Proof.
  destruct (fresh_entry_is_served_without_network fetch_up fetch_down play1) as (_ & H & _).
  destruct (H 0 1000 constructor [GetPrimary play1; GetLegacy play1]
              (match (fetch_up play1).2 with Ok s => s | Throw _ => [] end))
    as (_ & Hreq & _ & l1 & l2 & _ & Hl2 & _); [reflexivity | reflexivity | unfold cacheTimeout; lia |].
  split; [exact Hreq | exists l2; exact Hl2].
Defined.

(** ** Failures and requests of the refresh (second file) *)

Lemma primary_usable_object r :
  primary_usable r = true →
  ∃ props, Merged.json_or_null r = VObj props
    ∧ Merged.isNewApiValid (VObj props) = Ok (VBool true).
Proof.
  intros Hu. pose proof Hu as Hu'.
  apply primary_usable_iff in Hu
    as (status & props & code & online & -> & Hok & Hc & H200 & Ho & Hdef).
  exists props. simpl. rewrite Hok. split; [done|].
  rewrite isNewApiValid_object, Hc, H200, Ho. by destruct online.
Qed.

Lemma fetchServerStatus_usable {rt : Runtime} net a :
  primary_used net a = true →
  ∃ props,
    Merged.json_or_null (net (GetPrimary a)) = VObj props
    ∧ Merged.fetchServerStatus net a
      = if truthy (field props "online")
        then ([GetPrimary a; GetLegacy a],
              Merged.processServerData (VObj props)
                (Merged.json_or_null (net (GetLegacy a))))
        else ([GetPrimary a], Merged.processServerData (VObj props) VNull).
Proof.
  intros [Ha Hu]%andb_true_iff. destruct (primary_usable_object _ Hu) as (props & Hj & Hv).
  exists props. split; [done|].
  rewrite (fetchServerStatus_encodable net a Ha). cbv zeta.
  rewrite Hj, Hv. simpl. unfold field.
  by destruct (truthy _).
Qed.

Lemma fetchServerStatus_unusable {rt : Runtime} net a :
  primary_used net a = false →
  Merged.fetchServerStatus net a
  = (primary_requests a ++ [GetLegacy a],
     try_catch
       (oldApiData ← fetch_json (net (GetLegacy a)) (λ status, Throw (HttpStatusError status));
        fallbackData ← Merged.convertOldApiToNewApiFormat oldApiData;
        Merged.processServerData (VObj fallbackData) oldApiData)
       (λ _, Throw NoStatusAvailable)).
Proof.
  unfold primary_used, primary_requests. intros Hu. destruct (encodable a) eqn:Ha.
  - simpl in Hu. rewrite (fetchServerStatus_encodable net a Ha). cbv zeta.
    unfold primary_usable in Hu.
    destruct (isNewApiValid_returns (Merged.json_or_null (net (GetPrimary a)))) as [v Hv].
    rewrite Hv in *. by rewrite Hu.
  - unfold Merged.fetchServerStatus. by rewrite tryNewApi_not_encodable.
Qed.

(** X1.  The refresh of the second file fails only on the fallback path
    and only with the one generic error: when the primary response is
    used (the request was made and the answer is usable) it returns a
    status whatever the legacy request does, and when it is not, every
    failure of the legacy request (a rejected fetch, a status outside 2xx,
    a body that is not JSON, the JSON value null) is reported as that same
    error. *)
Theorem refresh_fails_only_after_fallback {rt : Runtime} (net : request → response) (a : jsstring) :
  (∀ e, (Merged.fetchServerStatus net a).2 = Throw e →
     e = NoStatusAvailable ∧ primary_used net a = false)
  ∧ (primary_used net a = true →
     returns (Merged.fetchServerStatus net a).2)
  ∧ (∀ e, primary_used net a = false →
       fetch_json (net (GetLegacy a)) (λ status, Throw (HttpStatusError status)) = Throw e →
       Merged.fetchServerStatus net a
       = (primary_requests a ++ [GetLegacy a], Throw NoStatusAvailable))
  ∧ (primary_used net a = false →
     net (GetLegacy a) = json VNull →
     Merged.fetchServerStatus net a
     = (primary_requests a ++ [GetLegacy a], Throw NoStatusAvailable)).
Proof.
  assert (Hret : primary_used net a = true →
                 returns (Merged.fetchServerStatus net a).2).
  { intros Hu. destruct (fetchServerStatus_usable net a Hu) as (props & _ & ->).
    destruct (truthy _); simpl; by apply processServerData_returns. }
  split; [|split; [done|split]].
  - intros e He. destruct (primary_used net a) eqn:Hu.
    + destruct (Hret eq_refl) as [s Hs]. congruence.
    + rewrite (fetchServerStatus_unusable net a Hu) in He. simpl in He.
      split; [|done]. unfold try_catch in He.
      destruct (_ ≫= _); congruence.
  - intros e Hu Hl. rewrite (fetchServerStatus_unusable net a Hu), Hl. done.
  - intros Hu Hl. rewrite (fetchServerStatus_unusable net a Hu), Hl. done.
Qed.

Lemma encodable_cons c r :
  (c < 55296 ∨ 57343 < c)%N → encodable (c :: r) = encodable r.
Proof.
  intros Hc. unfold encodable. simpl.
  assert (((c <? 55296) || (57343 <? c))%N = true) as ->.
  { apply orb_true_iff. rewrite !N.ltb_lt. done. }
  destruct (uriUnescaped c); by destruct (encodeURIComponent r).
Qed.

Lemma encodable_without_surrogates a :
  Forall (λ c, c < 55296 ∨ 57343 < c)%N a → encodable a = true.
Proof.
  induction 1 as [|c r Hc _ IH]; [done|]. by rewrite encodable_cons.
Qed.

Lemma uriUnescaped_not_surrogate c : (55296 ≤ c)%N → uriUnescaped c = false.
Proof.
  intros Hc. unfold uriUnescaped.
  assert ((c <=? 90)%N = false) as -> by (apply N.leb_gt; lia).
  assert ((c <=? 122)%N = false) as -> by (apply N.leb_gt; lia).
  assert ((c <=? 57)%N = false) as -> by (apply N.leb_gt; lia).
  rewrite !andb_false_r. simpl. apply bool_decide_eq_false.
  rewrite !elem_of_cons, elem_of_nil. lia.
Qed.

Lemma encodable_lone_surrogate c : (55296 ≤ c ≤ 57343)%N → encodable [c] = false.
Proof.
  intros [Hl Hh]. unfold encodable. simpl.
  rewrite (uriUnescaped_not_surrogate c Hl).
  assert ((c <? 55296)%N = false) as -> by (apply N.ltb_ge; lia).
  assert ((57343 <? c)%N = false) as -> by (apply N.ltb_ge; lia).
  simpl. by destruct (56320 <=? c)%N.
Qed.

(** X2.  The requests of a refresh in the second file: the primary API
    first, unless encodeURIComponent refuses the address (it has a lone
    surrogate), in which case no primary request is made; then the legacy
    API once, unless the primary response is used and reports the server
    offline; the server itself is never probed.  An address without
    surrogates is encodable, a lone surrogate is not. *)
Theorem refresh_request_trace {rt : Runtime} (net : request → response) (a : jsstring) :
  (Merged.fetchServerStatus net a).1
  = primary_requests a ++
    (if primary_used net a
        && negb (truthy (nav (Merged.json_or_null (net (GetPrimary a))) "online"))
     then [] else [GetLegacy a])
  ∧ (encodable a = true →
     ∃ more, (Merged.fetchServerStatus net a).1 = GetPrimary a :: more)
  ∧ (encodable a = false → (Merged.fetchServerStatus net a).1 = [GetLegacy a])
  ∧ (Forall (λ c, c < 55296 ∨ 57343 < c)%N a → encodable a = true)
  ∧ (∀ c, (55296 ≤ c ≤ 57343)%N → encodable [c] = false).
Proof.
  assert (Htrace : (Merged.fetchServerStatus net a).1
    = primary_requests a ++
      (if primary_used net a
          && negb (truthy (nav (Merged.json_or_null (net (GetPrimary a))) "online"))
       then [] else [GetLegacy a])).
  { destruct (primary_used net a) eqn:Hu.
    - destruct (fetchServerStatus_usable net a Hu) as (props & -> & ->).
      apply andb_true_iff in Hu as [Ha _]. unfold primary_requests. rewrite Ha.
      unfold nav, field. simpl. by destruct (truthy _).
    - by rewrite (fetchServerStatus_unusable net a Hu). }
  split; [done|]. split; [|split; [|split]].
  - intros Ha. rewrite Htrace. unfold primary_requests. rewrite Ha. by eexists.
  - intros Ha. rewrite Htrace. unfold primary_requests, primary_used. by rewrite Ha.
  - apply encodable_without_surrogates.
  - apply encodable_lone_surrogate.
Qed.

(** ** The refresh of src/script.js *)

Lemma script_processServerData_throws data :
  nullish data = true → Script.processServerData data = Throw TypeError.
Proof. by destruct data. Qed.

Lemma script_processServerData_online data status :
  Script.processServerData data = Ok status →
  field status "online" = if truthy (nav data "online") then nav data "online" else VBool false.
Proof.
  intros H. unfold Script.processServerData in H.
  apply bind_Ok_inv in H as (pingValue & _ & H).
  apply bind_Ok_inv in H as (online & E & H).
  bind_inv H. injection H as <-. unfold field. simpl.
  revert E. clear. intros E. unfold nav. js_crunch.
Qed.

Lemma script_processServerData_populated data status :
  Script.processServerData data = Ok status → populated status.
Proof.
  intros H. unfold Script.processServerData in H.
  apply bind_Ok_inv in H as (pingValue & Eping & H).
  bind_inv H. injection H as <-.
  assert (defined (match pingValue with
                   | VBool true => VNull
                   | VNum q => VNum (Math_round q)
                   | VBool false | VUndef => VNull
                   | other => other
                   end) = true) as Hping
    by (by destruct pingValue as [| |[]| | | | |]).
  clear Eping.
  repeat match goal with
         | E : js_or _ (Ok ?d) = Ok ?v |- _ =>
             assert (defined v = true) by (by eapply js_or_defined; [exact E|]);
             clear E
         end.
  unfold populated, unflagged, canonical, has_defined, has_own, field2, field, nav. simpl.
  rewrite Hping.
  repeat match goal with H : _ = true |- _ => rewrite H; clear H end.
  done.
Qed.

Lemma set_realPing_spec ms processed status :
  populated processed →
  Script.set_realPing ms processed = Ok status →
  populated status
  ∧ (∀ k, k ≠ "debug" → field status k = field processed k)
  ∧ (∀ k, k ≠ "realPing" → field2 status "debug" k = field2 processed "debug" k)
  ∧ field2 status "debug" "realPing" = VNum ms.
Proof.
  intros ((Hcan & Hfc & Herr) & Hon & Hmax) H. unfold Script.set_realPing in H.
  simpl in H. unfold canonical in Hcan.
  destruct (lookup_prop "debug" processed) as [[| | | | | |debug|]|] eqn:Hd;
    try (simpl in Hcan; rewrite ?andb_false_r in Hcan; done).
  simpl in H. injection H as <-.
  assert (Hne : ∀ k, k ≠ "debug" →
            lookup_prop k (set_prop "debug"
                             (VObj (set_prop "realPing" (VNum ms) debug)) processed)
            = lookup_prop k processed).
  { intros k Hk. by apply lookup_set_prop_ne. }
  split; [|split; [|split]].
  - unfold populated, unflagged, canonical, has_defined, has_own, field2, field in *.
    simpl in *. rewrite lookup_set_prop_eq. rewrite !Hne by done.
    rewrite !(lookup_set_prop_ne "realPing") by done. rewrite Hd in Hcan.
    done.
  - intros k Hk. unfold field. by rewrite Hne.
  - intros k Hk. unfold field2, field, nav. rewrite lookup_set_prop_eq, Hd. simpl.
    by rewrite lookup_set_prop_ne.
  - unfold field2, field, nav. rewrite lookup_set_prop_eq. simpl.
    by rewrite lookup_set_prop_eq.
Qed.

Lemma script_fetchServerStatus_json net measureRealPing a code data :
  net (GetLegacy a) = Http code (Some data) → ok code = true →
  Script.fetchServerStatus net measureRealPing a
  = match Script.processServerData data with
    | Throw e => ([GetLegacy a], Throw e)
    | Ok processedData =>
        if truthy (nav data "online") then
          ([GetLegacy a; Probe a],
           realPing ← measureRealPing a;
           match realPing with
           | Some ms => Script.set_realPing (inject_Z ms) processedData
           | None => Ok processedData
           end)
        else ([GetLegacy a], Ok processedData)
    end.
Proof.
  intros Hnet Hok. unfold Script.fetchServerStatus, fetch_json. rewrite Hnet, Hok.
  change (Ok data ≫= _) with (Script.processServerData data).
  destruct (Script.processServerData data) as [processed|] eqn:Hp; [|done].
  pose proof (script_processServerData_online _ _ Hp) as Ho.
  unfold field in Ho. rewrite Ho.
  by destruct (truthy (nav data "online")) eqn:Hon; [rewrite Hon|].
Qed.

Lemma script_fetchServerStatus_no_json net measureRealPing a :
  Script.fetchServerStatus net measureRealPing a
  = match net (GetLegacy a) with
    | NetworkError => ([GetLegacy a], Throw NetworkFailure)
    | Http code body =>
        if ok code then
          match body with
          | None => ([GetLegacy a], Throw SyntaxError)
          | Some _ => Script.fetchServerStatus net measureRealPing a
          end
        else ([GetLegacy a], Throw (HttpStatusError code))
    end.
Proof.
  destruct (net (GetLegacy a)) as [|code [data|]] eqn:Hnet; [| |].
  - unfold Script.fetchServerStatus. by rewrite Hnet.
  - destruct (ok code) eqn:Hok; [done|].
    unfold Script.fetchServerStatus, fetch_json. by rewrite Hnet, Hok.
  - unfold Script.fetchServerStatus, fetch_json. rewrite Hnet. by destruct (ok code).
Qed.

Lemma set_realPing_returns ms processed :
  populated processed → returns (Script.set_realPing ms processed).
Proof.
  intros ((Hcan & _) & _). unfold Script.set_realPing. simpl. unfold canonical in Hcan.
  destruct (lookup_prop "debug" processed) as [[| | | | | |debug|]|];
    try (simpl in Hcan; rewrite ?andb_false_r in Hcan; done).
  by eexists.
Qed.

(** X3.  The failures of a refresh in src/script.js: a rejected fetch, a
    status outside 2xx (reported with the status), a body that is not
    JSON, the JSON value null; with any other answer the refresh fails only
    when the server is reported online and the latency probe fails, and
    then with the probe's error.  A server reported offline is not
    probed. *)
Theorem script_refresh_errors (net : request → response)
    (measureRealPing : jsstring → result (option Z)) (a : jsstring) :
  let r := Script.fetchServerStatus net measureRealPing a in
  (∀ e, r.2 = Throw e →
     match net (GetLegacy a) with
     | NetworkError => e = NetworkFailure ∧ r.1 = [GetLegacy a]
     | Http status body =>
         if ok status then
           match body with
           | None => e = SyntaxError ∧ r.1 = [GetLegacy a]
           | Some data =>
               if nullish data then e = TypeError ∧ r.1 = [GetLegacy a]
               else truthy (nav data "online") = true
                    ∧ measureRealPing a = Throw e ∧ r.1 = [GetLegacy a; Probe a]
           end
         else e = HttpStatusError status ∧ r.1 = [GetLegacy a]
     end)
  ∧ (∀ status data, net (GetLegacy a) = Http status (Some data) → ok status = true →
       nullish data = false → truthy (nav data "online") = false → returns r.2)
  ∧ (∀ status data e, net (GetLegacy a) = Http status (Some data) → ok status = true →
       truthy (nav data "online") = true → measureRealPing a = Throw e → r.2 = Throw e).
Proof.
  intros r. subst r. split; [|split].
  - intros e. rewrite script_fetchServerStatus_no_json.
    destruct (net (GetLegacy a)) as [|status [data|]] eqn:Hnet; [by intros [= <-]| |].
    + destruct (ok status) eqn:Hok; [|by intros [= <-]].
      rewrite (script_fetchServerStatus_json _ _ _ _ _ Hnet Hok).
      destruct (nullish data) eqn:Hn.
      { rewrite script_processServerData_throws by done. by intros [= <-]. }
      destruct (script_processServerData_returns data Hn) as [processed Hp].
      rewrite Hp.
      destruct (truthy (nav data "online")) eqn:Hon; [|done]. simpl.
      destruct (measureRealPing a) as [[ms|]|e']; simpl; [| done | by intros [= <-]].
      destruct (set_realPing_returns (inject_Z ms) processed) as [s Hs];
        [by eapply script_processServerData_populated|].
      by rewrite Hs.
    + destruct (ok status); by intros [= <-].
  - intros status data Hnet Hok Hn Hon.
    rewrite (script_fetchServerStatus_json _ _ _ _ _ Hnet Hok).
    destruct (script_processServerData_returns data Hn) as [processed Hp].
    rewrite Hp, Hon. by exists processed.
  - intros status data e Hnet Hok Hon He.
    rewrite (script_fetchServerStatus_json _ _ _ _ _ Hnet Hok).
    assert (Hn : nullish data = false).
    { destruct data; try done; by vm_compute in Hon. }
    destruct (script_processServerData_returns data Hn) as [processed Hp].
    rewrite Hp, Hon. simpl. by rewrite He.
Qed.

(** X4.  In src/script.js the latency that the probe measures is stored
    as debug.realPing and nowhere else: a status that a refresh returns is
    the processed legacy answer in every property but debug, and in every
    property of debug but realPing; realPing is the probe's number when
    the server is reported online and the probe gave one, and absent
    otherwise. *)
Theorem measured_latency_is_kept_apart (net : request → response)
    (measureRealPing : jsstring → result (option Z)) (a : jsstring) requests status :
  Script.fetchServerStatus net measureRealPing a = (requests, Ok status) →
  ∃ code data processed,
    net (GetLegacy a) = Http code (Some data) ∧ ok code = true
    ∧ Script.processServerData data = Ok processed
    ∧ requests = GetLegacy a :: (if truthy (nav data "online") then [Probe a] else [])
    ∧ (∀ k, k ≠ "debug" → field status k = field processed k)
    ∧ (∀ k, k ≠ "realPing" → field2 status "debug" k = field2 processed "debug" k)
    ∧ field2 status "debug" "realPing"
      = (if truthy (nav data "online")
         then match measureRealPing a with
              | Ok (Some ms) => VNum (inject_Z ms)
              | _ => VUndef
              end
         else VUndef).
Proof.
  rewrite script_fetchServerStatus_no_json.
  destruct (net (GetLegacy a)) as [|code [data|]] eqn:Hnet; [done| |by destruct (ok code)].
  destruct (ok code) eqn:Hok; [|done].
  rewrite (script_fetchServerStatus_json _ _ _ _ _ Hnet Hok).
  destruct (Script.processServerData data) as [processed|] eqn:Hp; [|done].
  pose proof (script_processServerData_populated _ _ Hp) as Hpop.
  assert (Hnone : field2 processed "debug" "realPing" = VUndef).
  { revert Hp. clear. intros H. unfold Script.processServerData in H.
    bind_inv H. by injection H as <-. }
  destruct (truthy (nav data "online")) eqn:Hon.
  - destruct (measureRealPing a) as [[ms|]|e']; simpl; [| |done].
    + intros [= <- Hs]. destruct (set_realPing_spec _ _ _ Hpop Hs) as (_ & H1 & H2 & H3).
      exists code, data, processed. rewrite ?Hon. repeat split; auto.
    + intros [= <- <-]. exists code, data, processed. rewrite ?Hon. repeat split; auto.
  - intros [= <- <-]. exists code, data, processed. rewrite ?Hon. repeat split; auto.
Qed.

Lemma handed_out_populated status fromCache error :
  populated status →
  canonical (handed_out status fromCache error) = true
  ∧ defined (field2 (handed_out status fromCache error) "players" "online") = true
  ∧ defined (field2 (handed_out status fromCache error) "players" "max") = true.
Proof.
  intros ((Hcan & _) & Hon & Hmax). rewrite canonical_handed_out.
  split; [done|]. unfold field2, field, handed_out in *.
  destruct error; by rewrite !lookup_set_prop_ne.
Qed.

Lemma script_fetchServerStatus_populated net measureRealPing a requests status :
  Script.fetchServerStatus net measureRealPing a = (requests, Ok status) → populated status.
Proof.
  unfold Script.fetchServerStatus.
  destruct (fetch_json _ _ ≫= Script.processServerData) as [processed|] eqn:Hp; [|done].
  apply bind_Ok_inv in Hp as (data & _ & Hp).
  apply script_processServerData_populated in Hp.
  destruct (truthy _); [|by intros [= _ <-]].
  destruct (measureRealPing a) as [[ms|]|]; simpl; [| by intros [= _ <-] | done].
  intros [= _ Hs]. by destruct (set_realPing_spec _ _ _ Hp Hs).
Qed.

Lemma script_reachable_cache_holds this :
  script_reachable this → cache_holds populated this.
Proof.
  induction 1 as [|net probe a now this _ IH].
  - intros a c Hc. simpl in Hc. by rewrite lookup_empty in Hc.
  - apply getServerStatus_preserves; [|done].
    intros requests status. apply script_fetchServerStatus_populated.
Qed.

(** X5.  processServerData of src/script.js throws on null and undefined
    and nowhere else, and its result has every property of the schema,
    the two player counts included, with a value other than undefined;
    so has every status that getServerStatus of src/script.js returns. *)
Theorem script_status_is_fully_populated :
  (∀ data, nullish data = true → Script.processServerData data = Throw TypeError)
  ∧ (∀ data, nullish data = false →
       ∃ status, Script.processServerData data = Ok status ∧ populated status)
  ∧ (∀ net measureRealPing a now this l,
       script_reachable this →
       let r := getServerStatus (Script.fetchServerStatus net measureRealPing) a now this in
       r.1.2 = Ok l →
       ∃ status fromCache error,
         status_at (store r.2) l (handed_out status fromCache error)
         ∧ canonical (handed_out status fromCache error) = true
         ∧ defined (field2 (handed_out status fromCache error) "players" "online") = true
         ∧ defined (field2 (handed_out status fromCache error) "players" "max") = true).
Proof.
  split; [apply script_processServerData_throws|]. split.
  - intros data Hn. destruct (script_processServerData_returns data Hn) as [status H].
    exists status. split; [done|]. by eapply script_processServerData_populated.
  - intros net probe a now this l Hreach r Hok.
    destruct (getServerStatus_hands_out_copy _ populated _ _ _ _
                (λ requests status, script_fetchServerStatus_populated net probe a requests status)
                (script_reachable_cache_holds _ Hreach) Hok)
      as (h & ext & c & status & fc & err & _ & _ & _ & _ & _ & _ & Hpop & Hat & _).
    exists status, fc, err. split; [done|]. by apply handed_out_populated.
Qed.

(** ** The fallback against the first revision *)

Ltac keep_field k :=
  repeat match goal with
         | H : _ = Ok _ |- _ =>
             lazymatch type of H with
             | context [k] => fail
             | _ => clear H
             end
         end.

Lemma nav0_falsy v : truthy v = false → truthy (nav0 v) = false.
Proof.
  unfold nav0. destruct v; simpl; try done.
  intros Hs. apply negb_false_iff, bool_decide_eq_true in Hs. by subst s.
Qed.

Lemma nav_object ps k : nav (VObj ps) k = default VUndef (lookup_prop k ps).
Proof. done. Qed.

(** The shapes of defaulting expressions, in closed form. *)
Lemma or_default v k d x :
  js_or (dot (Ok v) k) (Ok d) = Ok x →
  x = if truthy (nav v k) then nav v k else d.
Proof. intros E. js_crunch. Qed.

Lemma opt_or_default v k1 k2 d x :
  js_or (optdot (dot (Ok v) k1) k2) (Ok d) = Ok x →
  x = if truthy (nav (nav v k1) k2) then nav (nav v k1) k2 else d.
Proof.
  intros E. js_crunch; try congruence.
  all: rewrite (nav_nullish (nav v k1)) in * by done; simpl in *; congruence.
Qed.

Lemma and_or_default v k d x :
  js_or (js_and (Ok v) (dot (Ok v) k)) (Ok d) = Ok x →
  x = if truthy (nav v k) then nav v k else d.
Proof.
  intros E. js_crunch; try congruence.
  all: by rewrite (nav_falsy v k) in * by done.
Qed.

Lemma and_and_or_default v k1 k2 d x :
  js_or (js_and (js_and (Ok v) (dot (Ok v) k1)) (dot (dot (Ok v) k1) k2)) (Ok d) = Ok x →
  x = if truthy (nav (nav v k1) k2) then nav (nav v k1) k2 else d.
Proof.
  intros E. js_crunch; try congruence.
  all: try (by rewrite (nav_falsy (nav v k1) k2) in * by done).
  all: by rewrite (nav_falsy (nav v k1) k2) in * by (by apply nav_falsy).
Qed.

Lemma or_and_or_default new old k d x :
  js_or (js_or (dot (Ok new) k) (js_and (Ok old) (dot (Ok old) k))) (Ok d) = Ok x →
  x = if truthy (nav new k) then nav new k
      else if truthy (nav old k) then nav old k else d.
Proof.
  intros E. js_crunch; try congruence.
  all: by rewrite (nav_falsy old k) in * by done.
Qed.

Lemma icon_closed_form new old has_icon icon :
  js_and (Ok old) (dot (Ok old) "icon") = Ok has_icon →
  (if truthy has_icon then dot (Ok old) "icon"
   else js_cond (dot (Ok new) "favicon_url") (dot (Ok new) "favicon_url") (Ok VNull)) = Ok icon →
  icon = if truthy (nav old "icon") then nav old "icon"
         else if truthy (nav new "favicon_url") then nav new "favicon_url" else VNull.
Proof.
  intros E1 E2. js_crunch; try congruence.
  all: match goal with
       | H : truthy ?v = false |- _ => by rewrite (nav_falsy v "icon") in * by done
       end.
Qed.

Ltac closed_forms :=
  repeat match goal with
         | E : js_or (dot (Ok _) _) (Ok _) = Ok _ |- _ => apply or_default in E
         | E : js_or (optdot (dot (Ok _) _) _) (Ok _) = Ok _ |- _ => apply opt_or_default in E
         | E : js_or (js_and (Ok _) (dot (Ok _) _)) (Ok _) = Ok _ |- _ =>
             apply and_or_default in E
         | E : js_or (js_and (js_and (Ok _) (dot (Ok _) _)) (dot (dot (Ok _) _) _)) (Ok _)
               = Ok _ |- _ => apply and_and_or_default in E
         | E : js_or (js_or (dot (Ok _) _) (js_and (Ok _) (dot (Ok _) _))) (Ok _) = Ok _ |- _ =>
             apply or_and_or_default in E
         end.

(** X6.  On the fallback path the second file builds, from a legacy
    answer, the same online, ip, port, hostname, icon, version, protocol,
    software, gamemode, map, players.list, motd.raw and debug.query as
    processServerData of src/script.js does from that answer. *)
Theorem fallback_agrees_with_first_revision {rt : Runtime}
    (oldApiData : value) (fallbackData merged : list (string * value)) :
  Merged.convertOldApiToNewApiFormat oldApiData = Ok fallbackData →
  Merged.processServerData (VObj fallbackData) oldApiData = Ok merged →
  ∃ legacy,
    Script.processServerData oldApiData = Ok legacy
    ∧ Forall (λ k, field merged k = field legacy k)
        ["online"; "ip"; "port"; "hostname"; "icon"; "version"; "protocol";
         "software"; "gamemode"; "map"]
    ∧ field2 merged "players" "list" = field2 legacy "players" "list"
    ∧ field2 merged "motd" "raw" = field2 legacy "motd" "raw"
    ∧ field2 merged "debug" "query" = field2 legacy "debug" "query".
Proof.
  intros Hc Hm.
  assert (Hn : nullish oldApiData = false).
  { destruct oldApiData; try done; by vm_compute in Hc. }
  destruct (script_processServerData_returns oldApiData Hn) as [legacy Hl].
  exists legacy. split; [done|].
  pose proof (processServerData_players_list _ _ _ Hm) as Hlist.
  unfold Merged.convertOldApiToNewApiFormat in Hc.
  apply bind_Ok_inv in Hc as (has_motd & _ & Hc).
  apply bind_Ok_inv in Hc as ([motdClean motdHtml] & _ & Hc).
  apply bind_Ok_inv in Hc as (online & Eonline & Hc).
  apply bind_Ok_inv in Hc as (ip & Eip & Hc).
  apply bind_Ok_inv in Hc as (port & Eport & Hc).
  apply bind_Ok_inv in Hc as (hostname & Ehostname & Hc).
  apply bind_Ok_inv in Hc as (players & _ & Hc).
  apply bind_Ok_inv in Hc as (max_players & _ & Hc).
  apply bind_Ok_inv in Hc as (version & Eversion & Hc).
  apply bind_Ok_inv in Hc as (favicon_url & Efavicon & Hc).
  injection Hc as <-.
  closed_forms.
  unfold Merged.processServerData in Hm.
  apply bind_Ok_inv in Hm as (pingValue & _ & Hm).
  apply bind_Ok_inv in Hm as (has_list & _ & Hm).
  apply bind_Ok_inv in Hm as (playersList & _ & Hm).
  apply bind_Ok_inv in Hm as (has_icon & Ehi & Hm).
  apply bind_Ok_inv in Hm as (icon & Eicon & Hm).
  apply bind_Ok_inv in Hm as (playersOnline & _ & Hm).
  apply bind_Ok_inv in Hm as (playersMax & _ & Hm).
  pose proof (icon_closed_form _ _ _ _ Ehi Eicon) as Hicon. clear Ehi Eicon.
  bind_inv Hm. injection Hm as <-.
  closed_forms.
  unfold Script.processServerData in Hl.
  apply bind_Ok_inv in Hl as (pingValue' & _ & Hl).
  bind_inv Hl. injection Hl as <-.
  closed_forms.
  repeat match goal with E : js_or _ _ = Ok _ |- _ => clear E end.
  rewrite ?nav_object in *. unfold field2, field in *.
  cbn [lookup_prop String.eqb Ascii.eqb Bool.eqb default] in *.
  rewrite ?nav_object in *.
  cbn [lookup_prop String.eqb Ascii.eqb Bool.eqb default] in *.
  subst.
  split; [repeat constructor|split; [|split]].
  all: simpl; rewrite ?nav_object; simpl.
  all: try (simpl in Hlist; rewrite nav_object in Hlist; exact Hlist).
  all: repeat match goal with
              | |- context [truthy (nav ?v ?k)] => destruct (truthy (nav v k)) eqn:?
              end; simpl; congruence.
Qed.

(** ** What the second revision reads under other names *)

(** X7.  Where src/script.js reads protocol_name, plugins.names and
    debug.cachehit of the legacy answer, the second file reads
    protocolName and plugins and sets cacheHit to false: a legacy answer
    with protocol_name alone leaves protocolName at its default there. *)
Theorem merged_revision_reads_other_names (new old : value) merged legacy :
  Merged.processServerData new old = Ok merged →
  Script.processServerData old = Ok legacy →
  field merged "protocolName"
  = (if truthy (nav old "protocolName") then nav old "protocolName" else VStr unknown)
  ∧ field legacy "protocolName"
    = (if truthy (nav old "protocol_name") then nav old "protocol_name" else VStr unknown)
  ∧ field merged "plugins"
    = (if truthy (nav old "plugins") then nav old "plugins" else VArr [])
  ∧ field legacy "plugins"
    = (if truthy (nav (nav old "plugins") "names")
       then nav (nav old "plugins") "names" else VArr [])
  ∧ field2 merged "debug" "cacheHit" = VBool false
  ∧ field2 legacy "debug" "cacheHit"
    = (if truthy (nav (nav old "debug") "cachehit")
       then nav (nav old "debug") "cachehit" else VBool false).
Proof.
  intros Hm Hl.
  unfold Merged.processServerData in Hm.
  apply bind_Ok_inv in Hm as (pingValue & _ & Hm).
  apply bind_Ok_inv in Hm as (has_list & _ & Hm).
  apply bind_Ok_inv in Hm as (playersList & _ & Hm).
  apply bind_Ok_inv in Hm as (has_icon & _ & Hm).
  apply bind_Ok_inv in Hm as (icon & _ & Hm).
  apply bind_Ok_inv in Hm as (playersOnline & _ & Hm).
  apply bind_Ok_inv in Hm as (playersMax & _ & Hm).
  bind_inv Hm. injection Hm as <-.
  unfold Script.processServerData in Hl.
  apply bind_Ok_inv in Hl as (pingValue' & _ & Hl).
  bind_inv Hl. injection Hl as <-.
  closed_forms.
  repeat match goal with E : js_or _ _ = Ok _ |- _ => clear E end.
  subst. done.
Qed.

Lemma merged_revision_reads_other_names_witness :
  ∃ merged legacy,
    Merged.processServerData primary_online (legacy_protocol_plugins (VStr (lit "1.20.4")) (VArr [VStr (lit "Essentials")])) = Ok merged
    ∧ Script.processServerData (legacy_protocol_plugins (VStr (lit "1.20.4")) (VArr [VStr (lit "Essentials")])) = Ok legacy
    ∧ field merged "protocolName" = VStr unknown
    ∧ field legacy "protocolName" = VStr (lit "1.20.4")
    ∧ field legacy "plugins" = VArr [VStr (lit "Essentials")].
Proof.
  eexists _, _. split; [reflexivity|]. split; [reflexivity|].
  destruct (merged_revision_reads_other_names primary_online
              (legacy_protocol_plugins (VStr (lit "1.20.4")) (VArr [VStr (lit "Essentials")]))
              _ _ eq_refl eq_refl) as (H1 & H2 & _ & H4 & _).
  split; [exact H1|]. split; [exact H2 | exact H4].
Defined.

(** ** The MOTD of the second revision *)

Lemma motd_closed_form new old k1 k2 x :
  js_or (js_or (dot (Ok new) k1)
           (js_and (js_and (js_and (Ok old) (dot (Ok old) "motd"))
                           (dot (dot (Ok old) "motd") k2))
                   (idx0 (dot (dot (Ok old) "motd") k2))))
        (Ok (VStr [])) = Ok x →
  x = if truthy (nav new k1) then nav new k1
      else if truthy (nav0 (nav (nav old "motd") k2))
           then nav0 (nav (nav old "motd") k2) else VStr [].
Proof.
  intros E. js_crunch; try congruence.
  all: try (by rewrite (nav0_falsy (nav (nav old "motd") k2)) in * by done).
  all: try (by rewrite (nav0_falsy (nav (nav old "motd") k2)) in *
              by (by apply nav_falsy)).
  all: by rewrite (nav0_falsy (nav (nav old "motd") k2)) in *
         by (by apply nav_falsy, nav_falsy).
Qed.

Lemma processServerData_motd new old status :
  Merged.processServerData new old = Ok status →
  field2 status "motd" "clean"
  = VArr [if truthy (nav new "motd_clean") then nav new "motd_clean"
          else if truthy (nav0 (nav (nav old "motd") "clean"))
               then nav0 (nav (nav old "motd") "clean") else VStr []]
  ∧ field2 status "motd" "html"
    = VArr [if truthy (nav new "motd_html") then nav new "motd_html"
            else if truthy (nav0 (nav (nav old "motd") "html"))
                 then nav0 (nav (nav old "motd") "html") else VStr []].
Proof.
  intros Hm. unfold Merged.processServerData in Hm.
  apply bind_Ok_inv in Hm as (pingValue & _ & Hm).
  apply bind_Ok_inv in Hm as (has_list & _ & Hm).
  apply bind_Ok_inv in Hm as (playersList & _ & Hm).
  apply bind_Ok_inv in Hm as (has_icon & _ & Hm).
  apply bind_Ok_inv in Hm as (icon & _ & Hm).
  apply bind_Ok_inv in Hm as (playersOnline & _ & Hm).
  apply bind_Ok_inv in Hm as (playersMax & _ & Hm).
  bind_inv Hm. injection Hm as <-.
  repeat match goal with
         | E : js_or (js_or _ (js_and _ (idx0 _))) _ = Ok _ |- _ => apply motd_closed_form in E
         end.
  repeat match goal with E : js_or _ _ = Ok _ |- _ => clear E end.
  subst. done.
Qed.

(** X8.  In a status of the second file motd.html is an array of one
    entry: the primary motd_html when it is truthy, else the first legacy
    html line when there is a truthy one, else the empty string.  So
    renderMOTD of that array joins nothing: it returns the entry as a
    string. *)
Theorem merged_motd_is_one_entry {rt : Runtime} (new old : value) status :
  Merged.processServerData new old = Ok status →
  ∃ html,
    field2 status "motd" "html" = VArr [html]
    ∧ html = (if truthy (nav new "motd_html") then nav new "motd_html"
              else if truthy (nav0 (nav (nav old "motd") "html"))
                   then nav0 (nav (nav old "motd") "html") else VStr [])
    ∧ (truthy html = true ∨ html = VStr [])
    ∧ Merged.renderMOTD (field2 status "motd" "html") = ToString html
    ∧ (∀ s, html = VStr s → Merged.renderMOTD (field2 status "motd" "html") = Ok s).
Proof.
  intros Hm. destruct (processServerData_motd _ _ _ Hm) as [_ Hh].
  eexists. split; [exact Hh|]. split; [done|].
  set (html := if truthy (nav new "motd_html") then _ else _) in *.
  assert (Ht : truthy html = true ∨ html = VStr []).
  { subst html. destruct (truthy (nav new "motd_html")) eqn:E1; [by left|].
    destruct (truthy (nav0 _)) eqn:E2; [by left | by right]. }
  split; [done|].
  assert (Hr : Merged.renderMOTD (field2 status "motd" "html") = ToString html).
  { rewrite Hh. simpl. destruct Ht as [Ht | ->]; [|done].
    rewrite (truthy_not_nullish _ Ht). by destruct (ToString html). }
  split; [done|]. intros s Hs. rewrite Hr, Hs. done.
Qed.

Lemma intercalate_nil sep (lines : list jsstring) :
  sep ≠ [] → intercalate sep lines = [] → lines = [] ∨ lines = [[]].
Proof.
  intros Hsep. destruct lines as [|l [|l' r]]; simpl; [by left | by right; subst |].
  intros H. apply app_eq_nil in H as [_ H]. apply app_eq_nil in H as [H _]. done.
Qed.

Lemma intercalate_cons_nonempty sep (l : jsstring) r :
  l ≠ [] → intercalate sep (l :: r) ≠ [].
Proof.
  intros Hl. destruct r; simpl; [done|].
  intros H. by apply app_eq_nil in H as [H _].
Qed.

Lemma mapM_white_span {rt : Runtime} (lines : list jsstring) :
  mapM Merged.white_span (map VStr lines) = Ok (map VStr (map white_line lines)).
Proof. induction lines as [|s r IH]; [done|]. simpl in *. by rewrite IH. Qed.

Lemma convertOldApiToNewApiFormat_motd {rt : Runtime} old (lines : list jsstring) :
  nav (nav old "motd") "clean" = VArr (map VStr lines) → lines ≠ [] →
  ∃ fallbackData,
    Merged.convertOldApiToNewApiFormat old = Ok fallbackData
    ∧ field fallbackData "motd_clean" = VStr (intercalate [10%N] lines)
    ∧ field fallbackData "motd_html" = VStr (intercalate br (map white_line lines)).
Proof.
  intros Hclean Hlines.
  assert (Hm : truthy (nav old "motd") = true).
  { destruct (truthy (nav old "motd")) eqn:E; [done|].
    apply (nav_falsy _ "clean") in E. by rewrite Hclean in E. }
  assert (Ho : truthy old = true).
  { destruct (truthy old) eqn:E; [done|].
    apply (nav_falsy _ "motd") in E. congruence. }
  assert (Hn : nullish old = false) by by apply truthy_not_nullish.
  assert (Hhas :
    (js_and (js_and (dot (Ok old) "motd") (dot (dot (Ok old) "motd") "clean"))
       (len ← dot (dot (dot (Ok old) "motd") "clean") "length"; VBool <$> gt_zero len))
    = Ok (VBool true)).
  { unfold js_and, dot. simpl. rewrite (get_nav old "motd" Hn). simpl. rewrite Hm.
    rewrite (get_truthy _ "clean" Hm), Hclean. simpl.
    destruct lines as [|l r]; [done|]. done. }
  assert (Hrest : ∀ motdClean motdHtml,
    returns
      (online ← js_or (dot (Ok old) "online") (Ok (VBool false));
       ip ← js_or (dot (Ok old) "ip") (Ok (VStr unknown));
       port ← js_or (dot (Ok old) "port") (Ok (VStr unknown));
       hostname ← js_or (dot (Ok old) "hostname") (Ok (VStr unknown));
       players ← js_cond (dot (Ok old) "players") (dot (dot (Ok old) "players") "online")
                   (Ok (VNum 0));
       max_players ← js_cond (dot (Ok old) "players") (dot (dot (Ok old) "players") "max")
                       (Ok (VNum 0));
       version ← js_or (dot (Ok old) "version") (Ok (VStr unknown));
       favicon_url ← js_or (dot (Ok old) "icon") (Ok VNull);
       Ok [ ("code", VNum 200); ("online", online); ("ip", ip); ("port", port);
            ("hostname", hostname); ("players", players); ("max_players", max_players);
            ("version", version); ("motd_clean", motdClean); ("motd_html", motdHtml);
            ("favicon_url", favicon_url) ])).
  { intros. repeat returns_step false. apply returns_Ok. }
  unfold Merged.convertOldApiToNewApiFormat. rewrite Hhas.
  cbn [mbind result_bind truthy].
  assert (Hc : dot (dot (Ok old) "motd") "clean" = Ok (VArr (map VStr lines))).
  { unfold dot. simpl. rewrite (get_nav old "motd" Hn). simpl.
    by rewrite (get_truthy _ "clean" Hm), Hclean. }
  rewrite Hc.
  cbn [mbind result_bind Merged.call_join Merged.call_map].
  rewrite join_strings. cbn [fmap result_fmap mbind result_bind].
  rewrite mapM_white_span. cbn [fmap result_fmap mbind result_bind Merged.call_join].
  rewrite join_strings. cbn [fmap result_fmap mbind result_bind].
  destruct (Hrest (VStr (intercalate [10%N] lines))
              (VStr (intercalate br (map white_line lines)))) as [fb Hfb].
  exists fb. split; [exact Hfb|].
  clear -Hfb. bind_inv Hfb. by injection Hfb as <-.
Qed.

Lemma open_spans_white_line line s d :
  Forall (λ c, c ≠ 60%N) line →
  open_spans (white_line line ++ s) d = open_spans s d.
Proof.
  intros Hline.
  assert (white_line line ++ s
          = lit "<span" ++ (lit " style=" ++ quote ++ lit "color: #ffffff" ++ quote ++ lit ">")
            ++ (line ++ (lit "</span>" ++ s))) as ->.
  { unfold white_line.
    change (lit "<span style=") with (lit "<span" ++ lit " style=").
    by rewrite <- !app_assoc. }
  rewrite open_spans_open by by repeat constructor.
  rewrite open_spans_text by done. apply open_spans_close.
Qed.

Lemma open_spans_white_lines (lines : list jsstring) d :
  Forall (Forall (λ c, c ≠ 60%N)) lines →
  open_spans (intercalate br (map white_line lines)) d = Some d.
Proof.
  induction 1 as [|line lines Hline Hrest IH]; [done|].
  destruct lines as [|line' lines]; cbn [map intercalate].
  - rewrite <- (app_nil_r (white_line line)). by rewrite open_spans_white_line.
  - rewrite open_spans_white_line by done. rewrite open_spans_br. apply IH.
Qed.

(** ** The fallback as a whole *)

Lemma cond_default v k1 k2 d x :
  js_cond (dot (Ok v) k1) (dot (dot (Ok v) k1) k2) (Ok d) = Ok x →
  x = if truthy (nav v k1) then nav (nav v k1) k2 else d.
Proof. intros E. js_crunch; try congruence. Qed.

Lemma no_motd_lines {rt : Runtime} old has_motd :
  js_and (js_and (dot (Ok old) "motd") (dot (dot (Ok old) "motd") "clean"))
    (len ← dot (dot (dot (Ok old) "motd") "clean") "length"; VBool <$> gt_zero len)
  = Ok has_motd →
  truthy (nav (nav old "motd") "clean") = false ∨ nav (nav old "motd") "clean" = VArr [] →
  truthy has_motd = false.
Proof.
  intros E Hc. js_crunch. destruct Hc as [?| Hc]; [done|].
  rewrite Hc in E. simpl in E. by injection E as <-.
Qed.

(** The record that convertOldApiToNewApiFormat returns, property by
    property. *)
Lemma convertOldApiToNewApiFormat_fields {rt : Runtime} old fallbackData :
  Merged.convertOldApiToNewApiFormat old = Ok fallbackData →
  ∃ motdClean motdHtml,
    fallbackData
    = [ ("code", VNum 200);
        ("online", if truthy (nav old "online") then nav old "online" else VBool false);
        ("ip", if truthy (nav old "ip") then nav old "ip" else VStr unknown);
        ("port", if truthy (nav old "port") then nav old "port" else VStr unknown);
        ("hostname", if truthy (nav old "hostname") then nav old "hostname"
                     else VStr unknown);
        ("players", if truthy (nav old "players") then nav (nav old "players") "online"
                    else VNum 0);
        ("max_players", if truthy (nav old "players") then nav (nav old "players") "max"
                        else VNum 0);
        ("version", if truthy (nav old "version") then nav old "version"
                    else VStr unknown);
        ("motd_clean", motdClean); ("motd_html", motdHtml);
        ("favicon_url", if truthy (nav old "icon") then nav old "icon" else VNull) ]
    ∧ (truthy (nav (nav old "motd") "clean") = false
       ∨ nav (nav old "motd") "clean" = VArr [] →
       motdClean = VStr [] ∧ motdHtml = VStr []).
Proof.
  intros H. unfold Merged.convertOldApiToNewApiFormat in H.
  apply bind_Ok_inv in H as (has_motd & Ehas & H).
  apply bind_Ok_inv in H as ([motdClean motdHtml] & Emotd & H).
  bind_inv H. injection H as <-.
  exists motdClean, motdHtml. split.
  - clear Ehas Emotd. closed_forms.
    repeat match goal with
           | E : js_cond _ _ _ = Ok _ |- _ => apply cond_default in E
           end.
    by subst.
  - intros Hc. rewrite (no_motd_lines old has_motd Ehas Hc) in Emotd.
    by injection Emotd as <- <-.
Qed.

(** C3.  The primary response is used exactly when the request was made
    and answered with a 2xx status and a JSON object whose code is 200 and
    whose online field is defined; the refresh then merges it with the
    legacy answer (or with nothing, when it reports the server offline).
    Otherwise the refresh asks the legacy API, turns its answer into a
    record with the primary's properties, each computed from the answer,
    and merges that with the answer itself; it fails when the legacy
    request or that processing fails.  With the primary unusable and a
    legacy answer {online:true, players:{online:3,max:20}} the status has
    online = true, players.online = 3 and players.max = 20. *)
Theorem primary_validity_and_fallback {rt : Runtime} (net : request → response) (a : jsstring) :
  (∀ r, primary_usable r = true ↔
     ∃ status props code online,
       r = Http status (Some (VObj props)) ∧ ok status = true
       ∧ lookup_prop "code" props = Some (VNum code) ∧ Qeq_bool code 200 = true
       ∧ lookup_prop "online" props = Some online ∧ online ≠ VUndef)
  ∧ (primary_used net a = true ↔
     encodable a = true ∧ primary_usable (net (GetPrimary a)) = true)
  ∧ (primary_used net a = true →
     ∃ props,
       Merged.json_or_null (net (GetPrimary a)) = VObj props
       ∧ Merged.fetchServerStatus net a
         = if truthy (field props "online")
           then ([GetPrimary a; GetLegacy a],
                 Merged.processServerData (VObj props)
                   (Merged.json_or_null (net (GetLegacy a))))
           else ([GetPrimary a], Merged.processServerData (VObj props) VNull))
  ∧ (primary_used net a = false →
     Merged.fetchServerStatus net a
     = (primary_requests a ++ [GetLegacy a],
        try_catch
          (oldApiData ← fetch_json (net (GetLegacy a)) (λ status, Throw (HttpStatusError status));
           fallbackData ← Merged.convertOldApiToNewApiFormat oldApiData;
           Merged.processServerData (VObj fallbackData) oldApiData)
          (λ _, Throw NoStatusAvailable)))
  ∧ (∀ old fallbackData,
       Merged.convertOldApiToNewApiFormat old = Ok fallbackData →
       (∃ motdClean motdHtml,
          fallbackData
          = [ ("code", VNum 200);
              ("online", if truthy (nav old "online") then nav old "online" else VBool false);
              ("ip", if truthy (nav old "ip") then nav old "ip" else VStr unknown);
              ("port", if truthy (nav old "port") then nav old "port" else VStr unknown);
              ("hostname", if truthy (nav old "hostname") then nav old "hostname"
                           else VStr unknown);
              ("players", if truthy (nav old "players")
                          then nav (nav old "players") "online" else VNum 0);
              ("max_players", if truthy (nav old "players")
                              then nav (nav old "players") "max" else VNum 0);
              ("version", if truthy (nav old "version") then nav old "version"
                          else VStr unknown);
              ("motd_clean", motdClean); ("motd_html", motdHtml);
              ("favicon_url", if truthy (nav old "icon") then nav old "icon" else VNull) ]
          ∧ (truthy (nav (nav old "motd") "clean") = false
             ∨ nav (nav old "motd") "clean" = VArr [] →
             motdClean = VStr [] ∧ motdHtml = VStr []))
       ∧ primary_usable (json (VObj fallbackData)) = true)
  ∧ (∀ old lines,
       nav (nav old "motd") "clean" = VArr (map VStr lines) → lines ≠ [] →
       ∃ fallbackData,
         Merged.convertOldApiToNewApiFormat old = Ok fallbackData
         ∧ field fallbackData "motd_clean" = VStr (intercalate [10%N] lines)
         ∧ field fallbackData "motd_html" = VStr (intercalate br (map white_line lines)))
  ∧ (primary_used net a = false →
     net (GetLegacy a) = json legacy_3_of_20 →
     ∃ status,
       Merged.fetchServerStatus net a = (primary_requests a ++ [GetLegacy a], Ok status)
       ∧ field status "online" = VBool true
       ∧ field2 status "players" "online" = VNum 3
       ∧ field2 status "players" "max" = VNum 20).
Proof.
  split; [apply primary_usable_iff|].
  split; [apply andb_true_iff|].
  split; [apply fetchServerStatus_usable|].
  split; [apply fetchServerStatus_unusable|].
  split.
  { intros old fallbackData H. split.
    - by apply convertOldApiToNewApiFormat_fields.
    - by eapply convertOldApiToNewApiFormat_primary_shaped. }
  split; [apply @convertOldApiToNewApiFormat_motd|].
  intros Hu Hl. rewrite (fetchServerStatus_unusable net a Hu), Hl.
  eexists. split; [reflexivity|]. by vm_compute.
Qed.

Lemma primary_validity_and_fallback_witness :
  ∃ status,
    @Merged.fetchServerStatus no_coercion (net_of NetworkError (json legacy_3_of_20)) play1
    = ([GetPrimary play1; GetLegacy play1], Ok status)
    ∧ field2 status "players" "online" = VNum 3.
Proof.
  destruct (@primary_validity_and_fallback no_coercion
              (net_of NetworkError (json legacy_3_of_20)) play1)
    as (_ & _ & _ & _ & _ & _ & H).
  destruct H as (status & Hs & _ & Hp & _); [reflexivity | reflexivity |].
  exists status. split; [exact Hs | exact Hp].
Defined.

(** X9.  On the fallback path a legacy answer with clean MOTD lines
    l1, ..., ln (n > 0) gives motd.clean = [l1 + "\n" + ... + ln] and
    motd.html = [the lines, each in a span of colour #ffffff, joined with
    "<br>"]; renderMOTD returns that markup, which is balanced when no
    line contains '<'. *)
Theorem fallback_motd_is_white_spans {rt : Runtime} (net : request → response)
    (a : jsstring) code old (lines : list jsstring) :
  primary_used net a = false →
  net (GetLegacy a) = Http code (Some old) → ok code = true →
  nav (nav old "motd") "clean" = VArr (map VStr lines) → lines ≠ [] →
  ∃ status,
    Merged.fetchServerStatus net a = (primary_requests a ++ [GetLegacy a], Ok status)
    ∧ field2 status "motd" "clean" = VArr [VStr (intercalate [10%N] lines)]
    ∧ field2 status "motd" "html" = VArr [VStr (intercalate br (map white_line lines))]
    ∧ Merged.renderMOTD (field2 status "motd" "html")
      = Ok (intercalate br (map white_line lines))
    ∧ (Forall (Forall (λ c, c ≠ 60%N)) lines →
       balanced (intercalate br (map white_line lines))).
Proof.
  intros Hu Hnet Hok Hclean Hlines.
  destruct (convertOldApiToNewApiFormat_motd old lines Hclean Hlines)
    as (fb & Hfb & Hmc & Hmh).
  destruct (processServerData_returns (VObj fb) old eq_refl) as [status Hs].
  exists status.
  assert (Hfetch : Merged.fetchServerStatus net a
                   = (primary_requests a ++ [GetLegacy a], Ok status)).
  { rewrite (fetchServerStatus_unusable net a Hu), Hnet. unfold fetch_json. rewrite Hok.
    cbn [mbind result_bind]. rewrite Hfb. cbn [mbind result_bind]. by rewrite Hs. }
  split; [done|].
  destruct (processServerData_motd _ _ _ Hs) as [Hc Hh].
  rewrite nav_object in Hc, Hh. fold (field fb "motd_clean") in Hc.
  fold (field fb "motd_html") in Hh. rewrite Hmc in Hc. rewrite Hmh in Hh.
  rewrite Hclean in Hc.
  assert (Hhtml : truthy (VStr (intercalate br (map white_line lines))) = true).
  { destruct lines as [|l r]; [done|]. simpl map.
    apply negb_true_iff, bool_decide_eq_false. by apply intercalate_cons_nonempty. }
  rewrite Hhtml in Hh.
  assert (Hcl : field2 status "motd" "clean" = VArr [VStr (intercalate [10%N] lines)]).
  { rewrite Hc. destruct (truthy (VStr (intercalate [10%N] lines))) eqn:E; [done|].
    apply negb_false_iff, bool_decide_eq_true in E.
    destruct (intercalate_nil [10%N] lines) as [-> | ->]; done. }
  split; [done|]. split; [done|]. split.
  - rewrite Hh. done.
  - apply open_spans_white_lines.
Qed.

Lemma fallback_motd_is_white_spans_witness :
  ∃ status,
    @Merged.fetchServerStatus no_coercion (net_of NetworkError (json legacy_two_lines)) play1
    = ([GetPrimary play1; GetLegacy play1], Ok status)
    ∧ @Merged.renderMOTD no_coercion (field2 status "motd" "html")
      = Ok (white_line (lit "Welcome") ++ br ++ white_line (lit "Have fun")).
Proof.
  destruct (@fallback_motd_is_white_spans no_coercion
              (net_of NetworkError (json legacy_two_lines))
              play1 200 legacy_two_lines [lit "Welcome"; lit "Have fun"])
    as (status & Hs & _ & _ & Hr & _); [reflexivity ..| discriminate |].
  exists status. split; [exact Hs | exact Hr].
Defined.

(** ** The wrapping of rendered lines *)

Lemma startsWith_app_l s t p :
  Script.startsWith s p = true → Script.startsWith (s ++ t) p = true.
Proof.
  intros H. apply bool_decide_eq_true in H. apply bool_decide_eq_true.
  assert (length p ≤ length s)%nat.
  { rewrite <- H at 1. rewrite length_take. lia. }
  by rewrite take_app_le.
Qed.

Lemma endsWith_app s p : Script.endsWith (s ++ p) p = true.
Proof.
  apply bool_decide_eq_true. rewrite length_app.
  replace (length s + length p - length p)%nat with (length s) by lia.
  by rewrite drop_app_length.
Qed.

Lemma endsWith_app_r s t p :
  Script.endsWith t p = true → Script.endsWith (s ++ t) p = true.
Proof.
  intros H. apply endsWith_true in H as [x ->].
  rewrite app_assoc. apply endsWith_app.
Qed.

Lemma intercalate_wrapped sep (lines : list jsstring) p q :
  lines ≠ [] →
  Forall (λ s, Script.startsWith s p = true ∧ Script.endsWith s q = true) lines →
  Script.startsWith (intercalate sep lines) p = true
  ∧ Script.endsWith (intercalate sep lines) q = true.
Proof.
  intros Hne H. induction H as [|s r [Hs He] Hr IH]; [done|].
  destruct r as [|s' r]; [done|].
  destruct IH as [_ IH]; [done|].
  change (intercalate sep (s :: s' :: r)) with (s ++ sep ++ intercalate sep (s' :: r)).
  split; [by apply startsWith_app_l|].
  by apply endsWith_app_r, endsWith_app_r.
Qed.

(** X10.  renderMOTD of src/script.js on a non-empty array of strings:
    every rendered line, and so the whole result, starts with "<span" and
    ends with "</span>". *)
Theorem rendered_motd_is_wrapped {rt : Runtime} (lines : list jsstring) :
  lines ≠ [] →
  ∃ s, Script.renderMOTD (VArr (map VStr lines)) = Ok s
    ∧ Script.startsWith s (lit "<span") = true
    ∧ Script.endsWith s (lit "</span>") = true
    ∧ Forall (λ line,
                Script.startsWith (Script.render_line line) (lit "<span") = true
                ∧ Script.endsWith (Script.render_line line) (lit "</span>") = true) lines.
Proof.
  intros Hne. eexists. split.
  { unfold Script.renderMOTD. rewrite mapM_render_strings. simpl. by rewrite join_strings. }
  assert (Hall : Forall (λ s, Script.startsWith s (lit "<span") = true
                              ∧ Script.endsWith s (lit "</span>") = true)
                   (map Script.render_line lines)).
  { apply Forall_map, Forall_forall. intros line _. apply render_line_wrapped. }
  destruct (intercalate_wrapped br (map Script.render_line lines)
              (lit "<span") (lit "</span>")) as [H1 H2];
    [by destruct lines | done |].
  split; [done|]. split; [done|].
  apply Forall_forall. intros line _. apply render_line_wrapped.
Qed.

Lemma rendered_motd_is_wrapped_witness :
  ∃ s, @Script.renderMOTD no_coercion (VArr (map VStr [hello_reset_world; lit "second line"])) = Ok s
    ∧ Script.startsWith s (lit "<span") = true
    ∧ Script.endsWith s (lit "</span>") = true.
Proof.
  destruct (@rendered_motd_is_wrapped no_coercion [hello_reset_world; lit "second line"])
    as (s & Hs & H1 & H2 & _); [discriminate|].
  exists s. split; [exact Hs|]. split; [exact H1 | exact H2].
Defined.

(** X11.  A line that starts with a colour marker is rendered with an
    empty span in front: the replacement writes a closing tag first, which
    does not count as a start, so "<span>" is put before it. *)
Theorem leading_marker_leaves_an_empty_span (code : N) (rest : jsstring) :
  Script.is_color_code code = true →
  ∃ tail,
    Script.render_line (Script.section_sign :: code :: rest)
    = lit "<span></span><span class=" ++ quote ++ lit "mc-color-" ++ [code] ++ quote
      ++ lit ">" ++ tail.
Proof.
  intros Hcode. unfold Script.render_line. rewrite replace_resets_dead.
  change (Script.replace_colors (Script.section_sign :: code :: rest))
    with (if (Script.section_sign =? Script.section_sign)%N && Script.is_color_code code
          then Script.color_span code ++ Script.replace_colors rest
          else Script.section_sign :: Script.replace_colors (code :: rest)).
  rewrite Hcode. cbn [andb N.eqb Script.section_sign Pos.eqb].
  assert (Script.startsWith (Script.color_span code ++ Script.replace_colors rest)
            (lit "<span") = false) as ->.
  { apply bool_decide_eq_false. intros Heq.
    apply (f_equal (λ l, l !! 1%nat)) in Heq. by vm_compute in Heq. }
  cbn [negb].
  destruct (negb _).
  - exists (Script.replace_colors rest ++ lit "</span>").
    unfold Script.color_span. by rewrite <- !app_assoc.
  - exists (Script.replace_colors rest).
    unfold Script.color_span. by rewrite <- !app_assoc.
Qed.

Lemma leading_marker_leaves_an_empty_span_witness :
  ∃ tail,
    Script.render_line (Script.section_sign :: 97%N :: lit "Hello")
    = lit "<span></span><span class=" ++ quote ++ lit "mc-color-" ++ [97%N] ++ quote
      ++ lit ">" ++ tail.
Proof. apply leading_marker_leaves_an_empty_span. reflexivity. Defined.

(** ** The cache across calls *)

Lemma getServerStatus_requests fetchServerStatus a now this :
  (getServerStatus fetchServerStatus a now this).1.1
  = if is_fresh this a now then [] else (fetchServerStatus a).1.
Proof.
  unfold getServerStatus, is_fresh.
  destruct (fetchServerStatus a) as [requests [freshData|error]];
    destruct (cache this !! a) as [c|]; try case_bool_decide; simpl; try done;
    by destruct (alloc_object freshData (store this)).
Qed.

Lemma getServerStatus_cache fetchServerStatus a now this :
  cache (getServerStatus fetchServerStatus a now this).2
  = if is_fresh this a now then cache this
    else match (fetchServerStatus a).2 with
         | Ok freshData =>
             <[a := {| data := (alloc_object freshData (store this)).1; timestamp := now |}]>
               (cache this)
         | Throw _ => cache this
         end.
Proof.
  unfold getServerStatus, is_fresh.
  destruct (fetchServerStatus a) as [requests [freshData|error]];
    destruct (cache this !! a) as [c|]; try case_bool_decide; simpl; try done;
    by destruct (alloc_object freshData (store this)).
Qed.

Lemma getServerStatus_store fetchServerStatus a now this :
  ∃ ext, store (getServerStatus fetchServerStatus a now this).2 = store this ++ ext.
Proof.
  unfold getServerStatus.
  destruct (fetchServerStatus a) as [requests [freshData|error]];
    destruct (cache this !! a) as [c|]; try case_bool_decide; simpl;
    try (by eexists); try (by exists []; rewrite app_nil_r);
    destruct (alloc_object_spec freshData (store this)) as (ext & Hext & _);
    destruct (alloc_object freshData (store this)) as [d h]; simpl in *; subst h;
    eexists; by rewrite <- app_assoc.
Qed.

(** X12.  A call of getServerStatus leaves the entries of all other
    addresses as they are and removes none; the entry of its own address
    is unchanged, or replaced by one stamped with the time of the call
    after a refresh that succeeded; the store only grows. *)
Theorem getServerStatus_touches_one_entry
    (fetchServerStatus : jsstring → list request * result (list (string * value)))
    (a : jsstring) (now : Z) (this : ServerStatusManager) :
  let r := getServerStatus fetchServerStatus a now this in
  (∀ a', a' ≠ a → cache r.2 !! a' = cache this !! a')
  ∧ (∀ a', is_Some (cache this !! a') → is_Some (cache r.2 !! a'))
  ∧ (cache r.2 !! a = cache this !! a
     ∨ ∃ d, cache r.2 !! a = Some {| data := d; timestamp := now |}
          ∧ is_fresh this a now = false ∧ returns (fetchServerStatus a).2)
  ∧ (∃ ext, store r.2 = store this ++ ext).
Proof.
  intros r. subst r. rewrite getServerStatus_cache.
  split; [|split; [|split]].
  - intros a' Hne. destruct (is_fresh this a now); [done|].
    destruct (fetchServerStatus a).2; [|done]. by rewrite lookup_insert_ne.
  - intros a' Hsome. destruct (is_fresh this a now); [done|].
    destruct (fetchServerStatus a).2; [|done].
    destruct (decide (a = a')) as [<-|Hne].
    + rewrite lookup_insert_eq. by eexists.
    + by rewrite lookup_insert_ne.
  - destruct (is_fresh this a now); [by left|].
    destruct (fetchServerStatus a).2 as [freshData|]; [|by left].
    right. eexists. rewrite lookup_insert_eq. split; [done|]. split; [done|]. by eexists.
  - apply getServerStatus_store.
Qed.

(** X13.  A failed refresh is not remembered: it leaves the cache as it
    was, so every later call for the address issues the requests of a
    refresh again. *)
Theorem failed_refresh_is_retried
    (fetch1 fetch2 : jsstring → list request * result (list (string * value)))
    (a : jsstring) (t0 t1 : Z) (this : ServerStatusManager) (e : exn) :
  is_fresh this a t0 = false → (fetch1 a).2 = Throw e → t0 ≤ t1 →
  let first := getServerStatus fetch1 a t0 this in
  cache first.2 = cache this
  ∧ is_fresh first.2 a t1 = false
  ∧ (getServerStatus fetch2 a t1 first.2).1.1 = (fetch2 a).1.
Proof.
  intros Hf He Ht first. subst first.
  assert (Hc : cache (getServerStatus fetch1 a t0 this).2 = cache this).
  { by rewrite getServerStatus_cache, Hf, He. }
  assert (Hf' : is_fresh (getServerStatus fetch1 a t0 this).2 a t1 = false).
  { unfold is_fresh in *. rewrite Hc. destruct (cache this !! a) as [c|]; [|done].
    apply bool_decide_eq_false in Hf. apply bool_decide_eq_false. lia. }
  split; [done|]. split; [done|]. by rewrite getServerStatus_requests, Hf'.
Qed.

Lemma failed_refresh_is_retried_witness :
  (getServerStatus fetch_up play1 50000 (getServerStatus fetch_down play1 40000 warm).2).1.1
  = (fetch_up play1).1.
Proof.
  refine (proj2 (proj2 (failed_refresh_is_retried fetch_down fetch_up play1 40000 50000 warm
                          NoStatusAvailable _ _ _))).
  - vm_compute. reflexivity.
  - vm_compute. reflexivity.
  - lia.
Defined.

(** X14.  The requests of a call: none while the entry is less than
    30,000 ms old, and also when its time stamp lies in the future; those
    of a refresh from exactly 30,000 ms on and when there is no entry. *)
Theorem entry_expires_at_the_timeout
    (fetchServerStatus : jsstring → list request * result (list (string * value)))
    (a : jsstring) (now : Z) (this : ServerStatusManager) :
  let requests := (getServerStatus fetchServerStatus a now this).1.1 in
  (cache this !! a = None → requests = (fetchServerStatus a).1)
  ∧ (∀ c, cache this !! a = Some c →
       (now - timestamp c < 30000 → requests = [])
       ∧ (30000 ≤ now - timestamp c → requests = (fetchServerStatus a).1)
       ∧ (now = timestamp c + 30000 → requests = (fetchServerStatus a).1)
       ∧ (now ≤ timestamp c → requests = [])).
Proof.
  intros requests. subst requests. rewrite getServerStatus_requests. unfold is_fresh.
  split; [by intros ->|]. intros c ->. unfold cacheTimeout.
  repeat split; intros; case_bool_decide; done || lia.
Qed.

Lemma measured_latency_is_kept_apart_witness :
  ∃ status,
    Script.fetchServerStatus (net_of NetworkError (json legacy_full)) probe_42 play1
    = ([GetLegacy play1; Probe play1], Ok status)
    ∧ field2 status "debug" "realPing" = VNum 42
    ∧ field2 status "debug" "ping" = VNull.
Proof.
  eexists. split; [reflexivity|].
  destruct (measured_latency_is_kept_apart
              (net_of NetworkError (json legacy_full)) probe_42 play1 _ _ eq_refl)
    as (code & data & processed & Hnet & _ & Hp & _ & _ & Hdebug & Hreal).
  injection Hnet as <- <-. injection Hp as <-.
  split; [exact Hreal|]. exact (Hdebug "ping" ltac:(discriminate)).
Defined.

Lemma fallback_agrees_with_first_revision_witness :
  ∃ fallbackData merged legacy,
    @Merged.convertOldApiToNewApiFormat no_coercion legacy_full = Ok fallbackData
    ∧ Merged.processServerData (VObj fallbackData) legacy_full = Ok merged
    ∧ Script.processServerData legacy_full = Ok legacy
    ∧ field2 merged "players" "list" = field2 legacy "players" "list".
Proof.
  eexists _, _. 
  destruct (@fallback_agrees_with_first_revision no_coercion legacy_full _ _ eq_refl eq_refl)
    as (legacy & Hl & _ & Hlist & _).
  exists legacy. split; [reflexivity|]. split; [reflexivity|]. split; [exact Hl | exact Hlist].
Defined.

Lemma merged_motd_is_one_entry_witness :
  ∃ status html,
    Merged.processServerData primary_motd VNull = Ok status
    ∧ field2 status "motd" "html" = VArr [html]
    ∧ @Merged.renderMOTD no_coercion (field2 status "motd" "html") = @ToString no_coercion html.
Proof.
  eexists.
  destruct (@merged_motd_is_one_entry no_coercion primary_motd VNull _ eq_refl)
    as (html & Hh & _ & _ & Hr & _).
  exists html. split; [reflexivity|]. split; [exact Hh | exact Hr].
Defined.

(** ** The server card *)




Lemma handed_out_field status fromCache error k :
  k ≠ "fromCache" → k ≠ "error" →
  field (handed_out status fromCache error) k = field status k.
Proof.
  intros H1 H2. unfold handed_out, field. destruct error; by rewrite !lookup_set_prop_ne.
Qed.



Lemma reachable_ping_null {rt : Runtime} this :
  reachable this → cache_holds (λ status, field2 status "debug" "ping" = VNull) this.
Proof.
  induction 1 as [|net a now this _ IH].
  - intros a c Hc. simpl in Hc. by rewrite lookup_empty in Hc.
  - apply getServerStatus_preserves; [|done].
    intros requests status. apply fetchServerStatus_ping.
Qed.

Lemma latency_ping_null {rt : Runtime} isOn status :
  field2 status "debug" "ping" = VNull → defined (field status "debug") = true →
  nullish (field status "debug") = false →
  Card.latency isOn (VObj status) = Ok (if truthy isOn then lit "< 100ms" else lit "--").
Proof.
  intros Hp _ Hn. unfold Card.latency. destruct (truthy isOn); [|done].
  unfold dot. cbn [get mbind result_bind]. fold (field status "debug").
  rewrite (get_nav _ "ping" Hn). fold (field2 status "debug" "ping"). by rewrite Hp.
Qed.

(** X16.  The page of the second file never shows a latency: for every
    status that its getServerStatus returns, the card's latency cell reads
    "< 100ms" when the status counts as online and "--" otherwise. *)
Theorem second_file_shows_no_latency {rt : Runtime} (net : request → response)
    (a : jsstring) (now : Z) (this : ServerStatusManager) (l : loc) :
  reachable this →
  (getServerStatus (Merged.fetchServerStatus net) a now this).1.2 = Ok l →
  ∃ status,
    status_at (store (getServerStatus (Merged.fetchServerStatus net) a now this).2) l status
    ∧ ∀ isOn, Card.latency isOn (VObj status)
              = Ok (if truthy isOn then lit "< 100ms" else lit "--").
Proof.
  intros Hreach Hok.
  destruct (getServerStatus_hands_out_copy _
              (λ status, unflagged status ∧ field2 status "debug" "ping" = VNull) _ _ _ _
              (λ requests status H,
                 conj (fetchServerStatus_unflagged net a requests status H)
                      (fetchServerStatus_ping net a requests status H))
              ltac:(intros a' c Hc;
                    destruct (reachable_cache_holds _ Hreach a' c Hc) as (s & Hs & Hu);
                    destruct (reachable_ping_null _ Hreach a' c Hc) as (s' & Hs' & Hp);
                    exists s; split; [done|]; split; [done|];
                    by rewrite (status_at_unique _ _ _ _ Hs Hs')) Hok)
    as (h & ext & c & status & fc & err & _ & _ & _ & _ & _ & _
        & ((Hcan & _) & Hping) & Hat & _).
  exists (handed_out status fc err). split; [done|]. intros isOn.
  assert (Hd : ∃ debug, field status "debug" = VObj debug).
  { unfold canonical in Hcan. unfold field.
    destruct (lookup_prop "debug" status) as [[| | | | | |debug|]|];
      try (simpl in Hcan; rewrite ?andb_false_r in Hcan; done).
    by eexists. }
  destruct Hd as [debug Hd].
  apply latency_ping_null.
  - unfold field2 in *. by rewrite handed_out_field.
  - by rewrite handed_out_field, Hd.
  - by rewrite handed_out_field, Hd.
Qed.

Lemma second_file_shows_no_latency_witness :
  ∃ status,
    status_at (store (getServerStatus fetch_up play1 1000 warm).2) 10 status
    ∧ @Card.latency no_coercion (VBool true) (VObj status) = Ok (lit "< 100ms").
Proof.
  destruct (@second_file_shows_no_latency no_coercion
              (net_of (json primary_online) (json legacy_full)) play1 1000 warm 10%nat)
    as (status & Hat & Hl).
  - exact (reachable_call (rt := no_coercion) _ play1 0 constructor reachable_new).
  - vm_compute. reflexivity.
  - exists status. split; [exact Hat | exact (Hl (VBool true))].
Defined.

Lemma script_fetchServerStatus_probe net probe1 probe2 a r1 r2 s1 s2 :
  Script.fetchServerStatus net probe1 a = (r1, Ok s1) →
  Script.fetchServerStatus net probe2 a = (r2, Ok s2) →
  (∀ k, k ≠ "debug" → field s1 k = field s2 k)
  ∧ (∀ k, k ≠ "realPing" → field2 s1 "debug" k = field2 s2 "debug" k)
  ∧ populated s1 ∧ populated s2.
Proof.
  rewrite (script_fetchServerStatus_no_json net probe1), (script_fetchServerStatus_no_json net probe2).
  destruct (net (GetLegacy a)) as [|code [data|]] eqn:Hnet; [done| |by destruct (ok code)].
  destruct (ok code) eqn:Hok; [|done].
  rewrite !(script_fetchServerStatus_json _ _ _ _ _ Hnet Hok).
  destruct (Script.processServerData data) as [processed|] eqn:Hp; [|done].
  pose proof (script_processServerData_populated _ _ Hp) as Hpop.
  assert (Hone : ∀ probe r s,
    (if truthy (nav data "online")
     then ([GetLegacy a; Probe a],
           realPing ← probe a;
           match realPing with
           | Some ms => Script.set_realPing (inject_Z ms) processed
           | None => Ok processed
           end)
     else ([GetLegacy a], Ok processed)) = (r, Ok s) →
    (∀ k, k ≠ "debug" → field s k = field processed k)
    ∧ (∀ k, k ≠ "realPing" → field2 s "debug" k = field2 processed "debug" k)
    ∧ populated s).
  { intros probe r s. destruct (truthy (nav data "online")); [|by intros [= _ <-]].
    destruct (probe a) as [[ms|]|]; simpl; [| by intros [= _ <-] | done].
    intros [= _ Hs]. by destruct (set_realPing_spec _ _ _ Hpop Hs) as (? & ? & ? & _). }
  intros H1 H2. destruct (Hone _ _ _ H1) as (Ha1 & Hb1 & Hc1).
  destruct (Hone _ _ _ H2) as (Ha2 & Hb2 & Hc2).
  split; [|split; [|done]].
  - intros k Hk. by rewrite Ha1, Ha2.
  - intros k Hk. by rewrite Hb1, Hb2.
Qed.

Lemma card_depends {rt : Runtime} (renderMOTD : value → result jsstring) server ps ps' :
  (∀ k, k ≠ "debug" → field ps k = field ps' k) →
  get (field ps "debug") "ping" = get (field ps' "debug") "ping" →
  Card.generateServerCardHTML renderMOTD server (VObj ps)
  = Card.generateServerCardHTML renderMOTD server (VObj ps').
Proof.
  intros Hf Hd.
  assert (Hg : ∀ k, k ≠ "debug" → get (VObj ps) k = get (VObj ps') k).
  { intros k Hk. cbn [get]. fold (field ps k) (field ps' k). by rewrite Hf. }
  assert (Hdot : dot (get (VObj ps) "debug") "ping" = dot (get (VObj ps') "debug") "ping").
  { unfold dot. cbn [get mbind result_bind]. exact Hd. }
  unfold Card.generateServerCardHTML, Card.isOnline, Card.playerCount, Card.latency,
    Card.version, Card.motdHTML, Card.cacheIndicator, Card.icon, Card.statusText.
  rewrite Hdot.
  rewrite (Hg "online"), (Hg "error"), (Hg "players"), (Hg "version"), (Hg "motd"),
    (Hg "fromCache"), (Hg "icon") by done.
  reflexivity.
Qed.

Lemma handed_out_fields s1 s2 fromCache error :
  (∀ k, k ≠ "debug" → field s1 k = field s2 k) →
  ∀ k, k ≠ "debug" →
    field (handed_out s1 fromCache error) k = field (handed_out s2 fromCache error) k.
Proof.
  intros H k Hk.
  destruct (decide (k = "fromCache")) as [->|H1].
  { by rewrite !handed_out_fromCache. }
  destruct (decide (k = "error")) as [->|H2].
  { rewrite !handed_out_error. destruct error; [done|]. by apply H. }
  rewrite !handed_out_field by done. by apply H.
Qed.

Lemma populated_debug status :
  populated status → ∃ debug, field status "debug" = VObj debug.
Proof.
  intros ((Hcan & _) & _). unfold canonical in Hcan. unfold field.
  destruct (lookup_prop "debug" status) as [[| | | | | |debug|]|];
    try (simpl in Hcan; rewrite ?andb_false_r in Hcan; done).
  by eexists.
Qed.

(** X17.  The page of src/script.js never shows the latency that the
    probe measured: the card of a status is the same whatever the probe
    returned. *)
Theorem measured_latency_is_never_displayed {rt : Runtime}
    (renderMOTD : value → result jsstring) (net : request → response)
    (probe1 probe2 : jsstring → result (option Z)) (a : jsstring)
    r1 r2 s1 s2 (server : value) (fromCache error : bool) :
  Script.fetchServerStatus net probe1 a = (r1, Ok s1) →
  Script.fetchServerStatus net probe2 a = (r2, Ok s2) →
  Card.generateServerCardHTML renderMOTD server (VObj (handed_out s1 fromCache error))
  = Card.generateServerCardHTML renderMOTD server (VObj (handed_out s2 fromCache error)).
Proof.
  intros H1 H2.
  destruct (script_fetchServerStatus_probe _ _ _ _ _ _ _ _ H1 H2) as (Hf & Hd & Hp1 & Hp2).
  apply card_depends.
  - by apply handed_out_fields.
  - rewrite !handed_out_field by done.
    destruct (populated_debug _ Hp1) as [d1 Hd1]. destruct (populated_debug _ Hp2) as [d2 Hd2].
    specialize (Hd "ping" ltac:(done)). unfold field2, nav in Hd.
    rewrite Hd1, Hd2 in *. cbn [get] in *. by rewrite Hd.
Qed.

Lemma measured_latency_is_never_displayed_witness :
  ∃ s1 s2,
    Script.fetchServerStatus (net_of NetworkError (json legacy_full)) probe_42 play1
    = ([GetLegacy play1; Probe play1], Ok s1)
    ∧ Script.fetchServerStatus (net_of NetworkError (json legacy_full)) (λ _, Ok None) play1
      = ([GetLegacy play1; Probe play1], Ok s2)
    ∧ field2 s1 "debug" "realPing" = VNum 42
    ∧ field2 s2 "debug" "realPing" = VUndef
    ∧ @Card.generateServerCardHTML plain_runtime (@Script.renderMOTD plain_runtime)
        (field servers "1") (VObj (handed_out s1 false false))
      = @Card.generateServerCardHTML plain_runtime (@Script.renderMOTD plain_runtime)
          (field servers "1") (VObj (handed_out s2 false false)).
Proof.
  eexists _, _. split; [reflexivity|]. split; [reflexivity|].
  split; [reflexivity|]. split; [reflexivity|].
  exact (@measured_latency_is_never_displayed plain_runtime (@Script.renderMOTD plain_runtime)
           (net_of NetworkError (json legacy_full)) probe_42 (λ _, Ok None) play1
           _ _ _ _ (field servers "1") false false eq_refl eq_refl).
Defined.

(** ** The players panel *)

Lemma data_of_mono (this that : ServerStatusManager) c ext :
  store that = store this ++ ext →
  is_Some (read (length (store this)) (store this) (HRef (data c))) →
  data_of that c = data_of this c.
Proof.
  intros Hstore [t Ht]. unfold data_of. rewrite Hstore, Ht.
  rewrite (read_mono _ (length (store this ++ ext)) _ ext _ _ Ht); [done|].
  rewrite length_app. lia.
Qed.

Lemma collectPlayers_frame {rt : Runtime} (this that : ServerStatusManager) ext acc server :
  store that = store this ++ ext →
  (∀ a c, nav server "address" = VStr a → cache this !! a = Some c →
     is_Some (read (length (store this)) (store this) (HRef (data c)))) →
  (∀ a, nav server "address" = VStr a → cache that !! a = cache this !! a) →
  collectPlayers that acc server = collectPlayers this acc server.
Proof.
  intros Hstore Hread Hcache. unfold collectPlayers.
  destruct (nullish server) eqn:Hn; [by rewrite !get_nullish|].
  rewrite (get_nav server "address" Hn). cbn [mbind result_bind].
  destruct (nav server "address") as [| | | |a| | |] eqn:Ha; try done.
  rewrite (Hcache a eq_refl).
  destruct (cache this !! a) as [c|] eqn:Hc; [|done].
  by rewrite (data_of_mono this that c ext Hstore (Hread a c eq_refl Hc)).
Qed.

Lemma collectAll_frame {rt : Runtime} (this that : ServerStatusManager) ext acc servers :
  store that = store this ++ ext →
  Forall (λ server,
            (∀ a c, nav server "address" = VStr a → cache this !! a = Some c →
               is_Some (read (length (store this)) (store this) (HRef (data c))))
            ∧ (∀ a, nav server "address" = VStr a → cache that !! a = cache this !! a))
         servers →
  collectAll that acc servers = collectAll this acc servers.
Proof.
  intros Hstore H. revert acc. induction H as [|server rest [H1 H2] _ IH]; [done|].
  intros acc. cbn [collectAll].
  rewrite (collectPlayers_frame this that ext acc server Hstore H1 H2).
  destruct (collectPlayers this acc server); [apply IH | done].
Qed.

(** The addresses of the two configured servers. *)
Lemma servers_addresses server a :
  server ∈ servers.*2 → nav server "address" = VStr a →
  a = lit "play.simpfun.cn:30786" ∨ a = lit "play.simpfun.cn:17795".
Proof.
  intros Hin Ha. apply list_elem_of_In in Hin. simpl in Hin.
  destruct Hin as [<-|[<-|[]]]; vm_compute in Ha; injection Ha as <-; [by left | by right].
Qed.

(** *** Every cache entry can be read *)

Lemma alloc_all_bounded l :
  Forall alloc_bounded l →
  ∀ h, ∃ ext n, (alloc_all alloc l h).2 = h ++ ext ∧ (n ≤ length ext)%nat
    ∧ mapM (read n (h ++ ext)) (alloc_all alloc l h).1 = Some l.
Proof.
  induction 1 as [|x r Hx _ IH]; intros h.
  - exists [], O. simpl. by rewrite app_nil_r.
  - simpl. destruct (Hx h) as (e1 & n1 & Hh1 & Hn1 & Hr1).
    destruct (alloc x h) as [a h1]. simpl in *. subst h1.
    destruct (IH (h ++ e1)) as (e2 & n2 & Hh2 & Hn2 & Hr2).
    destruct (alloc_all alloc r (h ++ e1)) as [b h2]. simpl in *. subst h2.
    exists (e1 ++ e2), (n1 `max` n2)%nat. rewrite app_assoc. split; [done|].
    split; [rewrite length_app; lia|].
    rewrite (read_mono n1 (n1 `max` n2) _ e2 _ _ Hr1) by lia. simpl.
    eapply read_all_mono in Hr2; [|apply Nat.le_max_r].
    rewrite app_nil_r in Hr2. by rewrite Hr2.
Qed.

Lemma alloc_props_bounded ps :
  Forall (λ kv, alloc_bounded kv.2) ps →
  ∀ h, ∃ ext n, (alloc_props alloc ps h).2 = h ++ ext ∧ (n ≤ length ext)%nat
    ∧ mapM (read_prop n (h ++ ext)) (alloc_props alloc ps h).1 = Some ps.
Proof.
  induction 1 as [|[k x] r Hx _ IH]; intros h.
  - exists [], O. simpl. by rewrite app_nil_r.
  - simpl in *. destruct (Hx h) as (e1 & n1 & Hh1 & Hn1 & Hr1).
    destruct (alloc x h) as [a h1]. simpl in *. subst h1.
    destruct (IH (h ++ e1)) as (e2 & n2 & Hh2 & Hn2 & Hr2).
    destruct (alloc_props alloc r (h ++ e1)) as [b h2]. simpl in *. subst h2.
    exists (e1 ++ e2), (n1 `max` n2)%nat. rewrite app_assoc. split; [done|].
    split; [rewrite length_app; lia|].
    eapply read_props_mono in Hr2; [|apply Nat.le_max_r].
    rewrite app_nil_r in Hr2. unfold read_prop in *. simpl.
    rewrite (read_mono n1 (n1 `max` n2) _ e2 _ _ Hr1) by lia. simpl.
    by rewrite Hr2.
Qed.

Lemma alloc_bounded_spec v : alloc_bounded v.
Proof.
  induction v as [| | b | q | s | l IH | ps IH | n] using value_ind_nested;
    try (intros h; exists [], O; simpl; by rewrite app_nil_r).
  - intros h. simpl. destruct (alloc_all_bounded l IH h) as (e & n & Hh & Hn & Hr).
    destruct (alloc_all alloc l h) as [es h1]. simpl in *. subst h1.
    exists (e ++ [CArr es]), (S n). rewrite app_assoc. split; [done|].
    split; [rewrite length_app; simpl; lia|].
    simpl. rewrite list_lookup_middle by done.
    apply (read_all_mono n n _ [CArr es]) in Hr; [|lia]. by rewrite Hr.
  - intros h. simpl. destruct (alloc_props_bounded ps IH h) as (e & n & Hh & Hn & Hr).
    destruct (alloc_props alloc ps h) as [fs h1]. simpl in *. subst h1.
    exists (e ++ [CObj fs]), (S n). rewrite app_assoc. split; [done|].
    split; [rewrite length_app; simpl; lia|].
    rewrite (read_ref_obj _ _ _ fs) by by rewrite list_lookup_middle.
    apply (read_props_mono n n _ [CObj fs]) in Hr; [|lia]. by rewrite Hr.
Qed.

Lemma alloc_object_readable props (h : list cell) :
  ∃ ext, (alloc_object props h).2 = h ++ ext
    ∧ is_Some (read (length (h ++ ext)) (h ++ ext) (HRef (alloc_object props h).1)).
Proof.
  destruct (alloc_bounded_spec (VObj props) h) as (ext & n & Hh & Hn & Hr).
  unfold alloc_object. simpl in *.
  destruct (alloc_props alloc props h) as [fs h1]. simpl in *.
  exists ext. split; [done|]. exists (VObj props).
  rewrite <- (app_nil_r (h ++ ext)) at 2.
  eapply read_mono; [exact Hr|]. rewrite length_app. lia.
Qed.

Lemma readable_mono (h ext : list cell) hv :
  is_Some (read (length h) h hv) → is_Some (read (length (h ++ ext)) (h ++ ext) hv).
Proof.
  intros [t Ht]. exists t. eapply read_mono; [exact Ht|]. rewrite length_app. lia.
Qed.

Lemma getServerStatus_readable fetchServerStatus a now this :
  cache_readable this →
  cache_readable (getServerStatus fetchServerStatus a now this).2.
Proof.
  intros Hinv.
  assert (Hkeep : ∀ ext (h' : list cell), h' = store this ++ ext →
            cache_readable {| cache := cache this; store := h' |}).
  { intros ext h' -> a' c Hc. simpl in *. by apply readable_mono, (Hinv a'). }
  unfold getServerStatus.
  destruct (fetchServerStatus a) as [requests [freshData|error]];
    destruct (cache this !! a) as [c0|] eqn:Hc0; try case_bool_decide; simpl;
    try (by eapply Hkeep); try done.
  all: destruct (alloc_object_readable freshData (store this)) as (ext & Hext & Hr);
    destruct (alloc_object freshData (store this)) as [d h]; simpl in *; subst h;
    intros a' c Hc; simpl in *;
    (destruct (decide (a = a')) as [<-|Hne];
     [ rewrite lookup_insert_eq in Hc; injection Hc as <-; simpl;
       by apply readable_mono
     | rewrite lookup_insert_ne in Hc by done;
       rewrite <- app_assoc; by apply readable_mono, (Hinv a') ]).
Qed.

(** X18.  The players panel reads the cache as it is: it lists the
    players of the cached statuses of the two configured servers that
    are marked online, however old the entries are.  A call of
    getServerStatus changes what the panel will show only if it refreshes
    one of these two servers with success: a call for another address, a
    call answered from a fresh entry and a call whose refresh fails all
    leave it as it was.  (The data of every cache entry can be read: this
    holds in a new manager and after every call.) *)
Theorem players_panel_changes_only_by_a_refresh {rt : Runtime}
    (fetchServerStatus : jsstring → list request * result (list (string * value)))
    (a : jsstring) (now : Z) (this : ServerStatusManager) :
  let after := (getServerStatus fetchServerStatus a now this).2 in
  cache_readable constructor
  ∧ (cache_readable this → cache_readable after)
  ∧ (cache_readable this →
     (a ≠ lit "play.simpfun.cn:30786" ∧ a ≠ lit "play.simpfun.cn:17795")
     ∨ is_fresh this a now = true
     ∨ (∃ e, (fetchServerStatus a).2 = Throw e) →
     allPlayers after = allPlayers this
     ∧ ∀ panel, updatePlayersList after panel = updatePlayersList this panel).
Proof.
  intros after. split; [|split].
  { intros a' c Hc. simpl in Hc. by rewrite lookup_empty in Hc. }
  { apply getServerStatus_readable. }
  intros Hread Hcase.
  assert (Hall : allPlayers after = allPlayers this).
  { destruct (getServerStatus_store fetchServerStatus a now this) as [ext Hext].
    unfold allPlayers. apply (collectAll_frame this after ext); [done|].
    apply Forall_forall. intros server Hin. split.
    - intros a' c _ Hc. by eapply Hread.
    - intros a' Ha'. subst after. rewrite getServerStatus_cache.
      destruct (is_fresh this a now) eqn:Hf; [done|].
      destruct (fetchServerStatus a).2 as [freshData|e] eqn:Hfetch; [|done].
      destruct Hcase as [[H1 H2] | [Hfresh | [e He]]]; [|done..].
      rewrite lookup_insert_ne; [done|].
      intros ->. destruct (servers_addresses server a' Hin Ha'); done. }
  split; [done|]. intros panel. unfold updatePlayersList. by rewrite Hall.
Qed.

Lemma players_panel_changes_only_by_a_refresh_witness :
  @allPlayers (getServerStatus fetch_up elsewhere 50000 warm).2 = @allPlayers warm
  ∧ @allPlayers warm = Ok [VStr (lit "Alice"); VStr (lit "Bob")]
  ∧ is_fresh warm play1 50000 = false.
Proof.
  split; [|split; reflexivity].
  destruct (@players_panel_changes_only_by_a_refresh no_coercion
              fetch_up elsewhere 50000 warm) as (Hnew & _ & H).
  refine (proj1 (H _ _)).
  - exact (proj1 (proj2 (@players_panel_changes_only_by_a_refresh no_coercion
                           fetch_up play1 0 constructor)) Hnew).
  - left. split; discriminate.
Defined.

(** ** The theme *)

Lemma applyTheme_applied t b : t ≠ [] → theme_applied (Theme.applyTheme (t, b)).
Proof. by intros Ht. Qed.

Lemma constructor_applied b : theme_applied (Theme.constructor b).
Proof.
  unfold Theme.constructor, Theme.init.
  destruct (Theme.storedTheme b) as [saved|].
  - case_bool_decide; apply applyTheme_applied; [|done].
    unfold Theme.getSystemTheme. by destruct (Theme.prefersDark b) as [[]|].
  - apply applyTheme_applied.
    unfold Theme.getSystemTheme. by destruct (Theme.prefersDark b) as [[]|].
Qed.

Lemma step_applied s e : theme_applied s → theme_applied (Theme.step s e).
Proof.
  destruct s as [t b]. intros (Hs & Hd & Ht). simpl in *.
  destruct e as [|matches]; simpl.
  - apply applyTheme_applied. by case_bool_decide.
  - destruct (Theme.prefersDark b); [|done].
    simpl. rewrite Hs. by rewrite bool_decide_eq_false_2.
Qed.

Lemma run_applied events s : theme_applied s → theme_applied (Theme.run events s).
Proof.
  revert s. induction events as [|e events IH]; intros s Hs; [done|].
  simpl. apply IH. by apply step_applied.
Qed.

(** A change of the system preference changes nothing but the
    preference. *)
Lemma systemChange_ignored s matches :
  theme_applied s →
  (Theme.step s (Theme.SystemChange matches)).1 = s.1
  ∧ Theme.storedTheme (Theme.step s (Theme.SystemChange matches)).2 = Theme.storedTheme s.2
  ∧ Theme.dataTheme (Theme.step s (Theme.SystemChange matches)).2 = Theme.dataTheme s.2
  ∧ Theme.toggleIcon (Theme.step s (Theme.SystemChange matches)).2 = Theme.toggleIcon s.2.
Proof.
  destruct s as [t b]. intros (Hs & Hd & Ht). simpl in *.
  destruct (Theme.prefersDark b); [|done].
  simpl. rewrite Hs. by rewrite bool_decide_eq_false_2.
Qed.

Lemma click_same s s' :
  same_but_preference s s' →
  same_but_preference (Theme.step s Theme.Click) (Theme.step s' Theme.Click).
Proof.
  destruct s as [t b], s' as [t' b']. intros (Ht & Hs & Hd & Hi). simpl in *. subst t'.
  unfold same_but_preference. simpl. by rewrite Hi.
Qed.

Lemma run_clicks events s s' :
  theme_applied s → same_but_preference s s' →
  same_but_preference (Theme.run events s) (Theme.run (filter is_click events) s').
Proof.
  revert s s'. induction events as [|e events IH]; intros s s' Ha Hsame; [done|].
  change (Theme.run (e :: events) s) with (Theme.run events (Theme.step s e)).
  destruct e as [|matches].
  - rewrite filter_cons_True by done.
    change (Theme.run (Theme.Click :: filter is_click events) s')
      with (Theme.run (filter is_click events) (Theme.step s' Theme.Click)).
    apply IH.
    + by apply (step_applied s Theme.Click).
    + by apply click_same.
  - rewrite filter_cons_False by (by intros []). apply IH.
    + by apply (step_applied s (Theme.SystemChange matches)).
    + destruct (systemChange_ignored s matches Ha) as (H1 & H2 & H3 & H4).
      destruct Hsame as (H1' & H2' & H3' & H4').
      repeat split; congruence.
Qed.

(** X19.  From the constructor on, and as long as the manager alone
    writes the theme in localStorage, the theme is always stored there
    and set as the data-theme attribute, and it is never empty.  So the listener for changes of the system preference never
    acts: after any clicks and changes of the preference, the theme,
    what is stored and what is shown are what the clicks alone would
    have given. *)
Theorem system_preference_only_counts_at_start (b : Theme.Browser)
    (events : list Theme.event) :
  let s := Theme.run events (Theme.constructor b) in
  Theme.storedTheme s.2 = Some s.1
  ∧ Theme.dataTheme s.2 = Some s.1
  ∧ s.1 ≠ []
  ∧ (∀ matches, (Theme.step s (Theme.SystemChange matches)).1 = s.1)
  ∧ s.1 = (Theme.run (filter is_click events) (Theme.constructor b)).1
  ∧ Theme.toggleIcon s.2
    = Theme.toggleIcon (Theme.run (filter is_click events) (Theme.constructor b)).2.
Proof.
  intros s. subst s.
  pose proof (run_applied events _ (constructor_applied b)) as (Hs & Hd & Ht).
  split; [done|]. split; [done|]. split; [done|]. split.
  - intros matches. by apply systemChange_ignored.
  - destruct (run_clicks events (Theme.constructor b) (Theme.constructor b)
                (constructor_applied b)) as (H1 & _ & _ & H4); [done|].
    by split.
Qed.

Lemma toggle_theme t b :
  (Theme.toggleTheme (t, b)).1 = if bool_decide (t = Theme.dark) then Theme.light else Theme.dark.
Proof. done. Qed.

(** X20.  A click makes the theme "light" when it was "dark" and "dark"
    in every other case, so after one click the theme is one of the two;
    two clicks bring back a theme that is one of the two, and turn any
    other theme, which can only come from localStorage, into "dark" for
    good; the icon is the sun exactly when the theme is "dark". *)
Theorem theme_toggle (s : Theme.state) :
  let once := Theme.toggleTheme s in
  let twice := Theme.toggleTheme once in
  once.1 = (if bool_decide (s.1 = Theme.dark) then Theme.light else Theme.dark)
  ∧ (once.1 = Theme.dark ∨ once.1 = Theme.light)
  ∧ (s.1 = Theme.dark ∨ s.1 = Theme.light → twice.1 = s.1)
  ∧ (s.1 ≠ Theme.dark → s.1 ≠ Theme.light → once.1 = Theme.dark ∧ twice.1 = Theme.light)
  ∧ Theme.storedTheme once.2 = Some once.1
  ∧ (∀ icon, Theme.toggleIcon once.2 = Some icon →
       icon = lit "fas fa-sun" ↔ once.1 = Theme.dark).
Proof.
  destruct s as [t b]. intros once twice. subst once twice. simpl.
  split; [done|]. split; [case_bool_decide; auto|]. split; [|split; [|split; [done|]]].
  - intros [-> | ->]; reflexivity.
  - intros H1 H2. rewrite bool_decide_eq_false_2 by done. done.
  - intros icon. destruct (Theme.toggleIcon b); [|done]. simpl. intros [= <-].
    repeat case_bool_decide; split; intros H'; try done; by vm_compute in H'.
Qed.

(** X21.  The theme survives a reload: a manager constructed in the
    browser that an earlier one leaves behind, after any events, starts
    with the theme that the earlier one had, whatever the system
    preference is by then. *)
Theorem theme_survives_reload (b : Theme.Browser) (events : list Theme.event)
    (preference : option bool) :
  let s := Theme.run events (Theme.constructor b) in
  let reloaded :=
    Theme.constructor {| Theme.prefersDark := preference;
                         Theme.storedTheme := Theme.storedTheme s.2;
                         Theme.dataTheme := None;
                         Theme.toggleIcon := Theme.toggleIcon s.2 |} in
  reloaded.1 = s.1
  ∧ Theme.dataTheme reloaded.2 = Some s.1
  ∧ Theme.storedTheme reloaded.2 = Some s.1.
Proof.
  intros s reloaded. subst reloaded.
  pose proof (run_applied events _ (constructor_applied b)) as (Hs & Hd & Ht).
  fold s in Hs, Hd, Ht. unfold Theme.constructor, Theme.init. simpl. rewrite Hs.
  by rewrite bool_decide_eq_false_2.
Qed.

(** ** Copying an address *)

(** X22.  copyText returns false only when the clipboard write and
    execCommand('copy') both throw; when execCommand returns, copyText
    reports success even if the command returned false.  Every call shows
    one toast, a success exactly when the call returns true, and leaves
    no textarea behind. *)
Theorem copyText_outcome (clipboard : Copy.writeText) (command : Copy.execCommand)
    (text : jsstring) (p : Copy.Page) :
  let r := Copy.copyText clipboard command text p in
  (r.1 = false ↔ clipboard = Copy.Rejects ∧ command = Copy.Throws)
  ∧ (clipboard = Copy.Rejects → command = Copy.Returns false → r.1 = true)
  ∧ Copy.textareas r.2 = Copy.textareas p
  ∧ Copy.shown r.2
    = Copy.shown p
      ++ [if r.1 then (lit8 "已复制到剪贴板", lit "success")
          else (lit8 "复制失败", lit "error")].
Proof.
  destruct clipboard, command as [worked|]; simpl;
    rewrite ?removelast_last; repeat split; try done; try (by intros [? ?]).
Qed.

(** ** Checking a custom server *)

Lemma trimStart_blank s : trimStart s = [] ↔ blank s.
Proof.
  unfold blank. induction s as [|c r IH]; [done|]. simpl.
  destruct (is_space c) eqn:Hc.
  - rewrite IH. split; [by constructor | by inversion 1].
  - split; [done|]. inversion 1; congruence.
Qed.

Lemma trimStart_head s c r : trimStart s = c :: r → is_space c = false.
Proof.
  induction s as [|d s IH]; [done|]. simpl.
  destruct (is_space d) eqn:Hd; [done|]. by intros [= <- _].
Qed.

Lemma trimStart_fixed s : blank (trimStart s) → trimStart s = [].
Proof.
  destruct (trimStart s) as [|c r] eqn:E; [done|].
  intros H. apply trimStart_head in E. inversion H; congruence.
Qed.

Lemma blank_reverse s : blank (reverse s) ↔ blank s.
Proof. unfold blank. by rewrite Forall_reverse. Qed.

Lemma trim_blank s : trim s = [] ↔ blank s.
Proof.
  unfold trim. split.
  - intros H. apply (f_equal reverse) in H. rewrite reverse_involutive in H. simpl in H.
    apply trimStart_blank, blank_reverse, trimStart_fixed in H.
    by apply trimStart_blank.
  - intros H. apply trimStart_blank in H. by rewrite H.
Qed.

Lemma trimStart_app_blank ws s : blank ws → trimStart (ws ++ s) = trimStart s.
Proof. induction 1 as [|c ws Hc _ IH]; [done|]. simpl. by rewrite Hc. Qed.

Lemma trimStart_app s t : trimStart s ≠ [] → trimStart (s ++ t) = trimStart s ++ t.
Proof.
  induction s as [|c s IH]; [done|]. simpl.
  destruct (is_space c); [exact IH | done].
Qed.

Lemma trim_padded ws1 ws2 s : blank ws1 → blank ws2 → trim (ws1 ++ s ++ ws2) = trim s.
Proof.
  intros H1 H2. unfold trim. rewrite trimStart_app_blank by done.
  destruct (trimStart s) as [|c r] eqn:E.
  - apply trimStart_blank in E.
    assert (Hb : blank (s ++ ws2)) by by apply Forall_app.
    apply trimStart_blank in Hb. by rewrite Hb.
  - rewrite trimStart_app by by rewrite E. rewrite E.
    rewrite reverse_app. rewrite trimStart_app_blank by by apply blank_reverse.
    done.
Qed.

(** X23.  checkCustomServer on an input of white space only asks
    nothing: it shows one warning and leaves the manager and the page as
    they are.  On any other input it calls getServerStatus once, for the
    trimmed input, and afterwards the button has its own text again and
    is enabled, the result is displayed, and no toast is shown; when
    the call or the rendering of the result throws, the result is the
    failure notice. *)
Theorem checkCustomServer_outcome {rt : Runtime}
    (fetchServerStatus : jsstring → list request * result (list (string * value)))
    (renderMOTD : value → result jsstring) (now : Z) (this : ServerStatusManager)
    (p : Custom.Page) :
  let r := Custom.checkCustomServer fetchServerStatus renderMOTD now this (Some p) in
  let call := getServerStatus fetchServerStatus (trim (Custom.customServer p)) now this in
  (blank (Custom.customServer p) →
   r = ([], this, Some p, [(lit8 "请输入服务器地址", lit "warning")]))
  ∧ (¬ blank (Custom.customServer p) →
     ∃ html,
       r = (call.1.1, call.2,
            Some {| Custom.customServer := Custom.customServer p;
                    Custom.customResult := html;
                    Custom.customResult_display := lit "block";
                    Custom.checkCustom := Custom.checkCustom p;
                    Custom.checkCustom_disabled := false |}, [])
       ∧ match call.1.2 with
         | Throw _ => html = Custom.failed_result
         | Ok l =>
             match Custom.resultHTML renderMOTD (Custom.status_of call.2 l) with
             | Ok resultHTML => html = resultHTML
             | Throw _ => html = Custom.failed_result
             end
         end).
Proof.
  intros r call. subst r call. unfold Custom.checkCustomServer. split.
  - intros Hb. apply trim_blank in Hb. by rewrite Hb.
  - intros Hb. rewrite bool_decide_eq_false_2 by (by rewrite trim_blank).
    destruct (getServerStatus fetchServerStatus (trim (Custom.customServer p)) now this)
      as [[requests outcome] this'].
    eexists. split; [reflexivity|]. simpl.
    destruct outcome as [l|e]; simpl; [|done].
    by destruct (Custom.resultHTML renderMOTD (Custom.status_of this' l)).
Qed.

(** X24.  The address that checkCustomServer asks for, and so the key of
    the cache entry, is the input without the white space around it: an
    input with white space before and after an address has the outcome of
    the address itself. *)
Theorem padded_input_is_the_same_address {rt : Runtime}
    (fetchServerStatus : jsstring → list request * result (list (string * value)))
    (renderMOTD : value → result jsstring) (now : Z) (this : ServerStatusManager)
    (p : Custom.Page) (before address after : jsstring) :
  blank before → blank after →
  let padded :=
    Custom.checkCustomServer fetchServerStatus renderMOTD now this
      (Some (with_input p (before ++ address ++ after))) in
  let plain :=
    Custom.checkCustomServer fetchServerStatus renderMOTD now this
      (Some (with_input p address)) in
  padded.1.1.1 = plain.1.1.1 ∧ padded.1.1.2 = plain.1.1.2 ∧ padded.2 = plain.2
  ∧ (Custom.customResult <$> padded.1.2) = (Custom.customResult <$> plain.1.2)
  ∧ trim (before ++ address ++ after) = trim address.
Proof.
  intros H1 H2 padded plain. subst padded plain.
  pose proof (trim_padded before after address H1 H2) as Ht.
  unfold Custom.checkCustomServer. cbn [with_input Custom.customServer]. rewrite Ht.
  case_bool_decide as Hb.
  - done.
  - by destruct (getServerStatus fetchServerStatus (trim address) now this)
      as [[requests outcome] this'].
Qed.

Lemma padded_input_is_the_same_address_witness :
  (@Custom.checkCustomServer plain_runtime fetch_down (@Merged.renderMOTD plain_runtime)
     1000 warm (Some (custom_page (lit "  play.simpfun.cn:30786 ")))).1.1.1 = []
  ∧ trim (lit "  play.simpfun.cn:30786 ") = play1.
Proof.
  destruct (@padded_input_is_the_same_address plain_runtime fetch_down
              (@Merged.renderMOTD plain_runtime) 1000 warm (custom_page [])
              (lit "  ") play1 (lit " ")) as (H1 & _ & _ & _ & H5).
  - by repeat constructor.
  - by repeat constructor.
  - split; [exact H1 | exact H5].
Defined.

(** ** The latency probe *)

Lemma resolve_settled v m w :
  Probe.settled m = Some w → Probe.settled (Probe.resolve v m) = Some w.
Proof. intros H. unfold Probe.resolve. by rewrite H. Qed.

Lemma settle_image_settled i img v m w :
  Probe.settled m = Some w → Probe.settled (Probe.settle_image i img v m) = Some w.
Proof.
  intros H. unfold Probe.settle_image. destruct (Probe.imgSettled img); [done|].
  by apply resolve_settled.
Qed.

Lemma step_settled m e w :
  Probe.settled m = Some w → Probe.settled (Probe.step m e) = Some w.
Proof.
  intros H. destruct e as [now|now| |i now|i|i]; simpl.
  - by apply resolve_settled.
  - done.
  - destruct (Probe.wsTimer m); [by apply resolve_settled | done].
  - destruct (Probe.images m !! i) as [img|]; [|done].
    destruct (Probe.imgHandlers img); [by apply settle_image_settled | done].
  - destruct (Probe.images m !! i) as [img|]; [|done].
    destruct (Probe.imgHandlers img); [by apply settle_image_settled | done].
  - destruct (Probe.images m !! i) as [img|]; [|done].
    destruct (Probe.imgTimer img); [by apply settle_image_settled | done].
Qed.

Lemma run_settled events m w :
  Probe.settled m = Some w → Probe.settled (Probe.run events m) = Some w.
Proof.
  revert m. induction events as [|e events IH]; intros m H; [done|].
  simpl. apply IH. by apply step_settled.
Qed.

(** *** The sign of a rounded difference of doubles *)

Lemma shr_1_nonneg mrs : 0 ≤ shr_m mrs → 0 ≤ shr_m (shr_1 mrs).
Proof. destruct mrs as [[|[p|p|]|p] r s]; simpl; lia. Qed.

Lemma iter_pos_nonneg p mrs : 0 ≤ shr_m mrs → 0 ≤ shr_m (SpecFloat.iter_pos shr_1 p mrs).
Proof.
  revert mrs. induction p as [p IH|p IH|]; intros mrs H; simpl.
  - apply IH, IH. by apply shr_1_nonneg.
  - by apply IH, IH.
  - by apply shr_1_nonneg.
Qed.

Lemma shr_fexp_nonneg prec emax m e l :
  0 ≤ m → 0 ≤ shr_m (shr_fexp prec emax m e l).1.
Proof.
  intros H. unfold shr_fexp, shr.
  assert (H0 : 0 ≤ shr_m (shr_record_of_loc m l)) by (by destruct l as [|[]]).
  destruct (_ - e); simpl; [done| |done]. by apply iter_pos_nonneg.
Qed.

Lemma round_nearest_even_nonneg m l : 0 ≤ m → 0 ≤ round_nearest_even m l.
Proof. intros H. destruct l as [|[]]; simpl; try done; [destruct (Z.even m)|]; lia. Qed.

Lemma binary_round_aux_nonneg prec emax m e l :
  0 ≤ m → not_negative (binary_round_aux prec emax false m e l) = true.
Proof.
  intros H. unfold binary_round_aux.
  pose proof (shr_fexp_nonneg prec emax m e l H) as H1.
  destruct (shr_fexp prec emax m e l) as [mrs' e'] eqn:E1. simpl in H1.
  pose proof (shr_fexp_nonneg prec emax
                (round_nearest_even (shr_m mrs') (loc_of_shr_record mrs')) e' loc_Exact
                (round_nearest_even_nonneg _ _ H1)) as H2.
  destruct (shr_fexp prec emax (round_nearest_even _ _) e' loc_Exact) as [mrs'' e''].
  simpl in H2. destruct (shr_m mrs'') as [|p|p]; [done| |lia].
  by destruct (e'' <=? emax - prec).
Qed.

Lemma binary_normalize_nonneg prec emax n e szero :
  0 ≤ n → not_negative (binary_normalize prec emax n e szero) = true.
Proof.
  intros H. destruct n as [|p|p]; [done| |lia]. simpl. unfold binary_round.
  destruct (shl_align _ _ _) as [mz ez]. by apply binary_round_aux_nonneg.
Qed.

Lemma Math_round_double_not_negative x :
  not_negative x = true → not_negative (Math_round_double x) = true.
Proof.
  destruct x as [s|s| |s m e]; try done. intros H.
  assert (s = false) as -> by (by destruct s). simpl.
  destruct (0 <=? e) eqn:He; [done|]. apply Z.leb_gt in He.
  apply binary_normalize_nonneg. apply Z.div_pos; [|apply Z.pow_pos_nonneg; lia].
  assert (0 < 2 ^ (- e)) by (apply Z.pow_pos_nonneg; lia). lia.
Qed.

Lemma digits2_pos_bounds m :
  2 ^ (Zpos (digits2_pos m) - 1) ≤ Zpos m < 2 ^ Zpos (digits2_pos m).
Proof.
  induction m as [p IH|p IH|]; simpl digits2_pos; [| |done].
  all: rewrite Pos2Z.inj_succ, Z.pow_succ_r by lia.
  all: replace (Z.succ (Zpos (digits2_pos p)) - 1) with (Z.succ (Zpos (digits2_pos p) - 1))
         by lia.
  all: rewrite Z.pow_succ_r by lia; lia.
Qed.

Lemma iter_xO m d : Zpos (Pos.iter xO m d) = Zpos m * 2 ^ Zpos d.
Proof.
  induction d as [|d IH] using Pos.peano_ind; [simpl; lia|].
  rewrite Pos.iter_succ, Pos2Z.inj_succ, Z.pow_succ_r by lia.
  rewrite Pos2Z.inj_xO, IH. lia.
Qed.

Lemma SFleb_finite ma ea mb eb :
  SFleb (S754_finite false ma ea) (S754_finite false mb eb) = true
  ↔ ea < eb ∨ ea = eb ∧ (ma ≤ mb)%positive.
Proof.
  unfold SFleb, SFcompare. rewrite Pos.compare_cont_spec. simpl.
  destruct (Z.compare_spec ea eb) as [->|H|H].
  - unfold Pos.le. destruct (ma ?= mb)%positive; split; try done; try lia.
    + by right.
    + by right.
    + intros [?|[_ ?]]; [lia|done].
  - split; [by left|done].
  - split; [done|lia].
Qed.

Lemma bounded_digits m e :
  bounded 53 1024 m e = true →
  -1074 ≤ e ∧ Zpos (digits2_pos m) ≤ 53 ∧ (-1074 < e → Zpos (digits2_pos m) = 53).
Proof.
  unfold bounded, canonical_mantissa, fexp, emin.
  intros [H _]%andb_true_iff. apply Z.eqb_eq in H. lia.
Qed.

(** The order of two readings is the order of their mantissas at the
    smaller exponent. *)
Lemma aligned_le mx ex my ey :
  bounded 53 1024 mx ex = true → bounded 53 1024 my ey = true →
  SFleb (S754_finite false my ey) (S754_finite false mx ex) = true →
  Zpos (shl_align my ey (Z.min ex ey)).1 ≤ Zpos (shl_align mx ex (Z.min ex ey)).1.
Proof.
  intros Hx Hy [Hlt|[-> Hle]]%SFleb_finite.
  - rewrite Z.min_r by lia. unfold shl_align. rewrite Z.sub_diag. simpl.
    destruct (ey - ex) as [|d|d] eqn:Hd; [lia..|]. simpl. rewrite iter_xO.
    apply bounded_digits in Hx as (_ & _ & Hx). apply bounded_digits in Hy as (Hey & Hy & _).
    pose proof (digits2_pos_bounds mx) as [Hmx _]. rewrite Hx in Hmx by lia.
    pose proof (digits2_pos_bounds my) as [_ Hmy].
    assert (2 ^ Zpos (digits2_pos my) ≤ 2 ^ 53) by (apply Z.pow_le_mono_r; lia).
    assert (2 ^ 1 ≤ 2 ^ Zpos d) by (apply Z.pow_le_mono_r; lia).
    change (2 ^ (53 - 1)) with 4503599627370496 in Hmx.
    change (2 ^ 53) with 9007199254740992 in *. change (2 ^ 1) with 2 in *. nia.
  - rewrite Z.min_id. unfold shl_align. rewrite Z.sub_diag. simpl. lia.
Qed.

Lemma double_sub_not_negative x y :
  is_time x = true → is_time y = true → SFleb y x = true →
  not_negative (double_sub x y) = true.
Proof.
  destruct x as [sx| | |[] mx ex], y as [sy| | |[] my ey]; try done.
  - by destruct sx, sy.
  - intros Hx Hy Hle. unfold double_sub, SFsub. apply binary_normalize_nonneg.
    pose proof (aligned_le mx ex my ey Hx Hy Hle). simpl. lia.
Qed.

Lemma SFleb_trans x y z :
  is_time x = true → is_time y = true → is_time z = true →
  SFleb x y = true → SFleb y z = true → SFleb x z = true.
Proof.
  destruct x as [sx| | |[] mx ex], y as [sy| | |[] my ey], z as [sz| | |[] mz ez];
    try done; intros _ _ _ H1 H2; try done.
  revert H1 H2. rewrite !SFleb_finite. lia.
Qed.

Lemma SFleb_refl x : is_time x = true → SFleb x x = true.
Proof.
  destruct x as [sx| | |[] mx ex]; try done. intros _. apply SFleb_finite. right.
  split; [done|]. apply Pos.le_refl.
Qed.

Lemma elapsed_not_negative t1 t2 :
  is_time t1 = true → is_time t2 = true → SFleb t1 t2 = true →
  not_negative (Probe.elapsed t1 t2) = true.
Proof.
  intros H1 H2 Hle. unfold Probe.elapsed.
  by apply Math_round_double_not_negative, double_sub_not_negative.
Qed.

(** *** The measurement over time *)

Lemma in_time_later now now' m :
  is_time now' = true → SFleb now now' = true → in_time now m → in_time now' m.
Proof.
  intros Ht Hle ((Hnow & Hws & H1) & H2 & H3).
  split; [|split; [|done]].
  - split; [done|]. split; [done|]. by apply (SFleb_trans _ now).
  - eapply Forall_impl; [done|]. intros img [Hi Hl]. split; [done|].
    by apply (SFleb_trans _ now).
Qed.

Lemma resolve_in_time now v m :
  (∀ ms, v = Some ms → not_negative ms = true) →
  in_time now m → in_time now (Probe.resolve v m).
Proof.
  intros Hv Hm. pose proof Hm as (H1 & H2 & H3). unfold Probe.resolve.
  destruct (Probe.settled m) eqn:E; [done|].
  split; [done|]. split; [done|]. simpl. intros ms [= ->]. by apply Hv.
Qed.

Lemma set_image_in_time now i img img' m :
  Probe.images m !! i = Some img →
  is_time (Probe.imgStart img') = true ∧ SFleb (Probe.imgStart img') now = true →
  in_time now m → in_time now (Probe.set_image i img' m).
Proof.
  intros Hi Himg (H1 & H2 & H3). split; [done|]. split; [|done].
  simpl. apply Forall_insert; done.
Qed.

Lemma settle_image_in_time now i img img' v m :
  Probe.images m !! i = Some img → Probe.imgStart img' = Probe.imgStart img →
  (∀ ms, v = Some ms → not_negative ms = true) →
  in_time now m → in_time now (Probe.settle_image i img' v m).
Proof.
  intros Hi Hstart Hv Hm.
  assert (Himg : is_time (Probe.imgStart img) = true
                 ∧ SFleb (Probe.imgStart img) now = true).
  { destruct Hm as (_ & H2 & _). by eapply (Forall_lookup_1 _ _ _ _ H2 Hi). }
  unfold Probe.settle_image.
  destruct (Probe.imgSettled img'); [|apply resolve_in_time; [done|]];
    (eapply set_image_in_time; [done | simpl; by rewrite Hstart | done]).
Qed.

Lemma step_in_time now m e :
  in_time now m →
  match Probe.time_of e with
  | Some t => is_time t = true → SFleb now t = true → in_time t (Probe.step m e)
  | None => in_time now (Probe.step m e)
  end.
Proof.
  intros Hm. pose proof Hm as ((Hnow & Hws & H1) & H2 & H3).
  destruct e as [t|t| |i t|i|i]; simpl.
  - intros Ht Hle. apply resolve_in_time.
    + intros ms [= <-]. apply elapsed_not_negative; [done..|]. simpl.
      by apply (SFleb_trans _ now).
    + by apply (in_time_later now).
  - intros Ht Hle. apply (in_time_later now t m Ht Hle) in Hm as (H1' & H2' & H3').
    split; [done|]. split; [|done]. simpl.
    apply Forall_app. split; [done|]. constructor; [|done]. simpl.
    split; [done|]. by apply SFleb_refl.
  - destruct (Probe.wsTimer m); [|done]. by apply resolve_in_time.
  - intros Ht Hle. apply (in_time_later now t m Ht Hle) in Hm.
    destruct (Probe.images m !! i) as [img|] eqn:Hi; [|done].
    destruct (Probe.imgHandlers img); [|done].
    eapply settle_image_in_time; [done..| |done].
    destruct Hm as (_ & H2' & _).
    destruct (Forall_lookup_1 _ _ _ _ H2' Hi) as [Himg Hl].
    intros ms [= <-]. by apply elapsed_not_negative.
  - destruct (Probe.images m !! i) as [img|] eqn:Hi; [|done].
    destruct (Probe.imgHandlers img); [|done].
    by eapply settle_image_in_time.
  - destruct (Probe.images m !! i) as [img|] eqn:Hi; [|done].
    destruct (Probe.imgTimer img); [|done].
    by eapply settle_image_in_time.
Qed.

Lemma run_in_time events now m :
  in_time now m → Probe.monotone now events →
  ∀ ms, Probe.settled (Probe.run events m) = Some (Some ms) → not_negative ms = true.
Proof.
  revert now m. induction events as [|e events IH]; intros now m Hm Hmono.
  - by destruct Hm as (_ & _ & H).
  - simpl in *. pose proof (step_in_time now m e Hm) as Hstep.
    destruct (Probe.time_of e) as [t|].
    + destruct Hmono as (Ht & Hle & Hmono).
      apply (IH t (Probe.step m e)); [by apply Hstep | done].
    + apply (IH now (Probe.step m e)); done.
Qed.

(** X25.  The promise of measureRealPing, once the WebSocket has been
    constructed: it is settled at most once, so no later event changes
    its value; the value is null or Math.round of a difference of two
    readings of performance.now(), computed on doubles, which is not
    negative as long as the readings are finite, not negative and never
    go back; if the 5000 ms timer fires first the value is null; and when
    the WebSocket fails and the image loads, the value is the time from
    the failure to the load, not from the start of the measurement.  For
    the readings 0.3 and 2.8 the value is 3: the difference of the two
    doubles is 2.5. *)
Theorem probe_settles_once (t0 : double) (events : list Probe.event) :
  (∀ value more,
     Probe.settled (Probe.run events (Probe.start t0)) = Some value →
     Probe.settled (Probe.run (events ++ more) (Probe.start t0)) = Some value)
  ∧ (is_time t0 = true → Probe.monotone t0 events →
     ∀ ms, Probe.settled (Probe.run events (Probe.start t0)) = Some (Some ms) →
           not_negative ms = true)
  ∧ Probe.settled (Probe.run (Probe.WsTimeout :: events) (Probe.start t0)) = Some None
  ∧ (∀ t1 t2,
       Probe.settled (Probe.run (Probe.WsError t1 :: Probe.ImgLoad 0 t2 :: events)
                        (Probe.start t0))
       = Some (Some (Probe.elapsed t1 t2)))
  ∧ (∀ t1,
       Probe.settled (Probe.run (Probe.WsOpen t1 :: events) (Probe.start t0))
       = Some (Some (Probe.elapsed t0 t1)))
  ∧ Probe.elapsed double_0_3 double_2_8 = double_3.
Proof.
  split; [|split; [|split; [|split; [|split]]]].
  - intros value more H. unfold Probe.run. rewrite foldl_app. by apply run_settled.
  - intros Ht0 Hmono. apply (run_in_time events t0); [|done].
    split; [|split; [by constructor | done]].
    split; [done|]. split; [done|]. by apply SFleb_refl.
  - by apply (run_settled events (Probe.step (Probe.start t0) Probe.WsTimeout)).
  - intros t1 t2.
    by apply (run_settled events
                (Probe.step (Probe.step (Probe.start t0) (Probe.WsError t1))
                   (Probe.ImgLoad 0 t2))).
  - intros t1. by apply (run_settled events (Probe.step (Probe.start t0) (Probe.WsOpen t1))).
  - by vm_compute.
Qed.

Lemma split_colon_plain (s : jsstring) :
  Forall (λ c, c ≠ 58%N) s → Probe.split_colon s = [s].
Proof.
  induction 1 as [|c s Hc _ IH]; [done|]. simpl.
  rewrite (proj2 (N.eqb_neq c 58) Hc). by rewrite IH.
Qed.

Lemma split_colon_app (s rest : jsstring) :
  Forall (λ c, c ≠ 58%N) s →
  Probe.split_colon (s ++ 58%N :: rest) = s :: Probe.split_colon rest.
Proof.
  induction 1 as [|c s Hc _ IH]; [done|]. simpl.
  rewrite (proj2 (N.eqb_neq c 58) Hc). by rewrite IH.
Qed.

(** X26.  The URL that the probe connects to keeps the first two parts of
    the address between colons: it is "ws://" and the address when the
    address has one colon; what follows a second colon is dropped; and an
    address without a colon gets the string of undefined as its port. *)
Theorem probe_url_keeps_two_parts {rt : Runtime} (host port : jsstring) :
  Forall (λ c, c ≠ 58%N) host → Forall (λ c, c ≠ 58%N) port →
  Probe.ws_url (host ++ lit ":" ++ port) = Ok (lit "ws://" ++ host ++ lit ":" ++ port)
  ∧ (∀ rest, Probe.ws_url (host ++ lit ":" ++ port ++ lit ":" ++ rest)
             = Ok (lit "ws://" ++ host ++ lit ":" ++ port))
  ∧ Probe.ws_url host
    = (port ← ToString VUndef; Ok (lit "ws://" ++ host ++ lit ":" ++ port))
  ∧ (∀ now, Probe.img_src (host ++ lit ":" ++ port) now
            = (t ← ToString (VNum (inject_Z now));
               Ok (lit "http://" ++ host ++ lit ":" ++ port ++ lit "/favicon.ico?t=" ++ t))).
Proof.
  intros Hh Hp. unfold Probe.ws_url, Probe.img_src, Probe.host_port.
  change (lit ":") with [58%N]. cbn [app].
  split; [|split; [|split]].
  - rewrite split_colon_app, split_colon_plain by done. done.
  - intros rest. rewrite !split_colon_app by done. done.
  - rewrite split_colon_plain by done. done.
  - intros now. rewrite split_colon_app, split_colon_plain by done. done.
Qed.

Lemma probe_url_keeps_two_parts_witness :
  @Probe.ws_url plain_runtime play1 = Ok (lit "ws://play.simpfun.cn:30786")
  ∧ @Probe.ws_url plain_runtime (lit "play.simpfun.cn")
    = Ok (lit "ws://play.simpfun.cn:undefined").
Proof.
  destruct (@probe_url_keeps_two_parts plain_runtime (lit "play.simpfun.cn") (lit "30786"))
    as (H1 & _ & H3 & _).
  - repeat constructor; discriminate.
  - repeat constructor; discriminate.
  - split; [exact H1 | exact H3].
Defined.
